(** * MaidSafe Vault Manager: chunk actions, framed TCP transport, supervisor

    A shallow embedding of three parts of the code base and the properties
    proved about them:

    - [appendable_by_all_rules.cc]: the policy handlers of the
      appendable-by-all chunk type (module [ChunkActions]);
    - [tcp_connection.cc], [tcp_transport.cc]: the length-prefixed framing
      and the receive state machine of one connection (module [Transport]);
    - [vault_manager.cc]: the control-message handlers of the supervisor
      (module [VaultManager]).

    [std::string] is [string]; an [unsigned char] or a fixed-width integer is
    a [Z] with its wrap-around written out; the chunk store is a finite map
    from names to contents.  Code that the handlers only call (protobuf
    codecs, asymmetric crypto, the process manager, the file system) is an
    interface: a type class or a record of outcomes. *)

From stdpp Require Import base numbers option list strings gmap.
From Stdlib Require Import ZArith Ascii String Lia.

Local Open Scope string_scope.
Local Open Scope list_scope.

(** ** Return codes ([return_codes.h]): a closed enumeration of distinct
    integers; only the codes used by the handlers below are listed. *)

Inductive ReturnCode : Type :=
| kSuccess
| kGeneralError
| kFailedToFindChunk
| kInvalidPublicKey
| kNotOwner
| kKeyNotUnique
| kInvalidSignedData
| kSignatureVerificationFailure
| kParseFailure
| kInvalidModify
| kAppendDisallowed.

#[global] Instance ReturnCode_eq_dec : EqDecision ReturnCode.
Proof. solve_decision. Defined.

(** [std::string::empty()]. *)
Definition empty_string (s : string) : bool :=
  match s with
  | EmptyString => true
  | String _ _ => false
  end.

(** [s.c_str()[0]]: the first character, or the terminating NUL of an empty
    string. *)
Definition c_str_0 (s : string) : ascii :=
  match s with
  | EmptyString => Ascii.zero
  | String c _ => c
  end.

(** The protobuf codec of one message type: [ParseFromString] fails or
    yields an initialised message, [SerializeToString] writes the bytes of
    one (it cannot fail on an initialised message, which is what
    [BOOST_VERIFY] asserts at every call). *)
Class Protobuf (T : Type) : Type := {
  ParseFromString : string -> option T;
  SerializeToString : T -> string
}.

(** [ParseProtobuf<T>(serialised, &message)]. *)
Definition ParseProtobuf {T : Type} {pb : Protobuf T} (serialised : string)
  : option T := ParseFromString serialised.

(** * Chunk actions *)

Module ChunkActions.

(** ** Messages ([chunk_pb.h], [appendable_by_all_pb.h]) *)

Record SignedData : Type := mkSignedData {
  data : string;
  signature : string
}.

Record AppendableByAll : Type := mkAppendableByAll {
  identity_key : SignedData;
  allow_others_to_append : SignedData;
  appendices : list SignedData
}.

Record ModifyAppendableByAll : Type := mkModifyAppendableByAll {
  modify_allow_others_to_append : SignedData;
  modify_identity_key : SignedData
}.

(** The generated mutators used by the handlers. *)
Definition clear_appendices (c : AppendableByAll) : AppendableByAll :=
  {| identity_key := identity_key c;
     allow_others_to_append := allow_others_to_append c;
     appendices := [] |}.

Definition set_allow_others_to_append (c : AppendableByAll) (f : SignedData)
  : AppendableByAll :=
  {| identity_key := identity_key c;
     allow_others_to_append := f;
     appendices := appendices c |}.

Definition set_identity_key (c : AppendableByAll) (f : SignedData)
  : AppendableByAll :=
  {| identity_key := f;
     allow_others_to_append := allow_others_to_append c;
     appendices := appendices c |}.

Definition add_appendices (c : AppendableByAll) (a : SignedData)
  : AppendableByAll :=
  {| identity_key := identity_key c;
     allow_others_to_append := allow_others_to_append c;
     appendices := appendices c ++ [a] |}.

(** ** Interfaces of the collaborators *)

(** [asymm::ValidateKey] and [asymm::CheckSignature]; the handlers only ask
    whether the code of [CheckSignature] is [kSuccess]. *)
Class Asymm (PublicKey : Type) : Type := {
  ValidateKey : PublicKey -> bool;
  CheckSignature : string -> string -> PublicKey -> ReturnCode
}.

(** ** The chunk store *)

(** Modelled from the spec: the chunk storage engine is "a byte-addressable
    key->bytes store with Get/Has/Store/Delete/Modify"; its class is not part
    of the sources.  Handlers receive the store by shared pointer, so every
    call is a step of a state monad over the store. *)
Definition CS (A : Type) : Type :=
  gmap string string -> A * gmap string string.

#[global] Instance CS_ret : MRet CS := fun A a store => (a, store).
#[global] Instance CS_bind : MBind CS := fun A B f m store =>
  let '(a, store') := m store in f a store'.

(** Modelled from the spec: [Get] reads the bytes under a name; the handlers
    take an empty result for a missing chunk. *)
Definition cs_Get (name : string) : CS string :=
  fun store => (default "" (store !! name), store).

(** Modelled from the spec: [Has] tells whether the name is present. *)
Definition cs_Has (name : string) : CS bool :=
  fun store => (bool_decide (is_Some (store !! name)), store).

(** Modelled from the spec: [Store] puts bytes under a name. *)
Definition cs_Store (name content : string) : CS bool :=
  fun store => (true, <[name := content]> store).

(** Modelled from the spec: [Delete] removes a name. *)
Definition cs_Delete (name : string) : CS bool :=
  fun store => (true, delete name store).

(** Modelled from the spec: [Modify] replaces the bytes under a name that
    is present. *)
Definition cs_Modify (name content : string) : CS bool :=
  fun store =>
    match store !! name with
    | Some _ => (true, <[name := content]> store)
    | None => (false, store)
    end.

(** ** The chunk type tag *)

(** Modelled from the spec: the tag constants ([chunk_types.h]) are not part
    of the sources.  The spec's scenarios store the flag byte [\x01] in a
    chunk that accepts appends and [\x00] in one that refuses them, so the
    [unsigned char] constant [kAppendableByAll] is 1. *)
Definition kAppendableByAll : Z := 1.

(** The byte of the tag, as it sits in a chunk. *)
Definition tag_byte : ascii := ascii_of_N (Z.to_N kAppendableByAll).

Section Rules.

Context {PublicKey : Type} {asymm : Asymm PublicKey}.
Context {pb_signed : Protobuf SignedData}
        {pb_chunk : Protobuf AppendableByAll}
        {pb_modify : Protobuf ModifyAppendableByAll}.

(** Plain [char] is promoted to [int] before it is compared with the tag;
    its signedness is the platform's. *)
Variable char_is_signed : bool.

Definition int_of_char (c : ascii) : Z :=
  let n := Z.of_N (N_of_ascii c) in
  if char_is_signed && (128 <=? n)%Z then (n - 256)%Z else n.

(** [CheckSignature(sd.data(), sd.signature(), public_key) == kSuccess]. *)
Definition signature_ok (sd : SignedData) (public_key : PublicKey) : bool :=
  bool_decide (CheckSignature (data sd) (signature sd) public_key = kSuccess).

(** [IsCacheable<kAppendableByAll>]. *)
Definition IsCacheable : bool := false.

(** [IsValidChunk<kAppendableByAll>]. *)
Definition IsValidChunk (name : string) : CS bool :=
  existing_data ← cs_Get name;
  if empty_string existing_data then mret false else mret true.

(** [ProcessGet<kAppendableByAll>]: the code and the value left in
    [*existing_content] (cleared on entry). *)
Definition ProcessGet (name version : string) (public_key : PublicKey)
  : CS (ReturnCode * string) :=
  all_existing_content ← cs_Get name;
  if empty_string all_existing_content then mret (kFailedToFindChunk, "")
  else
    match ParseProtobuf (T := AppendableByAll) all_existing_content with
    | None => mret (kGeneralError, "")
    | Some existing_chunk =>
      if negb (ValidateKey public_key) then mret (kInvalidPublicKey, "")
      else if signature_ok (allow_others_to_append existing_chunk) public_key
      then
        (* Owner: the whole chunk, appendices cleaned up *)
        mret (kSuccess, SerializeToString (clear_appendices existing_chunk))
      else
        (* Not owner: only the first value *)
        mret (kNotOwner, SerializeToString (identity_key existing_chunk))
    end.

(** [ProcessStore<kAppendableByAll>]. *)
Definition ProcessStore (name content : string) (public_key : PublicKey)
  : CS ReturnCode :=
  exists_already ← cs_Has name;
  if (exists_already : bool) then mret kKeyNotUnique
  else
    match ParseProtobuf (T := AppendableByAll) content with
    | None => mret kInvalidSignedData
    | Some chunk =>
      if negb (ValidateKey public_key) then mret kInvalidPublicKey
      else if negb (signature_ok (allow_others_to_append chunk) public_key)
      then mret kSignatureVerificationFailure
      else mret kSuccess
    end.

(** [ProcessDelete<kAppendableByAll>]. *)
Definition ProcessDelete (name version ownership_proof : string)
    (public_key : PublicKey) : CS ReturnCode :=
  existing_content ← cs_Get name;
  if empty_string existing_content then mret kSuccess
  else
    match ParseProtobuf (T := AppendableByAll) existing_content with
    | None => mret kGeneralError
    | Some existing_chunk =>
      if negb (ValidateKey public_key) then mret kInvalidPublicKey
      else if negb (signature_ok (allow_others_to_append existing_chunk)
                                 public_key)
      then mret kSignatureVerificationFailure
      else
        match ParseProtobuf (T := SignedData) ownership_proof with
        | None => mret kNotOwner
        | Some deletion_token =>
          if negb (signature_ok deletion_token public_key)
          then mret kNotOwner
          else mret kSuccess
        end
    end.

(** The owner branch of [ProcessModify], after [content] has parsed. *)
Definition modify_as_owner (existing_chunk : AppendableByAll)
    (chunk : ModifyAppendableByAll) (public_key : PublicKey)
  : ReturnCode * string :=
  let allow_others_to_append_empty :=
    empty_string (data (modify_allow_others_to_append chunk)) in
  let identity_key_empty :=
    empty_string (data (modify_identity_key chunk)) in
  if allow_others_to_append_empty && identity_key_empty
  then (kInvalidModify, "")
  else if negb allow_others_to_append_empty && negb identity_key_empty
  then (kInvalidModify, "")
  else if negb allow_others_to_append_empty then
    if negb (signature_ok (modify_allow_others_to_append chunk) public_key)
    then (kSignatureVerificationFailure, "")
    else if String.eqb (data (modify_allow_others_to_append chunk))
                       (data (allow_others_to_append existing_chunk))
    then (* Remove appendices only *)
      (kSuccess, SerializeToString (clear_appendices existing_chunk))
    else (* Replace field only, leave appendices untouched *)
      (kSuccess,
       SerializeToString
         (set_allow_others_to_append existing_chunk
            (modify_allow_others_to_append chunk)))
  else
    if negb (signature_ok (modify_identity_key chunk) public_key)
    then (kSignatureVerificationFailure, "")
    else if String.eqb (data (modify_identity_key chunk))
                       (data (identity_key existing_chunk))
    then (kSuccess, SerializeToString (clear_appendices existing_chunk))
    else
      (kSuccess,
       SerializeToString
         (set_identity_key existing_chunk (modify_identity_key chunk))).

(** The branch of [ProcessModify] taken by everybody else. *)
Definition modify_as_other (existing_chunk : AppendableByAll)
    (content : string) (public_key : PublicKey) : ReturnCode * string :=
  let appendability :=
    c_str_0 (data (allow_others_to_append existing_chunk)) in
  if (int_of_char appendability =? kAppendableByAll)%Z then
    match ParseProtobuf (T := SignedData) content with
    | None => (kInvalidSignedData, "")
    | Some appendix =>
      if negb (signature_ok appendix public_key)
      then (kSignatureVerificationFailure, "")
      else (kSuccess,
            SerializeToString (add_appendices existing_chunk appendix))
    end
  else (kAppendDisallowed, "").

(** [ProcessModify<kAppendableByAll>]: the code and the value left in
    [*new_content] (cleared on entry). *)
Definition ProcessModify (name content version : string)
    (public_key : PublicKey) : CS (ReturnCode * string) :=
  existing_content ← cs_Get name;
  if empty_string existing_content then mret (kFailedToFindChunk, "")
  else
    match ParseProtobuf (T := AppendableByAll) existing_content with
    | None => mret (kGeneralError, "")
    | Some existing_chunk =>
      if negb (ValidateKey public_key) then mret (kInvalidPublicKey, "")
      else
        let is_owner :=
          signature_ok (allow_others_to_append existing_chunk) public_key in
        if is_owner then
          match ParseProtobuf (T := ModifyAppendableByAll) content with
          | None => mret (kParseFailure, "")
          | Some chunk => mret (modify_as_owner existing_chunk chunk public_key)
          end
        else mret (modify_as_other existing_chunk content public_key)
    end.

(** [ProcessHas<kAppendableByAll>]. *)
Definition ProcessHas (name version : string) (public_key : PublicKey)
  : CS ReturnCode :=
  exists_already ← cs_Has name;
  if negb (exists_already : bool) then mret kFailedToFindChunk else mret kSuccess.

(** A chunk is stored under [name] when the store returns non-empty bytes
    that parse to it. *)
Definition stored (store : gmap string string) (name : string)
    (c : AppendableByAll) : Prop :=
  exists bytes, store !! name = Some bytes /\ bytes <> "" /\
                ParseProtobuf bytes = Some c.

End Rules.

End ChunkActions.

(** * Framed TCP transport *)

Module Transport.

(** [TransportCondition]: the conditions reported through [on_error]. *)
Inductive TransportCondition : Type :=
| kSendFailure
| kSendTimeout
| kReceiveFailure
| kReceiveTimeout
| kMessageSizeTooLarge.

#[global] Instance TransportCondition_eq_dec : EqDecision TransportCondition.
Proof. solve_decision. Defined.

(** A [boost::system::error_code] as the handlers look at it. *)
Inductive error_code : Type :=
| no_error
| operation_aborted
| other_error.

(** [boost::posix_time::ptime]: milliseconds, or [pos_infin]. *)
Inductive ptime : Type :=
| at_time (t : Z)
| pos_infin.

Definition ptime_le (a b : ptime) : bool :=
  match a, b with
  | at_time x, at_time y => (x <=? y)%Z
  | _, pos_infin => true
  | pos_infin, at_time _ => false
  end.

(** [std::min(a, b)]. *)
Definition ptime_min (a b : ptime) : ptime :=
  if ptime_le a b then a else b.

(** [DataSize] is a 4-byte signed integer ([static_assert] in the
    constructor); [size_t] is that of a 64-bit build. *)
Definition wrap_DataSize (z : Z) : Z := ((z + 2 ^ 31) mod 2 ^ 32 - 2 ^ 31)%Z.
Definition wrap_size_t (z : Z) : Z := (z mod 2 ^ 64)%Z.

(** [static_cast<char>] of an integer, stored in an [unsigned char]. *)
Definition low_byte (z : Z) : Z := Z.land z 255.

(** [char] to [unsigned char] and back, as [assign] and the [std::string]
    range constructor copy them. *)
Definition byte_of_char (c : ascii) : Z := Z.of_N (N_of_ascii c).
Definition char_of_byte (b : Z) : ascii := ascii_of_N (Z.to_N b).

Definition bytes_of_string (s : string) : list Z :=
  map byte_of_char (list_ascii_of_string s).
Definition string_of_bytes (l : list Z) : string :=
  string_of_list_ascii (map char_of_byte l).

(** One connection.  [transport_] tells whether the weak pointer to the
    transport can still be locked, [socket_] whether the socket is open,
    [timer_] when the deadline timer expires.  The two buffers are vectors
    of [unsigned char]; [data_size_] and [data_received_] are [size_t]. *)
Record TcpConnection : Type := mkTcpConnection {
  transport_ : bool;
  socket_ : bool;
  timer_ : ptime;
  response_deadline_ : ptime;
  size_buffer_ : list Z;
  data_buffer_ : list Z;
  data_size_ : Z;
  data_received_ : Z;
  timeout_for_response_ : Z
}.

Definition set_socket_ (b : bool) (c : TcpConnection) : TcpConnection :=
  mkTcpConnection (transport_ c) b (timer_ c) (response_deadline_ c)
    (size_buffer_ c) (data_buffer_ c) (data_size_ c) (data_received_ c)
    (timeout_for_response_ c).

Definition set_timer_ (t : ptime) (c : TcpConnection) : TcpConnection :=
  mkTcpConnection (transport_ c) (socket_ c) t (response_deadline_ c)
    (size_buffer_ c) (data_buffer_ c) (data_size_ c) (data_received_ c)
    (timeout_for_response_ c).

Definition set_response_deadline_ (t : ptime) (c : TcpConnection)
  : TcpConnection :=
  mkTcpConnection (transport_ c) (socket_ c) (timer_ c) t
    (size_buffer_ c) (data_buffer_ c) (data_size_ c) (data_received_ c)
    (timeout_for_response_ c).

Definition set_size_buffer_ (l : list Z) (c : TcpConnection) : TcpConnection :=
  mkTcpConnection (transport_ c) (socket_ c) (timer_ c) (response_deadline_ c)
    l (data_buffer_ c) (data_size_ c) (data_received_ c)
    (timeout_for_response_ c).

Definition set_data_buffer_ (l : list Z) (c : TcpConnection) : TcpConnection :=
  mkTcpConnection (transport_ c) (socket_ c) (timer_ c) (response_deadline_ c)
    (size_buffer_ c) l (data_size_ c) (data_received_ c)
    (timeout_for_response_ c).

Definition set_data_size_ (n : Z) (c : TcpConnection) : TcpConnection :=
  mkTcpConnection (transport_ c) (socket_ c) (timer_ c) (response_deadline_ c)
    (size_buffer_ c) (data_buffer_ c) n (data_received_ c)
    (timeout_for_response_ c).

Definition set_data_received_ (n : Z) (c : TcpConnection) : TcpConnection :=
  mkTcpConnection (transport_ c) (socket_ c) (timer_ c) (response_deadline_ c)
    (size_buffer_ c) (data_buffer_ c) (data_size_ c) n
    (timeout_for_response_ c).

Definition set_timeout_for_response_ (t : Z) (c : TcpConnection)
  : TcpConnection :=
  mkTcpConnection (transport_ c) (socket_ c) (timer_ c) (response_deadline_ c)
    (size_buffer_ c) (data_buffer_ c) (data_size_ c) (data_received_ c) t.

(** What a handler asks of asio and of the transport, in program order. *)
Inductive Event : Type :=
| async_read_size              (* async_read into size_buffer_, then HandleReadSize *)
| async_read_data (n : Z)      (* async_read of n bytes into data_buffer_ at
                                  data_received_, then HandleReadData *)
| async_wait                   (* timer_.async_wait, then CheckTimeout *)
| async_connect                (* socket_.async_connect, then HandleConnect *)
| async_write (bytes : list Z) (* async_write of the gathered buffers,
                                  then HandleWrite *)
| timer_cancel
| on_error (e : TransportCondition)
| InsertConnection             (* the transport's connection set *)
| RemoveConnection
| post_DispatchMessage         (* io_service.post(DispatchMessage) *)
| dispatch_DoClose             (* strand_.dispatch(DoClose) *)
| dispatch_StartWrite.         (* strand_.dispatch(StartWrite) *)

#[global] Instance Event_eq_dec : EqDecision Event.
Proof. solve_decision. Defined.

(** A handler body: the connection afterwards and the events raised. *)
Definition Step : Type := TcpConnection -> TcpConnection * list Event.

Definition skip : Step := fun c => (c, []).
Definition emit (e : Event) : Step := fun c => (c, [e]).
Definition update (f : TcpConnection -> TcpConnection) : Step :=
  fun c => (f c, []).
Definition andthen (f g : Step) : Step :=
  fun c => let '(c1, e1) := f c in
           let '(c2, e2) := g c1 in (c2, e1 ++ e2).

Declare Scope step_scope.
Delimit Scope step_scope with step.
Notation "f ;; g" := (andthen f g)
  (at level 100, g at level 200, right associativity) : step_scope.
Local Open Scope step_scope.

(** [v.at(i)] on a vector that holds the index. *)
Definition at_ (v : list Z) (i : nat) : Z := default 0%Z (v !! i).

Section Connection.

(** The tuneables of [transport.h], which is not part of the sources.
    Durations are in milliseconds.  [scaled_size n] stands for
    [static_cast<int64_t>(n * kTimeoutFactor)]. *)
Variable kMaxTransportMessageSize : Z.
Variable kMaxTransportChunkSize : Z.
Variable kDefaultInitialTimeout : Z.
Variable kStallTimeout : Z.
Variable kMinTimeout : Z.
Variable kImmediateTimeout : Z.
Variable scaled_size : Z -> Z.

(** The constructor: a closed socket, a size buffer of [sizeof(DataSize)]
    elements.  The timer and the deadline are set by [StartReadSize],
    [StartConnect] or [StartWrite] before any handler reads them. *)
Definition TcpConnection_new : TcpConnection :=
  {| transport_ := true;
     socket_ := false;
     timer_ := pos_infin;
     response_deadline_ := pos_infin;
     size_buffer_ := replicate 4 0%Z;
     data_buffer_ := [];
     data_size_ := 0;
     data_received_ := 0;
     timeout_for_response_ := kDefaultInitialTimeout |}.

Definition DoClose : Step :=
  update (set_socket_ false) ;;
  emit timer_cancel ;;
  fun c => if transport_ c then emit RemoveConnection c else skip c.

Definition CloseOnError (error : TransportCondition) : Step :=
  (fun c => if transport_ c then emit (on_error error) c else skip c) ;;
  DoClose.

Definition CheckTimeout (ec : error_code) (now : Z) : Step :=
  fun c =>
    match ec with
    | other_error => update (set_socket_ false) c
    | _ =>
      (* If the socket is closed, the connection has been shut down. *)
      if negb (socket_ c) then skip c
      else if ptime_le (timer_ c) (at_time now)
      then (* Time has run out. *) update (set_socket_ false) c
      else (* Go back to sleep. *) emit async_wait c
    end.

Definition StartReadData (now : Z) : Step :=
  fun c =>
    let buffer_size :=
      wrap_size_t (data_received_ c +
                   Z.min (wrap_size_t kMaxTransportChunkSize)
                         (wrap_size_t (data_size_ c - data_received_ c))) in
    (update (fun c => set_data_buffer_
                        (resize (Z.to_nat buffer_size) 0%Z (data_buffer_ c)) c) ;;
     emit (async_read_data (Z.max 0 (buffer_size - data_received_ c))) ;;
     update (fun c => set_timer_
                        (ptime_min (response_deadline_ c)
                                   (at_time (now + kStallTimeout))) c)) c.

Definition StartReadSize (now : Z) : Step :=
  emit async_read_size ;;
  update (fun c => set_response_deadline_
                     (at_time (now + timeout_for_response_ c)) c) ;;
  update (fun c => set_timer_
                     (ptime_min (response_deadline_ c)
                                (at_time (now + kStallTimeout))) c).

(** The size decoded from the four bytes of the size buffer.  The shifts
    are done in [int]; a first byte above 127 overflows it and is taken to
    wrap, as the conversion to [DataSize] does. *)
Definition read_size (size_buffer : list Z) : Z :=
  wrap_DataSize
    (Z.lor (Z.shiftl
       (Z.lor (Z.shiftl
          (Z.lor (Z.shiftl (at_ size_buffer 0) 8) (at_ size_buffer 1)) 8)
          (at_ size_buffer 2)) 8)
       (at_ size_buffer 3)).

Definition HandleReadSize (ec : error_code) (now : Z) : Step :=
  match ec with
  | no_error =>
    CheckTimeout no_error now ;;
    fun c =>
      (* If the socket is closed, the timeout has been triggered. *)
      if negb (socket_ c) then CloseOnError kReceiveTimeout c
      else
        let size := read_size (size_buffer_ c) in
        (update (set_data_size_ (wrap_size_t size)) ;;
         update (set_data_received_ 0) ;;
         StartReadData now) c
  | _ => CloseOnError kReceiveFailure
  end.

Definition HandleReadData (ec : error_code) (length : Z) (now : Z) : Step :=
  match ec with
  | no_error =>
    CheckTimeout no_error now ;;
    fun c =>
      if negb (socket_ c) then CloseOnError kReceiveTimeout c
      else
        (update (fun c => set_data_received_
                            (wrap_size_t (data_received_ c + length)) c) ;;
         fun c =>
           if (data_received_ c =? data_size_ c)%Z then
             (* No timeout applies while dispatching the message. *)
             (update (set_timer_ pos_infin) ;; emit post_DispatchMessage) c
           else (* Need more data to complete the message. *)
             StartReadData now c) c
  | _ => CloseOnError kReceiveFailure
  end.

(** [EncodeData]: the size into the size buffer, most significant byte
    first, the payload into the data buffer. *)
Definition EncodeData (data : string) : Step :=
  let msg_size := wrap_DataSize (Z.of_nat (String.length data)) in
  update (fun c =>
    set_size_buffer_
      (foldl (fun buf i =>
                <[ i := low_byte (Z.shiftr msg_size (8 * (3 - Z.of_nat i))) ]> buf)
             (size_buffer_ c) [0; 1; 2; 3]%nat) c) ;;
  update (set_data_buffer_ (bytes_of_string data)).

Definition StartWrite (now : Z) : Step :=
  fun c =>
    let tm_out :=
      Z.max (scaled_size (Z.of_nat (List.length (data_buffer_ c)))) kMinTimeout in
    (emit (async_write (size_buffer_ c ++ data_buffer_ c)) ;;
     update (set_timer_ (at_time (now + tm_out))) ;;
     CheckTimeout no_error now) c.

(** [DispatchMessage] with the transport alive: the callback gets the
    received bytes and fills in the response and its timeout. *)
Definition DispatchMessage
    (on_message_received : string -> string * Z) : Step :=
  fun c =>
    if transport_ c then
      let '(response, response_timeout) :=
        on_message_received (string_of_bytes (data_buffer_ c)) in
      let msg_size := wrap_DataSize (Z.of_nat (String.length response)) in
      if empty_string response || (msg_size >? kMaxTransportMessageSize)%Z
      then emit dispatch_DoClose c
      else (EncodeData response ;;
            update (set_timeout_for_response_ response_timeout) ;;
            emit dispatch_StartWrite) c
    else skip c.

Definition StartConnect (now : Z) : Step :=
  emit async_connect ;;
  update (set_timer_ (at_time (now + kDefaultInitialTimeout))).

Definition HandleConnect (ec : error_code) (now : Z) : Step :=
  match ec with
  | no_error =>
    fun c => if negb (socket_ c) then CloseOnError kSendTimeout c
             else StartWrite now c
  | _ => CloseOnError kSendFailure
  end.

Definition HandleWrite (ec : error_code) (now : Z) : Step :=
  match ec with
  | no_error =>
    fun c =>
      if negb (socket_ c) then CloseOnError kSendTimeout c
      else if negb (timeout_for_response_ c =? kImmediateTimeout)%Z
      then StartReadSize now c
      else DoClose c
  | _ => CloseOnError kSendFailure
  end.

(** [StartSending] followed by the dispatched [DoStartSending]. *)
Definition StartSending (data : string) (timeout : Z) (now : Z) : Step :=
  EncodeData data ;;
  update (set_timeout_for_response_ timeout) ;;
  StartConnect now.

(** [TcpTransport::Send]: an oversized message is reported and not sent;
    otherwise a fresh connection starts sending. *)
Definition Send (data : string) (timeout : Z) (now : Z)
  : option TcpConnection * list Event :=
  let msg_size := wrap_DataSize (Z.of_nat (String.length data)) in
  if (msg_size >? kMaxTransportMessageSize)%Z
  then (None, [on_error kMessageSizeTooLarge])
  else let '(c, ev) := StartSending data timeout now TcpConnection_new in
       (Some c, InsertConnection :: ev).

(** *** asio, as far as one inbound frame needs it

    [async_read] completes once the whole buffer has been filled from the
    bytes that arrive; here all of [wire] has arrived at time [now]. *)

(** The bytes of a completed read, written at [data_received_]. *)
Definition fill_data_buffer (bytes : list Z) (c : TcpConnection)
  : TcpConnection :=
  let off := Z.to_nat (data_received_ c) in
  set_data_buffer_
    (take off (data_buffer_ c) ++ bytes ++
     drop (off + List.length bytes) (data_buffer_ c)) c.

(** The data read a handler has left pending, if any. *)
Fixpoint pending_read_data (ev : list Event) : option Z :=
  match ev with
  | [] => None
  | async_read_data n :: _ => Some n
  | _ :: ev' => pending_read_data ev'
  end.

(** Completes pending data reads from [wire] until the handler stops asking
    for more; [None] when a read cannot complete or the fuel runs out. *)
Fixpoint read_data_loop (fuel : nat) (now : Z) (wire : list Z) (n : Z)
    (c : TcpConnection) : option (TcpConnection * list Event) :=
  match fuel with
  | O => None
  | S fuel' =>
    if (Z.of_nat (List.length wire) <? n)%Z then None
    else
      let bytes := take (Z.to_nat n) wire in
      let '(c', ev) :=
        HandleReadData no_error n now (fill_data_buffer bytes c) in
      match pending_read_data ev with
      | Some n' => read_data_loop fuel' now (drop (Z.to_nat n) wire) n' c'
      | None => Some (c', ev)
      end
  end.

(** One inbound frame on a connection that has started receiving: the
    message handed to [DispatchMessage], if the frame gets that far. *)
Definition receive_frame (fuel : nat) (now : Z) (wire : list Z)
    (c : TcpConnection) : option string :=
  let '(c0, _) := StartReadSize now c in
  if (List.length wire <? 4)%nat then None
  else
    let '(c1, ev1) :=
      HandleReadSize no_error now (set_size_buffer_ (take 4 wire) c0) in
    match pending_read_data ev1 with
    | None => None
    | Some n =>
      match read_data_loop fuel now (drop 4 wire) n c1 with
      | Some (c2, ev2) =>
        if bool_decide (post_DispatchMessage ∈ ev2)
        then Some (string_of_bytes (data_buffer_ c2))
        else None
      | None => None
      end
    end.

(** A connection in the middle of a frame whose payload is [bs]: open, its
    deadlines after [now], the first [k] bytes received and in place, the
    buffer sized for the read that is pending. *)
Definition receiving (now : Z) (bs : list Z) (k : nat) (c : TcpConnection)
  : Prop :=
  socket_ c = true /\
  (exists D, response_deadline_ c = at_time D /\ (now < D)%Z) /\
  ptime_le (timer_ c) (at_time now) = false /\
  data_size_ c = Z.of_nat (List.length bs) /\
  data_received_ c = Z.of_nat k /\
  take k (data_buffer_ c) = take k bs /\
  Z.of_nat (List.length (data_buffer_ c)) =
    (Z.of_nat k +
     Z.min kMaxTransportChunkSize
           (Z.of_nat (List.length bs) - Z.of_nat k))%Z.

End Connection.

(** The frame as the spec words it: the length as four bytes, most
    significant first, then the payload. *)
Definition big_endian_4 (n : Z) : list Z :=
  [(n / 2 ^ 24) mod 256; (n / 2 ^ 16) mod 256; (n / 2 ^ 8) mod 256;
   n mod 256]%Z.

Definition frame_of (payload : string) : list Z :=
  big_endian_4 (Z.of_nat (String.length payload)) ++ bytes_of_string payload.

(** What is left of a connection that [CloseOnError] has closed. *)
Definition closed_with (e : TransportCondition) (c : TcpConnection)
  : TcpConnection * list Event :=
  (set_socket_ false c,
   if transport_ c then [on_error e; timer_cancel; RemoveConnection]
   else [timer_cancel]).

End Transport.

(** * Vault Manager *)

Module VaultManager.

(** [MessageType] ([utils.h]): the tags named in [vault_manager.cc]. *)
Inductive MessageType : Type :=
| kPing
| kStartVaultRequest
| kStartVaultResponse
| kVaultIdentityRequest
| kVaultIdentityResponse
| kStopVaultRequest
| kVaultShutdownResponse
| kUpdateIntervalRequest
| kUpdateIntervalResponse.

(** ** Control messages ([controller_messages_pb.h], [vault_info_pb.h]),
    with the fields the handlers read or set. *)

Record StartVaultRequest : Type := mkStartVaultRequest {
  start_account_name : string;
  start_keys : string;
  bootstrap_endpoint : string
}.

Record StartVaultResponse : Type := mkStartVaultResponse {
  start_result : bool
}.

Record VaultIdentityRequest : Type := mkVaultIdentityRequest {
  request_process_index : Z
}.

Record VaultIdentityResponse : Type := mkVaultIdentityResponse {
  response_account_name : string;
  response_keys : string
}.

Record StopVaultRequest : Type := mkStopVaultRequest {
  stop_identity : string;
  stop_data : string;
  stop_signature : string
}.

Record StopVaultResponse : Type := mkStopVaultResponse {
  stop_result : bool
}.

Record UpdateIntervalRequest : Type := mkUpdateIntervalRequest {
  new_update_interval : option Z   (* [has_new_update_interval] *)
}.

Record UpdateIntervalResponse : Type := mkUpdateIntervalResponse {
  update_interval : Z
}.

Record pb_VaultInfo : Type := mk_pb_VaultInfo {
  pb_account_name : string;
  pb_keys : string;
  pb_chunkstore_path : string;
  pb_chunkstore_capacity : Z;
  pb_requested_to_run : bool
}.

Record VaultManagerConfig : Type := mkVaultManagerConfig {
  config_update_interval : Z;
  config_vault_info : list pb_VaultInfo
}.

(** ** [asymm::Keys] and [VaultManager::VaultInfo] *)

Record Keys : Type := mkKeys {
  identity : string;
  public_key : string;
  private_key : string
}.

(** The record's mutex and condition variable serve the one wait of
    [HandleStartVaultRequest]; [vault_requested] is the flag they guard. *)
Record VaultInfo : Type := mkVaultInfo {
  process_index : Z;
  account_name : string;
  keys : Keys;
  chunkstore_path : string;
  chunkstore_capacity : Z;
  client_port : Z;
  vault_port : Z;
  requested_to_run : bool;
  vault_requested : bool
}.

Definition set_requested_to_run (b : bool) (v : VaultInfo) : VaultInfo :=
  mkVaultInfo (process_index v) (account_name v) (keys v) (chunkstore_path v)
    (chunkstore_capacity v) (client_port v) (vault_port v) b
    (vault_requested v).

Definition set_vault_requested (b : bool) (v : VaultInfo) : VaultInfo :=
  mkVaultInfo (process_index v) (account_name v) (keys v) (chunkstore_path v)
    (chunkstore_capacity v) (client_port v) (vault_port v)
    (requested_to_run v) b.

(** ** What the supervisor does to the outside, in program order *)
Inductive Effect : Type :=
| create_directories (dir : string)
| copy_file (from to : string)
| AddProcess (arguments : list string) (port : Z)
| StartProcess (index : Z)
| StopProcess (index : Z)
| WriteFile (path content : string)
| wait_for (seconds : Z) (index : Z)   (* on the record's condition variable *)
| notify_one (index : Z)               (* the record's condition variable *)
| notify_all                           (* cond_var_ *)
| update_timer_expires_from_now (seconds : Z)
| update_timer_async_wait
| Send (data : string) (port : Z).     (* transport_->Send *)

(** The two mutexes of the manager. *)
Inductive Mutex : Type :=
| vault_infos_mutex_
| update_mutex_.

(** The manager and its log of effects.  [held] lists the mutexes the
    running handler holds. *)
Record World : Type := mkWorld {
  vault_infos_ : list VaultInfo;
  update_interval_ : Z;             (* seconds *)
  local_port_ : Z;
  config_file_path_ : string;
  held : list Mutex;
  effects : list Effect
}.

Definition Mutex_eqb (a b : Mutex) : bool :=
  match a, b with
  | vault_infos_mutex_, vault_infos_mutex_ => true
  | update_mutex_, update_mutex_ => true
  | _, _ => false
  end.

(** ** The collaborators: results of calls whose code is elsewhere

    Message envelope ([detail::WrapMessage], [detail::UnwrapMessage]), key
    codec and signature check ([asymm]), path and digest helpers, the file
    system, the process manager and the arrival of the new vault's identity
    request within a wait. *)
Record Environment : Type := mkEnvironment {
  UnwrapMessage : string -> option (MessageType * string);
  WrapMessage : MessageType -> string -> string;
  ParseKeys : string -> Keys;
  SerialiseKeys : Keys -> option string;
  Validate : string -> string -> string -> bool;
  short_id : string -> string;       (* EncodeToBase32(Hash<SHA1>(identity)) *)
  parent_path : string -> string;
  lexical_cast : Z -> string;
  vault_executable : string;         (* kVaultName() + executable_extension() *)
  create_directories_ok : string -> bool;
  exists_file : string -> bool;
  copy_file_ok : string -> string -> bool;
  WriteFile_ok : string -> string -> bool;
  SetExecutablePath : string -> bool;
  AddProcess_index : list string -> Z -> Z;
  kInvalidIndex : Z;
  announces_within : Z -> Z -> bool  (* seconds, process index *)
}.

(** ** Handlers as computations on the world

    A handler runs to its end or blocks for good on a mutex. *)
Inductive Outcome (A : Type) : Type :=
| Returns (a : A) (w : World)
| Blocks (w : World).
Arguments Returns {A} a w.
Arguments Blocks {A} w.

Definition VM (A : Type) : Type := World -> Outcome A.

#[global] Instance VM_ret : MRet VM := fun A a w => Returns a w.
#[global] Instance VM_bind : MBind VM := fun A B f m w =>
  match m w with
  | Returns a w' => f a w'
  | Blocks w' => Blocks w'
  end.

Definition get_world : VM World := fun w => Returns w w.

Definition effect (e : Effect) : VM unit := fun w =>
  Returns tt (mkWorld (vault_infos_ w) (update_interval_ w) (local_port_ w)
                (config_file_path_ w) (held w) (effects w ++ [e])).

Definition set_vault_infos_ (l : list VaultInfo) : VM unit := fun w =>
  Returns tt (mkWorld l (update_interval_ w) (local_port_ w)
                (config_file_path_ w) (held w) (effects w)).

Definition set_update_interval_ (i : Z) : VM unit := fun w =>
  Returns tt (mkWorld (vault_infos_ w) i (local_port_ w)
                (config_file_path_ w) (held w) (effects w)).

Definition set_held (h : list Mutex) : VM unit := fun w =>
  Returns tt (mkWorld (vault_infos_ w) (update_interval_ w) (local_port_ w)
                (config_file_path_ w) h (effects w)).

(** [boost::filesystem::operator/]. *)
Definition path_join (dir name : string) : string := dir +:+ "/" +:+ name.

(** The messages handed to [transport_->Send] so far, with their ports. *)
Definition sent (w : World) : list (string * Z) :=
  omap (fun e => match e with Send data port => Some (data, port) | _ => None end)
       (effects w).

(** The processes handed to [process_manager_.StartProcess] so far. *)
Definition started (w : World) : list Z :=
  omap (fun e => match e with StartProcess index => Some index | _ => None end)
       (effects w).

(** What a vault is registered with: its record without the two flags
    [requested_to_run] and [vault_requested]. *)
Definition registration (v : VaultInfo)
  : Z * string * Keys * string * Z * Z * Z :=
  (process_index v, account_name v, keys v, chunkstore_path v,
   chunkstore_capacity v, client_port v, vault_port v).

Section Handlers.

Variable env : Environment.

(** Locking a [std::mutex] that the calling thread already holds is
    undefined; [relock_blocks] tells whether the call then never returns
    (the usual outcome) or goes through. *)
Variable relock_blocks : bool.

Context {Ping : Type} {pb_ping : Protobuf Ping}.
Context {pb_start_request : Protobuf StartVaultRequest}
        {pb_start_response : Protobuf StartVaultResponse}
        {pb_identity_request : Protobuf VaultIdentityRequest}
        {pb_identity_response : Protobuf VaultIdentityResponse}
        {pb_stop_request : Protobuf StopVaultRequest}
        {pb_stop_response : Protobuf StopVaultResponse}
        {pb_interval_request : Protobuf UpdateIntervalRequest}
        {pb_interval_response : Protobuf UpdateIntervalResponse}
        {pb_config : Protobuf VaultManagerConfig}.

(** [std::lock_guard<std::mutex> lock(m)] around the rest of its scope. *)
Definition lock_guard {A : Type} (m : Mutex) (scope : VM A) : VM A :=
  w ← get_world;
  if existsb (Mutex_eqb m) (held w) && relock_blocks then Blocks
  else
    set_held (m :: held w);;
    a ← scope;
    w' ← get_world;
    set_held (List.filter (fun m' => negb (Mutex_eqb m' m)) (held w'));;
    mret a.

(** [HandleBootstrapFile] of the unnamed namespace. *)
Definition HandleBootstrapFile (short_vault_id parent_dir : string)
  : VM bool :=
  let vault_bootstrap_path :=
    path_join parent_dir ("bootstrap-" +:+ short_vault_id +:+ ".dat") in
  effect (create_directories parent_dir);;
  if negb (create_directories_ok env parent_dir) then mret false
  else if negb (exists_file env vault_bootstrap_path) then
    (* Copy global bootstrap file *)
    effect (copy_file (path_join parent_dir "bootstrap-global.dat")
                      vault_bootstrap_path);;
    if negb (copy_file_ok env (path_join parent_dir "bootstrap-global.dat")
                          vault_bootstrap_path)
    then mret false else mret true
  else mret true.

(** [VaultInfo::ToProtobuf]. *)
Definition ToProtobuf (v : VaultInfo) : pb_VaultInfo :=
  {| pb_account_name := account_name v;
     pb_keys := default "" (SerialiseKeys env (keys v));
     pb_chunkstore_path := chunkstore_path v;
     pb_chunkstore_capacity := chunkstore_capacity v;
     pb_requested_to_run := requested_to_run v |}.

(** The bytes [WriteConfigFile] writes for a given manager state. *)
Definition config_bytes (interval : Z) (infos : list VaultInfo) : string :=
  SerializeToString
    {| config_update_interval := interval;
       config_vault_info := map ToProtobuf infos |}.

Definition WriteConfigFile : VM bool :=
  interval ← lock_guard update_mutex_
               (w ← get_world; mret (update_interval_ w));
  lock_guard vault_infos_mutex_
    (w ← get_world;
     let content := config_bytes interval (vault_infos_ w) in
     effect (WriteFile (config_file_path_ w) content);;
     if negb (WriteFile_ok env (config_file_path_ w) content)
     then mret false else mret true).

(** The command line [AddVaultToProcesses] gives a vault. *)
Definition vault_arguments (chunkstore_path : string)
    (chunkstore_capacity : Z) (bootstrap_endpoint : string) : list string :=
  (if negb (empty_string bootstrap_endpoint)
   then ["--peer"; bootstrap_endpoint] else []) ++
  ["--chunk_path"; chunkstore_path;
   "--chunk_capacity"; lexical_cast env chunkstore_capacity;
   "--start"].

Definition AddVaultToProcesses (chunkstore_path : string)
    (chunkstore_capacity : Z) (bootstrap_endpoint : string) : VM Z :=
  w ← get_world;
  if negb (SetExecutablePath env
             (path_join (parent_path env (config_file_path_ w))
                        (vault_executable env)))
  then mret (kInvalidIndex env)
  else
    let arguments :=
      vault_arguments chunkstore_path chunkstore_capacity
                      bootstrap_endpoint in
    effect (AddProcess arguments (local_port_ w));;
    mret (AddProcess_index env arguments (local_port_ w)).

(** [FindFromIdentity]: the first record with the identity, and where. *)
Definition FindFromIdentity (identity' : string) (infos : list VaultInfo)
  : option (nat * VaultInfo) :=
  list_find (fun v => identity (keys v) = identity') infos.

Definition StopVault (identity' : string) : VM unit :=
  lock_guard vault_infos_mutex_
    (w ← get_world;
     match FindFromIdentity identity' (vault_infos_ w) with
     | None => mret tt
     | Some (i, v) =>
       effect (StopProcess (process_index v));;
       set_vault_infos_ (<[ i := set_requested_to_run false v ]> (vault_infos_ w));;
       WriteConfigFile;;
       mret tt
     end).

Definition HandlePing (request response : string) : VM string :=
  match ParseProtobuf (T := Ping) request with
  | None => (* Silently drop *) mret response
  | Some ping => mret (WrapMessage env kPing request)
  end.

(** The wait of [HandleStartVaultRequest]: up to [seconds] for
    [vault_requested] of the record, which [HandleVaultIdentityRequest]
    sets on another thread. *)
Definition wait_for_vault_requested (seconds : Z) (index : Z) : VM bool :=
  effect (wait_for seconds index);;
  w ← get_world;
  if announces_within env seconds index then
    set_vault_infos_
      (map (fun v => if (process_index v =? index)%Z
                     then set_vault_requested true v else v)
           (vault_infos_ w));;
    mret true
  else mret false.

Definition HandleStartVaultRequest (request response : string) : VM string :=
  match ParseProtobuf (T := StartVaultRequest) request with
  | None => (* Silently drop *) mret response
  | Some start_vault_request =>
    let set_response (result : bool) : string :=
      WrapMessage env kStartVaultResponse
        (SerializeToString {| start_result := result |}) in
    w ← get_world;
    let keys' := ParseKeys env (start_keys start_vault_request) in
    let short_vault_id := short_id env (identity keys') in
    let chunkstore_path' :=
      path_join (parent_path env (config_file_path_ w)) short_vault_id in
    ok ← HandleBootstrapFile short_vault_id
           (parent_path env (config_file_path_ w));
    if negb (ok : bool) then mret (set_response false)
    else
      index ← AddVaultToProcesses chunkstore_path' 0
                (bootstrap_endpoint start_vault_request);
      if (index =? kInvalidIndex env)%Z then mret (set_response false)
      else
        let vault_info :=
          {| process_index := index;
             account_name := start_account_name start_vault_request;
             keys := keys';
             chunkstore_path := chunkstore_path';
             chunkstore_capacity := 0;
             client_port := 0;
             vault_port := 0;
             requested_to_run := false;
             vault_requested := false |} in
        effect (StartProcess index);;
        lock_guard vault_infos_mutex_
          (w' ← get_world;
           set_vault_infos_ (vault_infos_ w' ++ [vault_info]));;
        WriteConfigFile;;
        (* Block until the new vault has sent VaultIdentityRequest *)
        requested ← wait_for_vault_requested 3 index;
        if negb (requested : bool) then mret (set_response false)
        else mret (set_response true)
  end.

Definition HandleVaultIdentityRequest (request response : string)
  : VM string :=
  match ParseProtobuf (T := VaultIdentityRequest) request with
  | None => (* Silently drop *) mret response
  | Some vault_identity_request =>
    lock_guard vault_infos_mutex_
      (w ← get_world;
       let wrap (r : VaultIdentityResponse) : string :=
         WrapMessage env kVaultIdentityResponse (SerializeToString r) in
       match list_find
               (fun v => process_index v =
                         request_process_index vault_identity_request)
               (vault_infos_ w) with
       | None => mret (wrap (mkVaultIdentityResponse "" ""))
       | Some (i, v) =>
         match SerialiseKeys env (keys v) with
         | None => mret (wrap (mkVaultIdentityResponse "" ""))
         | Some serialised_keys =>
           (* Notify so that the waiting StartVaultResponse can be sent *)
           set_vault_infos_
             (<[ i := set_vault_requested true v ]> (vault_infos_ w));;
           effect (notify_one (process_index v));;
           mret (wrap (mkVaultIdentityResponse (account_name v)
                                               serialised_keys))
         end
       end)
  end.

Definition HandleStopVaultRequest (request response : string) : VM string :=
  match ParseProtobuf (T := StopVaultRequest) request with
  | None => (* Silently drop *) mret response
  | Some stop_vault_request =>
    lock_guard vault_infos_mutex_
      (w ← get_world;
       let result :=
         match FindFromIdentity (stop_identity stop_vault_request)
                                (vault_infos_ w) with
         | None => false
         | Some (_, v) =>
           if negb (Validate env (stop_data stop_vault_request)
                             (stop_signature stop_vault_request)
                             (public_key (keys v)))
           then false else true
         end in
       let response' :=
         WrapMessage env kVaultShutdownResponse
           (SerializeToString {| stop_result := result |}) in
       StopVault (stop_identity stop_vault_request);;
       effect notify_all;;
       mret response')
  end.

(** [kMinUpdateInterval] (5 minutes) and [kMaxUpdateInterval] (7 days), in
    seconds. *)
Definition kMinUpdateInterval : Z := 5 * 60.
Definition kMaxUpdateInterval : Z := 24 * 7 * 3600.

Definition SetUpdateInterval (interval : Z) : VM bool :=
  if (interval <? kMinUpdateInterval)%Z || (interval >? kMaxUpdateInterval)%Z
  then mret false
  else
    lock_guard update_mutex_
      (set_update_interval_ interval;;
       effect (update_timer_expires_from_now interval);;
       effect update_timer_async_wait;;
       mret true).

Definition GetUpdateInterval : VM Z :=
  lock_guard update_mutex_ (w ← get_world; mret (update_interval_ w)).

Definition HandleUpdateIntervalRequest (request response : string)
  : VM string :=
  match ParseProtobuf (T := UpdateIntervalRequest) request with
  | None => (* Silently drop *) mret response
  | Some update_interval_request =>
    let wrap (i : Z) : string :=
      WrapMessage env kUpdateIntervalResponse
        (SerializeToString {| update_interval := i |}) in
    match new_update_interval update_interval_request with
    | Some new_interval =>
      ok ← SetUpdateInterval new_interval;
      if (ok : bool) then i ← GetUpdateInterval; mret (wrap i)
      else mret (wrap 0%Z)
    | None => i ← GetUpdateInterval; mret (wrap i)
    end
  end.

Definition HandleReceivedMessage (message : string) (peer_port : Z)
  : VM unit :=
  match UnwrapMessage env message with
  | None => mret tt
  | Some (type, payload) =>
    let response := "" in
    let handled : option (VM string) :=
      match type with
      | kPing => Some (HandlePing payload response)
      | kStartVaultRequest => Some (HandleStartVaultRequest payload response)
      | kVaultIdentityRequest =>
        Some (HandleVaultIdentityRequest payload response)
      | kStopVaultRequest => Some (HandleStopVaultRequest payload response)
      | kUpdateIntervalRequest =>
        Some (HandleUpdateIntervalRequest payload response)
      | _ => None
      end in
    match handled with
    | None => (* Invalid message type *) mret tt
    | Some handler =>
      response' ← handler;
      effect (Send response' peer_port)
    end
  end.

(** A payload that does not parse as the request its tag announces. *)
Definition malformed (type : MessageType) (payload : string) : Prop :=
  match type with
  | kPing => ParseProtobuf (T := Ping) payload = None
  | kStartVaultRequest =>
    ParseProtobuf (T := StartVaultRequest) payload = None
  | kVaultIdentityRequest =>
    ParseProtobuf (T := VaultIdentityRequest) payload = None
  | kStopVaultRequest =>
    ParseProtobuf (T := StopVaultRequest) payload = None
  | kUpdateIntervalRequest =>
    ParseProtobuf (T := UpdateIntervalRequest) payload = None
  | _ => False
  end.

(** The record [HandleStartVaultRequest] builds for a request, given the
    index the process manager returned. *)
Definition new_vault_info (w : World) (request : StartVaultRequest)
    (index : Z) : VaultInfo :=
  let keys' := ParseKeys env (start_keys request) in
  {| process_index := index;
     account_name := start_account_name request;
     keys := keys';
     chunkstore_path :=
       path_join (parent_path env (config_file_path_ w))
                 (short_id env (identity keys'));
     chunkstore_capacity := 0;
     client_port := 0;
     vault_port := 0;
     requested_to_run := false;
     vault_requested := false |}.

(** The tags [HandleReceivedMessage] has a handler for. *)
Definition is_request (type : MessageType) : bool :=
  match type with
  | kPing | kStartVaultRequest | kVaultIdentityRequest | kStopVaultRequest
  | kUpdateIntervalRequest => true
  | _ => false
  end.

(** What every handler leaves as it found it, or only extends. *)
Definition steady (w w' : World) : Prop :=
  held w' = [] /\
  sent w' = sent w /\
  local_port_ w' = local_port_ w /\
  config_file_path_ w' = config_file_path_ w /\
  (kMinUpdateInterval <= update_interval_ w <= kMaxUpdateInterval ->
   kMinUpdateInterval <= update_interval_ w' <= kMaxUpdateInterval)%Z /\
  map registration (vault_infos_ w) `prefix_of`
    map registration (vault_infos_ w').

(** ** Reading the configuration back, listening, and finding versions

    [ReadFile] of the common library gives the content of a file it can
    read; [kConfigFileName] is the name of the configuration file. *)
Variable ReadFile : string -> option string.
Variable kConfigFileName : string.

Definition InTestMode (w : World) : bool :=
  String.eqb (config_file_path_ w) (path_join "." kConfigFileName).

(** [VaultInfo::VaultInfo]. *)
Definition VaultInfo_new : VaultInfo :=
  {| process_index := 0;
     account_name := "";
     keys := mkKeys "" "" "";
     chunkstore_path := "";
     chunkstore_capacity := 0;
     client_port := 0;
     vault_port := 0;
     requested_to_run := false;
     vault_requested := false |}.

(** [VaultInfo::FromProtobuf]: assigns five fields of the record. *)
Definition FromProtobuf (pb : pb_VaultInfo) (v : VaultInfo) : VaultInfo :=
  {| process_index := process_index v;
     account_name := pb_account_name pb;
     keys := ParseKeys env (pb_keys pb);
     chunkstore_path := pb_chunkstore_path pb;
     chunkstore_capacity := pb_chunkstore_capacity pb;
     client_port := client_port v;
     vault_port := vault_port v;
     requested_to_run := pb_requested_to_run pb;
     vault_requested := vault_requested v |}.

Definition set_process_index (index : Z) (v : VaultInfo) : VaultInfo :=
  {| process_index := index;
     account_name := account_name v;
     keys := keys v;
     chunkstore_path := chunkstore_path v;
     chunkstore_capacity := chunkstore_capacity v;
     client_port := client_port v;
     vault_port := vault_port v;
     requested_to_run := requested_to_run v;
     vault_requested := vault_requested v |}.

(** The loop of [ReadConfigFile] over the records of the file. *)
Fixpoint read_vault_infos (entries : list pb_VaultInfo) : VM unit :=
  match entries with
  | [] => mret tt
  | pb :: rest =>
    let vault_info := FromProtobuf pb VaultInfo_new in
    index ← AddVaultToProcesses (chunkstore_path vault_info)
              (chunkstore_capacity vault_info) "";
    if (index =? kInvalidIndex env)%Z then read_vault_infos rest
    else
      (if requested_to_run vault_info then effect (StartProcess index)
       else mret tt);;
      w ← get_world;
      set_vault_infos_
        (vault_infos_ w ++ [set_process_index index vault_info]);;
      read_vault_infos rest
  end.

(** [ReadConfigFile]; [ParseFromString] stands for the parse together with
    [IsInitialized]. *)
Definition ReadConfigFile : VM bool :=
  w ← get_world;
  match ReadFile (config_file_path_ w) with
  | None => mret false
  | Some content =>
    (* Handle first run with 1 byte config file in local dir *)
    if (String.length content =? 1)%nat && InTestMode w then mret true
    else
      match ParseProtobuf (T := VaultManagerConfig) content with
      | None => mret false
      | Some config =>
        set_update_interval_ (config_update_interval config);;
        read_vault_infos (config_vault_info config);;
        mret true
      end
  end.

(** The record [ReadConfigFile] makes of an entry of the file, if the
    process manager takes the vault. *)
Definition restored (w : World) (pb : pb_VaultInfo) : option VaultInfo :=
  let vault_info := FromProtobuf pb VaultInfo_new in
  let index :=
    AddProcess_index env
      (vault_arguments (chunkstore_path vault_info)
                       (chunkstore_capacity vault_info) "")
      (local_port_ w) in
  if (index =? kInvalidIndex env)%Z then None
  else Some (set_process_index index vault_info).

(** The fields of a record that the configuration file keeps. *)
Definition persisted (v : VaultInfo) : string * Keys * string * Z * bool :=
  (account_name v, keys v, chunkstore_path v, chunkstore_capacity v,
   requested_to_run v).

(** [transport_->StartListening(port) == kSuccess], and [kMaxPort]. *)
Variable StartListening_ok : Z -> bool.
Variable kMaxPort : Z.

(** [++local_port_] on the 16-bit [Port]. *)
Definition next_port (port : Z) : Z := (port + 1) mod 2 ^ 16.

(** The loop of [ListenForMessages] from [port]: the port it stops at, if
    it stops within [fuel] rounds. *)
Fixpoint listen (fuel : nat) (port : Z) : option Z :=
  match fuel with
  | O => None
  | S fuel' =>
    if StartListening_ok port then Some port
    else
      let port' := next_port port in
      if (port' >? kMaxPort)%Z then Some port' else listen fuel' port'
  end.

Definition ListenForMessages (fuel : nat) (w : World) : option World :=
  port ← listen fuel (local_port_ w);
  Some (mkWorld (vault_infos_ w) (update_interval_ w) port
          (config_file_path_ w) (held w) (effects w)).

(** [detail::TokeniseFileName] gives the application, the platform type and
    the version a file name stands for; [directory_stems] the stems of the
    entries of a directory, unless the iteration throws. *)
Context {PlatformType : Type}
        {PlatformType_eq_dec : EqDecision PlatformType}.
Variable TokeniseFileName : string -> option (string * PlatformType * Z).
Variable kThisPlatform : PlatformType.
Variable kInvalidVersion : Z.
Variable GenerateFileName : string -> PlatformType -> string -> string.
Variable directory_stems : string -> option (list string).

(** One round of the loop of [FindLatestLocalVersion] on
    [(latest_version, latest_file)]. *)
Definition latest_step (application : string) (latest : Z * string)
    (file_name : string) : Z * string :=
  match TokeniseFileName file_name with
  | Some (app, platform, version) =>
    if String.eqb app application &&
       bool_decide (platform = kThisPlatform) &&
       (version >? latest.1)%Z
    then (version, file_name) else latest
  | None => latest
  end.

Definition FindLatestLocalVersion (w : World) (application : string)
  : string :=
  let search_dir := parent_path env (config_file_path_ w) in
  let latest_file :=
    match directory_stems search_dir with
    | Some names =>
      (fold_left (latest_step application) names (kInvalidVersion, "")).2
    | None => (* latest_file.clear() *) ""
    end in
  if empty_string latest_file
  then GenerateFileName application kThisPlatform "0.00.00"
  else latest_file.

End Handlers.

End VaultManager.

(** * Concrete collaborators

    A length-prefixed codec and a keyed tag in place of protobuf and RSA, so
    that the handlers can be run on concrete chunks and messages. *)

Module Fixture.

Import ChunkActions.

(** A field on the wire: one byte of length, then the bytes. *)
Definition put (s : string) : string :=
  String (ascii_of_nat (String.length s)) s.

Fixpoint split_at (n : nat) (s : string) : option (string * string) :=
  match n with
  | O => Some ("", s)
  | S n' =>
    match s with
    | EmptyString => None
    | String c rest =>
      match split_at n' rest with
      | Some (field, rest') => Some (String c field, rest')
      | None => None
      end
    end
  end.

Definition get (s : string) : option (string * string) :=
  match s with
  | EmptyString => None
  | String c rest => split_at (nat_of_ascii c) rest
  end.

Definition parse_SignedData (s : string) : option SignedData :=
  match get s with
  | Some (d, rest) =>
    match get rest with
    | Some (sg, EmptyString) => Some (mkSignedData d sg)
    | _ => None
    end
  | None => None
  end.

Definition SignedData_pb : Protobuf SignedData :=
  {| ParseFromString := parse_SignedData;
     SerializeToString := fun sd => put (data sd) +:+ put (signature sd) |}.

Fixpoint parse_fields (fuel : nat) (s : string) : option (list SignedData) :=
  match s with
  | EmptyString => Some []
  | _ =>
    match fuel with
    | O => None
    | S fuel' =>
      match get s with
      | Some (field, rest) =>
        match parse_SignedData field, parse_fields fuel' rest with
        | Some sd, Some l => Some (sd :: l)
        | _, _ => None
        end
      | None => None
      end
    end
  end.

Definition AppendableByAll_pb : Protobuf AppendableByAll :=
  {| ParseFromString := fun s =>
       match parse_fields (String.length s) s with
       | Some (i :: a :: l) => Some (mkAppendableByAll i a l)
       | _ => None
       end;
     SerializeToString := fun c =>
       foldr (fun sd acc => put (SerializeToString (Protobuf := SignedData_pb) sd) +:+ acc)
             "" (identity_key c :: allow_others_to_append c :: appendices c) |}.

Definition ModifyAppendableByAll_pb : Protobuf ModifyAppendableByAll :=
  {| ParseFromString := fun s =>
       match parse_fields (String.length s) s with
       | Some [a; i] => Some (mkModifyAppendableByAll a i)
       | _ => None
       end;
     SerializeToString := fun m =>
       put (SerializeToString (Protobuf := SignedData_pb)
              (modify_allow_others_to_append m)) +:+
       put (SerializeToString (Protobuf := SignedData_pb)
              (modify_identity_key m)) |}.

(** Keys are names; the tag of [d] under key [k] is [k/d]. *)
Definition sign (k d : string) : SignedData :=
  mkSignedData d (k +:+ "/" +:+ d).

Definition Asymm_names : Asymm string :=
  {| ValidateKey := fun k => negb (empty_string k);
     CheckSignature := fun d sg k =>
       if negb (empty_string k) && String.eqb sg (k +:+ "/" +:+ d)
       then kSuccess else kGeneralError |}.

(** Alice's chunk: appends allowed, one appendix left by Bob. *)
Definition alice_chunk : AppendableByAll :=
  {| identity_key := sign "alice" "id";
     allow_others_to_append := sign "alice" (String (ascii_of_nat 1) "");
     appendices := [sign "bob" "hello"] |}.

(** The same chunk with appends refused. *)
Definition alice_closed_chunk : AppendableByAll :=
  {| identity_key := sign "alice" "id";
     allow_others_to_append := sign "alice" (String (ascii_of_nat 0) "");
     appendices := [] |}.

Definition store_with (c : AppendableByAll) : gmap string string :=
  {[ "chunk" := SerializeToString (Protobuf := AppendableByAll_pb) c ]}.

(** *** The supervisor's collaborators *)

Import VaultManager.

Fixpoint parse_strings (fuel : nat) (s : string) : option (list string) :=
  match s with
  | EmptyString => Some []
  | _ =>
    match fuel with
    | O => None
    | S fuel' =>
      match get s with
      | Some (field, rest) =>
        match parse_strings fuel' rest with
        | Some l => Some (field :: l)
        | None => None
        end
      | None => None
      end
    end
  end.

Definition fields (s : string) : option (list string) :=
  parse_strings (String.length s) s.

Definition put_all (l : list string) : string :=
  foldr (fun f acc => put f +:+ acc) "" l.

(** Numbers travel as four bytes, most significant first; flags as one
    character. *)
Definition put_number (z : Z) : string :=
  Transport.string_of_bytes (Transport.big_endian_4 z).
Definition get_number (s : string) : option Z :=
  match Transport.bytes_of_string s with
  | [a; b; c; d] => Some (((a * 256 + b) * 256 + c) * 256 + d)%Z
  | _ => None
  end.
Definition put_flag (b : bool) : string := if b then "1" else "0".
Definition get_flag (s : string) : option bool :=
  if String.eqb s "1" then Some true
  else if String.eqb s "0" then Some false else None.

Definition Ping_pb : Protobuf string :=
  {| ParseFromString := fun s =>
       match fields s with Some [p] => Some p | _ => None end;
     SerializeToString := fun p => put p |}.

Definition StartVaultRequest_pb : Protobuf StartVaultRequest :=
  {| ParseFromString := fun s =>
       match fields s with
       | Some [a; k; b] => Some (mkStartVaultRequest a k b)
       | _ => None
       end;
     SerializeToString := fun r =>
       put_all [start_account_name r; start_keys r; bootstrap_endpoint r] |}.

Definition StartVaultResponse_pb : Protobuf StartVaultResponse :=
  {| ParseFromString := fun s => mkStartVaultResponse <$> get_flag s;
     SerializeToString := fun r => put_flag (start_result r) |}.

Definition VaultIdentityRequest_pb : Protobuf VaultIdentityRequest :=
  {| ParseFromString := fun s => mkVaultIdentityRequest <$> get_number s;
     SerializeToString := fun r => put_number (request_process_index r) |}.

Definition VaultIdentityResponse_pb : Protobuf VaultIdentityResponse :=
  {| ParseFromString := fun s =>
       match fields s with
       | Some [a; k] => Some (mkVaultIdentityResponse a k)
       | _ => None
       end;
     SerializeToString := fun r =>
       put_all [response_account_name r; response_keys r] |}.

Definition StopVaultRequest_pb : Protobuf StopVaultRequest :=
  {| ParseFromString := fun s =>
       match fields s with
       | Some [i; d; sg] => Some (mkStopVaultRequest i d sg)
       | _ => None
       end;
     SerializeToString := fun r =>
       put_all [stop_identity r; stop_data r; stop_signature r] |}.

Definition StopVaultResponse_pb : Protobuf StopVaultResponse :=
  {| ParseFromString := fun s => mkStopVaultResponse <$> get_flag s;
     SerializeToString := fun r => put_flag (stop_result r) |}.

Definition UpdateIntervalRequest_pb : Protobuf UpdateIntervalRequest :=
  {| ParseFromString := fun s =>
       match s with
       | EmptyString => Some (mkUpdateIntervalRequest None)
       | _ => (fun i => mkUpdateIntervalRequest (Some i)) <$> get_number s
       end;
     SerializeToString := fun r =>
       match new_update_interval r with
       | Some i => put_number i
       | None => ""
       end |}.

Definition UpdateIntervalResponse_pb : Protobuf UpdateIntervalResponse :=
  {| ParseFromString := fun s => mkUpdateIntervalResponse <$> get_number s;
     SerializeToString := fun r => put_number (update_interval r) |}.

Definition parse_pb_VaultInfo (s : string) : option pb_VaultInfo :=
  match fields s with
  | Some [a; k; p; c; r] =>
    match get_number c, get_flag r with
    | Some c', Some r' => Some (mk_pb_VaultInfo a k p c' r')
    | _, _ => None
    end
  | _ => None
  end.

Definition VaultManagerConfig_pb : Protobuf VaultManagerConfig :=
  {| ParseFromString := fun s =>
       match fields s with
       | Some (i :: l) =>
         match get_number i, mapM parse_pb_VaultInfo l with
         | Some i', Some l' => Some (mkVaultManagerConfig i' l')
         | _, _ => None
         end
       | _ => None
       end;
     SerializeToString := fun c =>
       put_all
         (put_number (config_update_interval c) ::
          map (fun v =>
                 put_all [pb_account_name v; pb_keys v; pb_chunkstore_path v;
                          put_number (pb_chunkstore_capacity v);
                          put_flag (pb_requested_to_run v)])
              (config_vault_info c)) |}.

Definition tag_of (t : MessageType) : ascii :=
  match t with
  | kPing => "1"
  | kStartVaultRequest => "2"
  | kStartVaultResponse => "3"
  | kVaultIdentityRequest => "4"
  | kVaultIdentityResponse => "5"
  | kStopVaultRequest => "6"
  | kVaultShutdownResponse => "7"
  | kUpdateIntervalRequest => "8"
  | kUpdateIntervalResponse => "9"
  end%char.

Definition type_of (c : ascii) : option MessageType :=
  list_find (fun t => tag_of t = c)
    [kPing; kStartVaultRequest; kStartVaultResponse; kVaultIdentityRequest;
     kVaultIdentityResponse; kStopVaultRequest; kVaultShutdownResponse;
     kUpdateIntervalRequest; kUpdateIntervalResponse] ≫= fun p => Some p.2.

(** An environment in which every file operation succeeds, the process
    manager hands out index 7, and the new vault announces itself in time or
    not, as [announces] says. *)
Definition environment (announces : bool) : Environment :=
  {| UnwrapMessage := fun s =>
       match s with
       | String c payload => (fun t => (t, payload)) <$> type_of c
       | EmptyString => None
       end;
     WrapMessage := fun t payload => String (tag_of t) payload;
     ParseKeys := fun s =>
       match fields s with
       | Some [i; pk; sk] => mkKeys i pk sk
       | _ => mkKeys "" "" ""
       end;
     SerialiseKeys := fun k =>
       Some (put_all [identity k; public_key k; private_key k]);
     Validate := fun d sg pk => String.eqb sg (pk +:+ "/" +:+ d);
     short_id := fun i => i;
     parent_path := fun _ => "/var/vm";
     lexical_cast := fun z => if (z =? 0)%Z then "0" else "many";
     vault_executable := "vault";
     create_directories_ok := fun _ => true;
     exists_file := fun _ => true;
     copy_file_ok := fun _ _ => true;
     WriteFile_ok := fun _ _ => true;
     SetExecutablePath := fun _ => true;
     AddProcess_index := fun _ _ => 7%Z;
     kInvalidIndex := (-1)%Z;
     announces_within := fun _ _ => announces |}.

(** A manager that runs one vault. *)
Definition vault_one : VaultInfo :=
  {| process_index := 1;
     account_name := "ann";
     keys := mkKeys "id1" "pk1" "sk1";
     chunkstore_path := "/var/vm/id1";
     chunkstore_capacity := 0;
     client_port := 0;
     vault_port := 0;
     requested_to_run := true;
     vault_requested := true |}.

Definition manager : World :=
  {| vault_infos_ := [vault_one];
     update_interval_ := 86400;
     local_port_ := 5483;
     config_file_path_ := "/var/vm/config";
     held := [];
     effects := [] |}.

(** The same environment on a machine without the vault executable. *)
Definition environment_without_executable : Environment :=
  let e := environment false in
  {| UnwrapMessage := UnwrapMessage e;
     WrapMessage := WrapMessage e;
     ParseKeys := ParseKeys e;
     SerialiseKeys := SerialiseKeys e;
     Validate := Validate e;
     short_id := short_id e;
     parent_path := parent_path e;
     lexical_cast := lexical_cast e;
     vault_executable := vault_executable e;
     create_directories_ok := create_directories_ok e;
     exists_file := exists_file e;
     copy_file_ok := copy_file_ok e;
     WriteFile_ok := WriteFile_ok e;
     SetExecutablePath := fun _ => false;
     AddProcess_index := AddProcess_index e;
     kInvalidIndex := kInvalidIndex e;
     announces_within := announces_within e |}.

(** A manager that has not read its configuration yet, and a disk that
    holds the configuration written for [vault_one] with an interval of ten
    minutes. *)
Definition fresh_manager : World :=
  {| vault_infos_ := [];
     update_interval_ := 86400;
     local_port_ := 5483;
     config_file_path_ := "/var/vm/config";
     held := [];
     effects := [] |}.

Definition written_config : string :=
  config_bytes (environment false) (pb_config := VaultManagerConfig_pb)
    600 [vault_one].

Definition ReadFile (path : string) : option string :=
  if String.eqb path "/var/vm/config" then Some written_config else None.

(** Ports 5483 and 5484 are taken. *)
Definition StartListening_ok (port : Z) : bool := (5485 <=? port)%Z.

(** A directory with two versions of the vault for this platform, one for
    another platform and a client. *)
Definition TokeniseFileName (file_name : string)
  : option (string * bool * Z) :=
  if String.eqb file_name "vault_this_1" then Some ("vault", true, 1%Z)
  else if String.eqb file_name "vault_this_2" then Some ("vault", true, 2%Z)
  else if String.eqb file_name "vault_other_9" then Some ("vault", false, 9%Z)
  else if String.eqb file_name "client_this_5" then Some ("client", true, 5%Z)
  else None.

Definition GenerateFileName (application : string) (this_platform : bool)
    (version : string) : string :=
  application +:+ (if this_platform then "_this_" else "_other_") +:+ version.

Definition directory_stems (dir : string) : option (list string) :=
  if String.eqb dir "/var/vm"
  then Some ["vault_this_2"; "notes"; "vault_other_9"; "vault_this_1";
             "client_this_5"]
  else None.

End Fixture.

(** * Properties *)

Lemma empty_string_true s : empty_string s = true <-> s = "".
Proof. destruct s; simpl; split; congruence. Qed.

Lemma empty_string_false s : empty_string s = false <-> s <> "".
Proof. destruct s; simpl; split; congruence. Qed.

(** ** The appendable-by-all rules *)

Module ChunkActionsProperties.

Import ChunkActions.

(** The codec of the fixture reads back what it writes. *)
Example fixture_roundtrip :
  ParseProtobuf (pb := Fixture.AppendableByAll_pb)
    (SerializeToString (Protobuf := Fixture.AppendableByAll_pb)
       Fixture.alice_chunk) = Some Fixture.alice_chunk.
Proof. vm_compute. reflexivity. Qed.

Section Rules.

Context {PublicKey : Type} {asymm : Asymm PublicKey}.
Context {pb_signed : Protobuf SignedData}
        {pb_chunk : Protobuf AppendableByAll}
        {pb_modify : Protobuf ModifyAppendableByAll}.
Variable char_is_signed : bool.

(** The store hands a stored chunk's bytes to the handler. *)
Lemma cs_Get_stored store name c :
  stored store name c ->
  exists bytes, cs_Get name store = (bytes, store) /\
                empty_string bytes = false /\
                ParseProtobuf bytes = Some c.
Proof.
  intros (bytes & Hlook & Hne & Hparse). exists bytes.
  unfold cs_Get. rewrite Hlook. simpl.
  repeat split; [by apply empty_string_false | done].
Qed.

Lemma signature_ok_true (sd : SignedData) (K : PublicKey) :
  signature_ok sd K = true <->
  CheckSignature (data sd) (signature sd) K = kSuccess.
Proof. unfold signature_ok. apply bool_decide_eq_true. Qed.

Lemma signature_ok_false (sd : SignedData) (K : PublicKey) :
  signature_ok sd K = false <->
  CheckSignature (data sd) (signature sd) K <> kSuccess.
Proof. unfold signature_ok. apply bool_decide_eq_false. Qed.

(** Unfolds a handler applied to a store down to its first store call. *)
Ltac enter_handler h :=
  unfold h, mbind, CS_bind, mret, CS_ret.

(** Runs the common prefix of a handler on a stored chunk. *)
Ltac on_stored Hst :=
  destruct (cs_Get_stored _ _ _ Hst) as (?bytes & -> & -> & ->).

(** C1. For a stored chunk [C] and a valid public key [K], [ProcessGet]
    returns [kSuccess] and [C] serialised with its appendices cleared when
    [K] verifies the signature of [C.allow_others_to_append]; otherwise it
    returns [kNotOwner] and the serialised [C.identity_key] alone. *)
Theorem ProcessGet_owner_or_identity
    (store : gmap string string) (name version : string) (K : PublicKey)
    (C : AppendableByAll) :
  stored store name C ->
  ValidateKey K = true ->
  (CheckSignature (data (allow_others_to_append C))
                  (signature (allow_others_to_append C)) K = kSuccess ->
   (ProcessGet name version K store).1 =
     (kSuccess,
      SerializeToString
        {| identity_key := identity_key C;
           allow_others_to_append := allow_others_to_append C;
           appendices := [] |})) /\
  (CheckSignature (data (allow_others_to_append C))
                  (signature (allow_others_to_append C)) K <> kSuccess ->
   (ProcessGet name version K store).1 =
     (kNotOwner, SerializeToString (identity_key C))).
Proof.
  intros Hst Hvalid. enter_handler @ProcessGet. on_stored Hst.
  rewrite Hvalid. simpl. split; intros Hsig.
  - apply signature_ok_true in Hsig. by rewrite Hsig.
  - apply signature_ok_false in Hsig. by rewrite Hsig.
Qed.

(** The promoted first character equals the tag exactly when the byte is
    the tag's, whatever the signedness of [char]. *)
Lemma int_of_char_is_tag (c : ascii) :
  (int_of_char char_is_signed c =? kAppendableByAll)%Z = true <->
  c = tag_byte.
Proof.
  unfold int_of_char, tag_byte, kAppendableByAll.
  destruct char_is_signed;
    destruct c as [[] [] [] [] [] [] [] []]; vm_compute; split; congruence.
Qed.

(** C2. For a stored chunk and a valid key that is not the owner's: when
    the first byte of [allow_others_to_append.data] is the tag, a content
    that parses as a [SignedData] signed by the caller yields [kSuccess] and
    the chunk with that [SignedData] as one more, last appendix and nothing
    else changed; when the first byte is not the tag the result is
    [kAppendDisallowed]. *)
Theorem ProcessModify_other_appends
    (store : gmap string string) (name content version : string)
    (K : PublicKey) (E : AppendableByAll) :
  stored store name E ->
  ValidateKey K = true ->
  CheckSignature (data (allow_others_to_append E))
                 (signature (allow_others_to_append E)) K <> kSuccess ->
  (c_str_0 (data (allow_others_to_append E)) = tag_byte ->
   forall appendix : SignedData,
     ParseProtobuf content = Some appendix ->
     CheckSignature (data appendix) (signature appendix) K = kSuccess ->
     (ProcessModify char_is_signed name content version K store).1 =
       (kSuccess,
        SerializeToString
          {| identity_key := identity_key E;
             allow_others_to_append := allow_others_to_append E;
             appendices := appendices E ++ [appendix] |})) /\
  (c_str_0 (data (allow_others_to_append E)) <> tag_byte ->
   (ProcessModify char_is_signed name content version K store).1 =
     (kAppendDisallowed, "")).
Proof.
  intros Hst Hvalid Hother. apply signature_ok_false in Hother.
  enter_handler @ProcessModify. on_stored Hst.
  rewrite Hvalid, Hother. simpl. unfold modify_as_other. split.
  - intros Htag appendix Hparse Hsig.
    apply int_of_char_is_tag in Htag. rewrite Htag, Hparse.
    apply signature_ok_true in Hsig. by rewrite Hsig.
  - intros Htag.
    destruct (int_of_char char_is_signed _ =? kAppendableByAll)%Z eqn:Heq;
      [|done].
    by apply int_of_char_is_tag in Heq.
Qed.

(** C3. For an owner's [ProcessModify] of a stored chunk whose content
    parses as [ModifyAppendableByAll]: with neither or both of the two
    fields carrying data the result is [kInvalidModify]; with exactly one,
    correctly signed, the new body is the existing chunk with its appendices
    cleared when the field's data is the existing data, and the existing
    chunk with that field replaced and the appendices kept when it is
    not. *)
Theorem ProcessModify_owner
    (store : gmap string string) (name content version : string)
    (K : PublicKey) (E : AppendableByAll) (M : ModifyAppendableByAll) :
  stored store name E ->
  ValidateKey K = true ->
  CheckSignature (data (allow_others_to_append E))
                 (signature (allow_others_to_append E)) K = kSuccess ->
  ParseProtobuf content = Some M ->
  let result := (ProcessModify char_is_signed name content version K store).1 in
  let cleared :=
    SerializeToString
      {| identity_key := identity_key E;
         allow_others_to_append := allow_others_to_append E;
         appendices := [] |} in
  ((data (modify_allow_others_to_append M) = "" <->
    data (modify_identity_key M) = "") ->
   result = (kInvalidModify, "")) /\
  (data (modify_allow_others_to_append M) <> "" ->
   data (modify_identity_key M) = "" ->
   CheckSignature (data (modify_allow_others_to_append M))
                  (signature (modify_allow_others_to_append M)) K = kSuccess ->
   (data (modify_allow_others_to_append M) =
      data (allow_others_to_append E) ->
    result = (kSuccess, cleared)) /\
   (data (modify_allow_others_to_append M) <>
      data (allow_others_to_append E) ->
    result =
      (kSuccess,
       SerializeToString
         {| identity_key := identity_key E;
            allow_others_to_append := modify_allow_others_to_append M;
            appendices := appendices E |}))) /\
  (data (modify_allow_others_to_append M) = "" ->
   data (modify_identity_key M) <> "" ->
   CheckSignature (data (modify_identity_key M))
                  (signature (modify_identity_key M)) K = kSuccess ->
   (data (modify_identity_key M) = data (identity_key E) ->
    result = (kSuccess, cleared)) /\
   (data (modify_identity_key M) <> data (identity_key E) ->
    result =
      (kSuccess,
       SerializeToString
         {| identity_key := modify_identity_key M;
            allow_others_to_append := allow_others_to_append E;
            appendices := appendices E |}))).
Proof.
  intros Hst Hvalid Howner Hparse result cleared. subst result cleared.
  apply signature_ok_true in Howner.
  enter_handler @ProcessModify. on_stored Hst.
  rewrite Hvalid, Howner, Hparse. simpl. unfold modify_as_owner.
  destruct (empty_string (data (modify_allow_others_to_append M))) eqn:Ha;
    destruct (empty_string (data (modify_identity_key M))) eqn:Hi; simpl;
    repeat match goal with
    | Hx : empty_string _ = true |- _ => apply empty_string_true in Hx
    | Hx : empty_string _ = false |- _ => apply empty_string_false in Hx
    end.
  - repeat split; try congruence.
  - split; [intros [Hab _]; by specialize (Hab Ha) |].
    split; [congruence |].
    intros _ _ Hsig. apply signature_ok_true in Hsig. rewrite Hsig. simpl.
    split; intros Hd.
    + apply String.eqb_eq in Hd. by rewrite Hd.
    + apply String.eqb_neq in Hd. by rewrite Hd.
  - split; [intros [_ Hba]; by specialize (Hba Hi) |].
    split; [|congruence].
    intros _ _ Hsig. apply signature_ok_true in Hsig. rewrite Hsig. simpl.
    split; intros Hd.
    + apply String.eqb_eq in Hd. by rewrite Hd.
    + apply String.eqb_neq in Hd. by rewrite Hd.
  - repeat split; try congruence.
Qed.

(** C4, as the code has it. For an existing chunk, a valid key that
    verifies the chunk's [allow_others_to_append] signature, and an
    [ownership_proof] that does not parse as a [SignedData] or whose
    signature does not verify under the key, [ProcessDelete] returns
    [kNotOwner] and the store is the one it was given. *)
Theorem ProcessDelete_bad_proof
    (store : gmap string string) (name version ownership_proof : string)
    (K : PublicKey) (C : AppendableByAll) :
  stored store name C ->
  ValidateKey K = true ->
  CheckSignature (data (allow_others_to_append C))
                 (signature (allow_others_to_append C)) K = kSuccess ->
  (ParseProtobuf (T := SignedData) ownership_proof = None \/
   exists token : SignedData,
     ParseProtobuf ownership_proof = Some token /\
     CheckSignature (data token) (signature token) K <> kSuccess) ->
  ProcessDelete name version ownership_proof K store = (kNotOwner, store).
Proof.
  intros Hst Hvalid Howner Hproof. apply signature_ok_true in Howner.
  enter_handler @ProcessDelete. on_stored Hst.
  rewrite Hvalid, Howner. simpl.
  destruct Hproof as [-> | (token & -> & Hsig)]; [done |].
  apply signature_ok_false in Hsig. by rewrite Hsig.
Qed.

(** A key that is valid but does not verify the chunk's signature is turned
    away before the proof is looked at. *)
Lemma ProcessDelete_other_key
    (store : gmap string string) (name version ownership_proof : string)
    (K : PublicKey) (C : AppendableByAll) :
  stored store name C ->
  ValidateKey K = true ->
  CheckSignature (data (allow_others_to_append C))
                 (signature (allow_others_to_append C)) K <> kSuccess ->
  ProcessDelete name version ownership_proof K store =
    (kSignatureVerificationFailure, store).
Proof.
  intros Hst Hvalid Hother. apply signature_ok_false in Hother.
  enter_handler @ProcessDelete. on_stored Hst.
  by rewrite Hvalid, Hother.
Qed.

(** C10. None of the five handlers changes the chunk store: the store
    after [ProcessGet], [ProcessStore], [ProcessDelete], [ProcessModify] and
    [ProcessHas] is the store before, whatever the arguments and the
    outcome. *)
Theorem handlers_leave_store
    (store : gmap string string)
    (name version content ownership_proof : string) (K : PublicKey) :
  (ProcessGet name version K store).2 = store /\
  (ProcessStore name content K store).2 = store /\
  (ProcessDelete name version ownership_proof K store).2 = store /\
  (ProcessModify char_is_signed name content version K store).2 = store /\
  (ProcessHas name version K store).2 = store.
Proof.
  repeat split.
  - enter_handler @ProcessGet. unfold cs_Get.
    repeat (case_match; simpl; try done).
  - enter_handler @ProcessStore. unfold cs_Has.
    repeat (case_match; simpl; try done).
  - enter_handler @ProcessDelete. unfold cs_Get.
    repeat (case_match; simpl; try done).
  - enter_handler @ProcessModify. unfold cs_Get.
    repeat (case_match; simpl; try done).
  - enter_handler @ProcessHas. unfold cs_Has.
    repeat (case_match; simpl; try done).
Qed.

(** ** Further properties of the rules *)

(** What a successful [ProcessStore] has checked. *)
Lemma ProcessStore_success_inv
    (store : gmap string string) (name content : string) (K : PublicKey) :
  (ProcessStore name content K store).1 = kSuccess ->
  store !! name = None /\
  exists chunk : AppendableByAll,
    ParseProtobuf content = Some chunk /\
    ValidateKey K = true /\
    CheckSignature (data (allow_others_to_append chunk))
                   (signature (allow_others_to_append chunk)) K = kSuccess.
Proof.
  enter_handler @ProcessStore. unfold cs_Has.
  destruct (bool_decide (is_Some (store !! name))) eqn:Hhas; simpl;
    [discriminate |].
  apply bool_decide_eq_false in Hhas.
  assert (Hlook : store !! name = None)
    by (destruct (store !! name) eqn:E; [exfalso; eauto | done]).
  destruct (ParseProtobuf content) as [chunk |] eqn:Hparse; simpl;
    [| discriminate].
  destruct (ValidateKey K) eqn:Hvalid; simpl; [| discriminate].
  destruct (signature_ok (allow_others_to_append chunk) K) eqn:Hsig; simpl;
    [| discriminate].
  intros _. split; [done |]. exists chunk.
  split_and!; try done. by apply signature_ok_true.
Qed.

(** [ProcessStore] accepts exactly a new name with content that parses and
    whose [allow_others_to_append] is signed by a valid key of the caller. *)
Theorem ProcessStore_success_iff
    (store : gmap string string) (name content : string) (K : PublicKey) :
  (ProcessStore name content K store).1 = kSuccess <->
  store !! name = None /\
  exists chunk : AppendableByAll,
    ParseProtobuf content = Some chunk /\
    ValidateKey K = true /\
    CheckSignature (data (allow_others_to_append chunk))
                   (signature (allow_others_to_append chunk)) K = kSuccess.
Proof.
  split; [apply ProcessStore_success_inv |].
  intros (Hlook & chunk & Hparse & Hvalid & Hsig).
  apply signature_ok_true in Hsig.
  enter_handler @ProcessStore. unfold cs_Has. rewrite Hlook.
  rewrite bool_decide_eq_false_2 by (intros [? ?]; discriminate). simpl.
  by rewrite Hparse, Hvalid, Hsig.
Qed.

(** [ProcessStore] turns a name away as a duplicate exactly when
    [ProcessHas] finds it, whatever the content and the key. *)
Theorem ProcessStore_duplicate_iff_ProcessHas
    (store : gmap string string) (name content version : string)
    (K K' : PublicKey) :
  (ProcessStore name content K store).1 = kKeyNotUnique <->
  (ProcessHas name version K' store).1 = kSuccess.
Proof.
  enter_handler @ProcessStore. enter_handler @ProcessHas. unfold cs_Has.
  destruct (bool_decide (is_Some (store !! name))); simpl; [done |].
  split; [| discriminate].
  repeat (case_match; simpl; try discriminate).
Qed.

(** [ProcessDelete] succeeds exactly when there is nothing left to delete,
    or the caller's valid key verifies both the chunk's
    [allow_others_to_append] and the ownership proof. *)
Theorem ProcessDelete_success_iff
    (store : gmap string string) (name version ownership_proof : string)
    (K : PublicKey) :
  (ProcessDelete name version ownership_proof K store).1 = kSuccess <->
  default "" (store !! name) = "" \/
  exists (C : AppendableByAll) (token : SignedData),
    ParseProtobuf (default "" (store !! name)) = Some C /\
    ValidateKey K = true /\
    CheckSignature (data (allow_others_to_append C))
                   (signature (allow_others_to_append C)) K = kSuccess /\
    ParseProtobuf ownership_proof = Some token /\
    CheckSignature (data token) (signature token) K = kSuccess.
Proof.
  enter_handler @ProcessDelete. unfold cs_Get. simpl.
  destruct (empty_string (default "" (store !! name))) eqn:Hempty; simpl.
  - apply empty_string_true in Hempty. split; [by left | done].
  - apply empty_string_false in Hempty.
    destruct (ParseProtobuf (T := AppendableByAll) _) as [C |] eqn:HC; simpl.
    2: { split; [discriminate |].
         intros [? | (? & ? & ? & _)]; [done | discriminate]. }
    destruct (ValidateKey K) eqn:Hvalid; simpl.
    2: { split; [discriminate |].
         intros [? | (? & ? & _ & ? & _)]; [done | discriminate]. }
    destruct (signature_ok (allow_others_to_append C) K) eqn:Hown; simpl.
    2: { split; [discriminate |].
         intros [? | (C' & ? & HC' & _ & Hok & _)]; [done |].
         injection HC' as <-. apply signature_ok_true in Hok. congruence. }
    destruct (ParseProtobuf (T := SignedData) ownership_proof)
      as [token |] eqn:Htok; simpl.
    2: { split; [discriminate |].
         intros [? | (? & ? & _ & _ & _ & ? & _)]; [done | discriminate]. }
    destruct (signature_ok token K) eqn:Hsig; simpl.
    + split; [intros _ | done]. right. exists C, token.
      split_and!; try done; by apply signature_ok_true.
    + split; [discriminate |].
      intros [? | (? & token' & _ & _ & _ & Htok' & Hok)]; [done |].
      injection Htok' as <-. apply signature_ok_true in Hok. congruence.
Qed.

(** The output string of [ProcessGet] is empty unless the code is
    [kSuccess] or [kNotOwner], and that of [ProcessModify] unless the code is
    [kSuccess]: no bytes of the chunk leave with an error. *)
Theorem outputs_empty_on_error
    (store : gmap string string) (name content version : string)
    (K : PublicKey) :
  let got := (ProcessGet name version K store).1 in
  let modified :=
    (ProcessModify char_is_signed name content version K store).1 in
  (got.1 = kSuccess \/ got.1 = kNotOwner \/ got.2 = "") /\
  (modified.1 = kSuccess \/ modified.2 = "").
Proof.
  split.
  - enter_handler @ProcessGet. unfold cs_Get.
    repeat (case_match; simpl; auto).
  - enter_handler @ProcessModify. unfold cs_Get, modify_as_owner,
      modify_as_other.
    repeat (case_match; simpl; auto).
Qed.

(** A [ProcessModify] that succeeds was asked by a valid key, and the
    content carried a [SignedData] that verifies under that key: the one
    field an owner replaces, or the appendix somebody else adds. *)
Theorem ProcessModify_success_signed
    (store : gmap string string) (name content version : string)
    (K : PublicKey) :
  (ProcessModify char_is_signed name content version K store).1.1 = kSuccess ->
  ValidateKey K = true /\
  exists sd : SignedData,
    CheckSignature (data sd) (signature sd) K = kSuccess /\
    (ParseProtobuf content = Some sd \/
     exists M : ModifyAppendableByAll,
       ParseProtobuf content = Some M /\
       (sd = modify_allow_others_to_append M \/ sd = modify_identity_key M)).
Proof.
  enter_handler @ProcessModify. unfold cs_Get. simpl.
  destruct (empty_string _); simpl; [discriminate |].
  destruct (ParseProtobuf (T := AppendableByAll) _) as [E |]; simpl;
    [| discriminate].
  destruct (ValidateKey K); simpl; [| discriminate].
  destruct (signature_ok (allow_others_to_append E) K); simpl.
  - destruct (ParseProtobuf (T := ModifyAppendableByAll) content)
      as [M |] eqn:HM; simpl; [| discriminate].
    unfold modify_as_owner.
    destruct (empty_string (data (modify_allow_others_to_append M)));
      destruct (empty_string (data (modify_identity_key M))); simpl;
      try discriminate.
    + destruct (signature_ok (modify_identity_key M) K) eqn:Hsig; simpl;
        [| discriminate].
      intros _. split; [done |]. exists (modify_identity_key M).
      split; [by apply signature_ok_true | right; eauto].
    + destruct (signature_ok (modify_allow_others_to_append M) K) eqn:Hsig;
        simpl; [| discriminate].
      intros _. split; [done |]. exists (modify_allow_others_to_append M).
      split; [by apply signature_ok_true | right; eauto].
  - unfold modify_as_other.
    destruct (int_of_char _ _ =? _)%Z; simpl; [| discriminate].
    destruct (ParseProtobuf (T := SignedData) content) as [a |] eqn:Ha;
      simpl; [| discriminate].
    destruct (signature_ok a K) eqn:Hsig; simpl; [| discriminate].
    intros _. split; [done |]. exists a.
    split; [by apply signature_ok_true | by left].
Qed.

(** Where [IsValidChunk] is false, [ProcessGet] and [ProcessModify] fail to
    find the chunk and [ProcessDelete] reports success; where it is true,
    none of the three answers so for that reason. *)
Theorem IsValidChunk_false_iff
    (store : gmap string string) (name content version proof : string)
    (K : PublicKey) :
  ((IsValidChunk name store).1 = false <->
   (ProcessGet name version K store).1.1 = kFailedToFindChunk) /\
  ((IsValidChunk name store).1 = false <->
   (ProcessModify char_is_signed name content version K store).1.1 =
     kFailedToFindChunk) /\
  ((IsValidChunk name store).1 = true \/
   (ProcessDelete name version proof K store).1 = kSuccess).
Proof.
  enter_handler @IsValidChunk. enter_handler @ProcessGet.
  enter_handler @ProcessModify. enter_handler @ProcessDelete.
  unfold cs_Get. simpl.
  destruct (empty_string _); simpl.
  - split; [done |]. split; [done |]. by right.
  - split; [| split; [| by left]].
    + split; [discriminate |].
      repeat (case_match; simpl; try discriminate).
    + split; [discriminate |]. unfold modify_as_owner, modify_as_other.
      repeat (case_match; simpl; try discriminate).
Qed.

(** The key that stores a chunk owns it: once the content [ProcessStore]
    accepted is in the store, [ProcessGet] with that key returns [kSuccess]
    and the chunk without its appendices. *)
Theorem stored_by_owner
    (store store' : gmap string string) (name content version : string)
    (K : PublicKey) :
  (ProcessStore name content K store).1 = kSuccess ->
  content <> "" ->
  store' !! name = Some content ->
  exists chunk : AppendableByAll,
    ParseProtobuf content = Some chunk /\
    (ProcessGet name version K store').1 =
      (kSuccess,
       SerializeToString
         {| identity_key := identity_key chunk;
            allow_others_to_append := allow_others_to_append chunk;
            appendices := [] |}).
Proof.
  intros Hstore Hne Hlook.
  apply ProcessStore_success_inv in Hstore
    as (_ & chunk & Hparse & Hvalid & Hsig).
  exists chunk. split; [exact Hparse |].
  enter_handler @ProcessGet. unfold cs_Get. rewrite Hlook. simpl.
  rewrite (proj2 (empty_string_false content) Hne), Hparse, Hvalid. simpl.
  apply signature_ok_true in Hsig. by rewrite Hsig.
Qed.

(** Appendices stay out of sight: once the chunk a non-owner appended to is
    committed, [ProcessGet] answers every key exactly as it did before the
    append. *)
Theorem append_invisible_to_ProcessGet
    (store store' : gmap string string)
    (name content version version' : string) (K K' : PublicKey)
    (E : AppendableByAll) (appendix : SignedData) :
  let E' :=
    {| identity_key := identity_key E;
       allow_others_to_append := allow_others_to_append E;
       appendices := appendices E ++ [appendix] |} in
  stored store name E ->
  ValidateKey K = true ->
  CheckSignature (data (allow_others_to_append E))
                 (signature (allow_others_to_append E)) K <> kSuccess ->
  c_str_0 (data (allow_others_to_append E)) = tag_byte ->
  ParseProtobuf content = Some appendix ->
  CheckSignature (data appendix) (signature appendix) K = kSuccess ->
  ParseProtobuf (SerializeToString E') = Some E' ->
  SerializeToString E' <> "" ->
  store' !! name =
    Some (ProcessModify char_is_signed name content version K store).1.2 ->
  (ProcessGet name version' K' store').1 =
  (ProcessGet name version' K' store).1.
Proof.
  intros E' Hst Hvalid Hother Htag Hparse Hsig Hround Hne Hcommit.
  assert (Hnew : (ProcessModify char_is_signed name content version K
                    store).1.2 = SerializeToString E').
  { apply signature_ok_false in Hother. apply signature_ok_true in Hsig.
    apply int_of_char_is_tag in Htag.
    enter_handler @ProcessModify.
    destruct (cs_Get_stored _ _ _ Hst) as (bytes & -> & -> & ->).
    rewrite Hvalid, Hother. simpl. unfold modify_as_other.
    by rewrite Htag, Hparse, Hsig. }
  rewrite Hnew in Hcommit.
  assert (Hst' : stored store' name E') by (exists (SerializeToString E'); done).
  enter_handler @ProcessGet.
  destruct (cs_Get_stored _ _ _ Hst) as (bytes & -> & -> & ->).
  destruct (cs_Get_stored _ _ _ Hst') as (bytes' & -> & -> & ->).
  destruct (ValidateKey K'); simpl; [| done].
  subst E'. cbn [allow_others_to_append identity_key].
  by destruct (signature_ok (allow_others_to_append E) K').
Qed.

End Rules.

(** ** The handlers on Alice's chunk *)

Abbreviation Get := (ProcessGet (asymm := Fixture.Asymm_names)
                   (pb_signed := Fixture.SignedData_pb)
                   (pb_chunk := Fixture.AppendableByAll_pb)).
Abbreviation Modify := (ProcessModify (asymm := Fixture.Asymm_names)
                      (pb_signed := Fixture.SignedData_pb)
                      (pb_chunk := Fixture.AppendableByAll_pb)
                      (pb_modify := Fixture.ModifyAppendableByAll_pb)).
Abbreviation Delete := (ProcessDelete (asymm := Fixture.Asymm_names)
                      (pb_signed := Fixture.SignedData_pb)
                      (pb_chunk := Fixture.AppendableByAll_pb)).
Abbreviation serialise := (SerializeToString (Protobuf := Fixture.AppendableByAll_pb)).

Lemma alice_chunk_stored :
  stored (pb_chunk := Fixture.AppendableByAll_pb)
    (Fixture.store_with Fixture.alice_chunk) "chunk" Fixture.alice_chunk.
Proof.
  exists (serialise Fixture.alice_chunk). repeat split.
  vm_compute. discriminate.
Defined.

Lemma alice_closed_chunk_stored :
  stored (pb_chunk := Fixture.AppendableByAll_pb)
    (Fixture.store_with Fixture.alice_closed_chunk) "chunk"
    Fixture.alice_closed_chunk.
Proof.
  exists (serialise Fixture.alice_closed_chunk). repeat split.
  vm_compute. discriminate.
Defined.

Lemma ProcessGet_owner_or_identity_witness :
  let store := Fixture.store_with Fixture.alice_chunk in
  stored (pb_chunk := Fixture.AppendableByAll_pb) store "chunk"
    Fixture.alice_chunk /\
  ValidateKey (Asymm := Fixture.Asymm_names) "alice" = true /\
  ValidateKey (Asymm := Fixture.Asymm_names) "bob" = true /\
  (Get "chunk" "" "alice" store).1 =
    (kSuccess,
     serialise {| identity_key := Fixture.sign "alice" "id";
                  allow_others_to_append :=
                    Fixture.sign "alice" (String (ascii_of_nat 1) "");
                  appendices := [] |}) /\
  (Get "chunk" "" "bob" store).1 =
    (kNotOwner,
     SerializeToString (Protobuf := Fixture.SignedData_pb)
       (Fixture.sign "alice" "id")).
Proof.
  split_and!.
  - exact alice_chunk_stored.
  - reflexivity.
  - reflexivity.
  - apply (proj1 (ProcessGet_owner_or_identity (asymm := Fixture.Asymm_names)
                    _ "chunk" "" "alice" _ alice_chunk_stored eq_refl)).
    reflexivity.
  - apply (proj2 (ProcessGet_owner_or_identity (asymm := Fixture.Asymm_names)
                    _ "chunk" "" "bob" _ alice_chunk_stored eq_refl)).
    vm_compute. discriminate.
Defined.

Lemma ProcessModify_other_appends_witness :
  let open := Fixture.store_with Fixture.alice_chunk in
  let closed := Fixture.store_with Fixture.alice_closed_chunk in
  let appendix := Fixture.sign "carol" "hi" in
  let content := SerializeToString (Protobuf := Fixture.SignedData_pb) appendix in
  stored (pb_chunk := Fixture.AppendableByAll_pb) open "chunk"
    Fixture.alice_chunk /\
  ValidateKey (Asymm := Fixture.Asymm_names) "carol" = true /\
  CheckSignature (Asymm := Fixture.Asymm_names)
    (data (allow_others_to_append Fixture.alice_chunk))
    (signature (allow_others_to_append Fixture.alice_chunk)) "carol"
    <> kSuccess /\
  (Modify true "chunk" content "" "carol" open).1 =
    (kSuccess,
     serialise {| identity_key := Fixture.sign "alice" "id";
                  allow_others_to_append :=
                    Fixture.sign "alice" (String (ascii_of_nat 1) "");
                  appendices := [Fixture.sign "bob" "hello"; appendix] |}) /\
  (Modify true "chunk" content "" "carol" closed).1 = (kAppendDisallowed, "").
Proof.
  assert (Hother : forall d,
             CheckSignature (Asymm := Fixture.Asymm_names) d
               (signature (Fixture.sign "alice" d)) "carol" <> kSuccess)
    by (intros d; vm_compute; discriminate).
  split_and!.
  - exact alice_chunk_stored.
  - reflexivity.
  - apply Hother.
  - apply (proj1 (ProcessModify_other_appends (asymm := Fixture.Asymm_names)
                    true _ "chunk" _ "" "carol" _ alice_chunk_stored eq_refl
                    (Hother _)));
      reflexivity.
  - apply (proj2 (ProcessModify_other_appends (asymm := Fixture.Asymm_names)
                    true _ "chunk" _ "" "carol" _ alice_closed_chunk_stored
                    eq_refl (Hother _))).
    vm_compute. discriminate.
Defined.

Lemma ProcessModify_owner_witness :
  let store := Fixture.store_with Fixture.alice_chunk in
  let nothing := mkSignedData "" "" in
  let modify (m : ModifyAppendableByAll) :=
    (Modify true "chunk"
       (SerializeToString (Protobuf := Fixture.ModifyAppendableByAll_pb) m)
       "" "alice" store).1 in
  stored (pb_chunk := Fixture.AppendableByAll_pb) store "chunk"
    Fixture.alice_chunk /\
  ValidateKey (Asymm := Fixture.Asymm_names) "alice" = true /\
  modify (mkModifyAppendableByAll nothing nothing) = (kInvalidModify, "") /\
  modify (mkModifyAppendableByAll
            (Fixture.sign "alice" (String (ascii_of_nat 1) "")) nothing) =
    (kSuccess,
     serialise {| identity_key := Fixture.sign "alice" "id";
                  allow_others_to_append :=
                    Fixture.sign "alice" (String (ascii_of_nat 1) "");
                  appendices := [] |}) /\
  modify (mkModifyAppendableByAll nothing (Fixture.sign "alice" "id2")) =
    (kSuccess,
     serialise {| identity_key := Fixture.sign "alice" "id2";
                  allow_others_to_append :=
                    Fixture.sign "alice" (String (ascii_of_nat 1) "");
                  appendices := [Fixture.sign "bob" "hello"] |}).
Proof.
  intros store nothing modify. unfold modify, store.
  pose (apply_to := fun m : ModifyAppendableByAll =>
    ProcessModify_owner (asymm := Fixture.Asymm_names)
      (pb_signed := Fixture.SignedData_pb)
      (pb_modify := Fixture.ModifyAppendableByAll_pb)
      true _ "chunk"
      (SerializeToString (Protobuf := Fixture.ModifyAppendableByAll_pb) m)
      "" "alice" _ m alice_chunk_stored eq_refl eq_refl).
  split_and!.
  - exact alice_chunk_stored.
  - reflexivity.
  - pose proof (apply_to (mkModifyAppendableByAll nothing nothing) eq_refl)
      as T.
    cbv zeta in T. destruct T as (T & _ & _). apply T. done.
  - pose proof (apply_to (mkModifyAppendableByAll
                            (Fixture.sign "alice" (String (ascii_of_nat 1) ""))
                            nothing) eq_refl) as T.
    cbv zeta in T. destruct T as (_ & T & _).
    apply (proj1 (T ltac:(discriminate) eq_refl eq_refl)). reflexivity.
  - pose proof (apply_to (mkModifyAppendableByAll nothing
                            (Fixture.sign "alice" "id2")) eq_refl) as T.
    cbv zeta in T. destruct T as (_ & _ & T).
    apply (proj2 (T eq_refl ltac:(discriminate) eq_refl)). discriminate.
Defined.

Lemma ProcessDelete_bad_proof_witness :
  let store := Fixture.store_with Fixture.alice_chunk in
  stored (pb_chunk := Fixture.AppendableByAll_pb) store "chunk"
    Fixture.alice_chunk /\
  ValidateKey (Asymm := Fixture.Asymm_names) "alice" = true /\
  ParseProtobuf (pb := Fixture.SignedData_pb) "junk" = None /\
  Delete "chunk" "" "junk" "alice" store = (kNotOwner, store).
Proof.
  split_and!.
  - exact alice_chunk_stored.
  - reflexivity.
  - reflexivity.
  - apply (ProcessDelete_bad_proof (asymm := Fixture.Asymm_names)
             _ "chunk" "" "junk" "alice" _ alice_chunk_stored eq_refl eq_refl).
    left. reflexivity.
Defined.

(** C4, as stated, at Mallory's key. The chunk exists and the proof does not
    parse, but the key does not verify the chunk's signature: the code is
    [kSignatureVerificationFailure], not [kNotOwner]. *)
Lemma ProcessDelete_any_key_counterexample :
  let store := Fixture.store_with Fixture.alice_chunk in
  stored (pb_chunk := Fixture.AppendableByAll_pb) store "chunk"
    Fixture.alice_chunk /\
  ParseProtobuf (pb := Fixture.SignedData_pb) "junk" = None /\
  (Delete "chunk" "" "junk" "mallory" store).1 =
    kSignatureVerificationFailure /\
  (Delete "chunk" "" "junk" "mallory" store).1 <> kNotOwner.
Proof.
  split_and!.
  - exact alice_chunk_stored.
  - reflexivity.
  - vm_compute. reflexivity.
  - vm_compute. discriminate.
Qed.

Abbreviation Store := (ProcessStore (asymm := Fixture.Asymm_names)
                         (pb_chunk := Fixture.AppendableByAll_pb)).

Lemma ProcessModify_success_signed_witness :
  let store := Fixture.store_with Fixture.alice_chunk in
  let appendix := Fixture.sign "carol" "hi" in
  let content := SerializeToString (Protobuf := Fixture.SignedData_pb) appendix in
  (Modify true "chunk" content "" "carol" store).1.1 = kSuccess /\
  ValidateKey (Asymm := Fixture.Asymm_names) "carol" = true /\
  exists sd : SignedData,
    CheckSignature (Asymm := Fixture.Asymm_names) (data sd) (signature sd)
      "carol" = kSuccess /\
    (ParseProtobuf (pb := Fixture.SignedData_pb) content = Some sd \/
     exists M : ModifyAppendableByAll,
       ParseProtobuf (pb := Fixture.ModifyAppendableByAll_pb) content = Some M /\
       (sd = modify_allow_others_to_append M \/ sd = modify_identity_key M)).
Proof.
  intros store appendix content.
  assert (Hrun : (Modify true "chunk" content "" "carol" store).1.1 = kSuccess)
    by reflexivity.
  split; [exact Hrun |].
  exact (ProcessModify_success_signed (asymm := Fixture.Asymm_names)
           (pb_signed := Fixture.SignedData_pb)
           (pb_chunk := Fixture.AppendableByAll_pb)
           (pb_modify := Fixture.ModifyAppendableByAll_pb)
           true store "chunk" content "" "carol" Hrun).
Defined.

Lemma stored_by_owner_witness :
  let content := serialise Fixture.alice_chunk in
  let store' : gmap string string := {[ "chunk" := content ]} in
  (Store "chunk" content "alice" ∅).1 = kSuccess /\
  content <> "" /\
  store' !! "chunk" = Some content /\
  exists chunk : AppendableByAll,
    ParseProtobuf (pb := Fixture.AppendableByAll_pb) content = Some chunk /\
    (Get "chunk" "" "alice" store').1 =
      (kSuccess,
       serialise {| identity_key := identity_key chunk;
                    allow_others_to_append := allow_others_to_append chunk;
                    appendices := [] |}).
Proof.
  intros content store'.
  assert (Hstore : (Store "chunk" content "alice" ∅).1 = kSuccess)
    by reflexivity.
  assert (Hne : content <> "") by (vm_compute; discriminate).
  split_and!.
  - exact Hstore.
  - exact Hne.
  - reflexivity.
  - exact (stored_by_owner (asymm := Fixture.Asymm_names)
             (pb_signed := Fixture.SignedData_pb)
             (pb_chunk := Fixture.AppendableByAll_pb)
             ∅ store' "chunk" content "" "alice" Hstore Hne eq_refl).
Defined.

Lemma append_invisible_to_ProcessGet_witness :
  let store := Fixture.store_with Fixture.alice_chunk in
  let appendix := Fixture.sign "carol" "hi" in
  let content := SerializeToString (Protobuf := Fixture.SignedData_pb) appendix in
  let store' : gmap string string :=
    {[ "chunk" := (Modify true "chunk" content "" "carol" store).1.2 ]} in
  stored (pb_chunk := Fixture.AppendableByAll_pb) store "chunk"
    Fixture.alice_chunk /\
  ValidateKey (Asymm := Fixture.Asymm_names) "carol" = true /\
  c_str_0 (data (allow_others_to_append Fixture.alice_chunk)) = tag_byte /\
  ParseProtobuf (pb := Fixture.SignedData_pb) content = Some appendix /\
  (Get "chunk" "" "alice" store').1 = (Get "chunk" "" "alice" store).1 /\
  (Get "chunk" "" "dave" store').1 = (Get "chunk" "" "dave" store).1.
Proof.
  intros store appendix content store'.
  pose (run := fun K' : string =>
    append_invisible_to_ProcessGet (asymm := Fixture.Asymm_names)
      (pb_signed := Fixture.SignedData_pb)
      (pb_chunk := Fixture.AppendableByAll_pb)
      (pb_modify := Fixture.ModifyAppendableByAll_pb)
      true store store' "chunk" content "" "" "carol" K'
      Fixture.alice_chunk appendix alice_chunk_stored eq_refl
      ltac:(vm_compute; discriminate) eq_refl eq_refl eq_refl eq_refl
      ltac:(vm_compute; discriminate) eq_refl).
  split_and!.
  - exact alice_chunk_stored.
  - reflexivity.
  - reflexivity.
  - reflexivity.
  - exact (run "alice").
  - exact (run "dave").
Defined.

End ChunkActionsProperties.

(** ** The framed transport *)

Module TransportProperties.

Import Transport.
Local Open Scope Z_scope.

(** ** Arithmetic of the size prefix *)

Lemma wrap_DataSize_small (n : Z) : 0 <= n < 2 ^ 31 -> wrap_DataSize n = n.
Proof. intros Hn. unfold wrap_DataSize. rewrite Z.mod_small; lia. Qed.

Lemma wrap_size_t_small (n : Z) : 0 <= n < 2 ^ 64 -> wrap_size_t n = n.
Proof. intros Hn. unfold wrap_size_t. by rewrite Z.mod_small. Qed.

Lemma low_byte_shiftr (n k : Z) :
  0 <= k -> low_byte (Z.shiftr n k) = (n / 2 ^ k) mod 256.
Proof.
  intros Hk. unfold low_byte. change 255 with (Z.ones 8).
  rewrite Z.land_ones by lia. by rewrite Z.shiftr_div_pow2.
Qed.

Lemma wrap_size_t_DataSize (n : Z) : 0 <= n < 2 ^ 31 -> wrap_size_t n = n.
Proof.
  intros Hn. apply wrap_size_t_small.
  assert (2 ^ 31 < 2 ^ 64) by reflexivity. lia.
Qed.

(** Or-ing a byte into the low end of a shifted value adds it. *)
Lemma lor_shiftl_byte (x b : Z) :
  0 <= x -> 0 <= b < 256 -> Z.lor (Z.shiftl x 8) b = x * 256 + b.
Proof.
  intros Hx Hb.
  assert (Hdisj : Z.land (Z.shiftl x 8) b = 0).
  { apply Z.bits_inj'. intros i Hi. rewrite Z.land_spec, Z.bits_0.
    destruct (Z.lt_ge_cases i 8) as [Hlow | Hhigh].
    - rewrite Z.shiftl_spec_low by lia. reflexivity.
    - rewrite (Z.bits_above_log2 b i), andb_false_r; [reflexivity | lia |].
      destruct (Z.eq_dec b 0) as [-> | Hnz]; [simpl; lia |].
      apply Z.log2_lt_pow2; [lia |].
      apply Z.lt_le_trans with (2 ^ 8); [lia |].
      apply Z.pow_le_mono_r; lia. }
  rewrite <- Z.lxor_lor, <- Z.add_nocarry_lxor by exact Hdisj.
  rewrite Z.shiftl_mul_pow2 by lia. reflexivity.
Qed.

Lemma big_endian_4_bytes (n : Z) :
  Forall (fun b => 0 <= b < 256) (big_endian_4 n).
Proof.
  unfold big_endian_4. repeat constructor; apply Z.mod_pos_bound; lia.
Qed.

(** The decoding expression of [HandleReadSize] undoes the encoding. *)
Lemma read_size_big_endian_4 (n : Z) :
  0 <= n < 2 ^ 31 -> read_size (big_endian_4 n) = n.
Proof.
  intros Hn. unfold read_size, big_endian_4, at_. simpl.
  assert (H0 : 0 <= (n / 2 ^ 24) mod 256 < 256) by (apply Z.mod_pos_bound; lia).
  assert (H1 : 0 <= (n / 2 ^ 16) mod 256 < 256) by (apply Z.mod_pos_bound; lia).
  assert (H2 : 0 <= (n / 2 ^ 8) mod 256 < 256) by (apply Z.mod_pos_bound; lia).
  assert (H3 : 0 <= n mod 256 < 256) by (apply Z.mod_pos_bound; lia).
  rewrite (lor_shiftl_byte ((n / 2 ^ 24) mod 256)) by lia.
  rewrite (lor_shiftl_byte ((n / 2 ^ 24) mod 256 * 256 + _)) by lia.
  rewrite (lor_shiftl_byte (_ * 256 + _)) by lia.
  change (2 ^ 24) with 16777216 in *. change (2 ^ 16) with 65536 in *.
  change (2 ^ 8) with 256 in *. change (2 ^ 31) with 2147483648 in *.
  assert (Hsum : (((n / 16777216) mod 256 * 256 + (n / 65536) mod 256) * 256 +
                  (n / 256) mod 256) * 256 + n mod 256 = n)
    by (Z.div_mod_to_equations; lia).
  rewrite Hsum. apply wrap_DataSize_small. lia.
Qed.

(** ** Bytes and characters *)

Lemma char_of_byte_of_char (c : ascii) : char_of_byte (byte_of_char c) = c.
Proof.
  unfold char_of_byte, byte_of_char. rewrite N2Z.id. apply ascii_N_embedding.
Qed.

Lemma string_of_bytes_of_string (s : string) :
  string_of_bytes (bytes_of_string s) = s.
Proof.
  unfold string_of_bytes, bytes_of_string.
  rewrite map_map, (map_ext _ id), map_id by apply char_of_byte_of_char.
  apply string_of_list_ascii_of_string.
Qed.

Lemma length_bytes_of_string (s : string) :
  List.length (bytes_of_string s) = String.length s.
Proof.
  unfold bytes_of_string. rewrite length_map.
  induction s as [| c s IH]; simpl; congruence.
Qed.

Section Connection.

Variable kMaxTransportMessageSize : Z.
Variable kMaxTransportChunkSize : Z.
Variable kDefaultInitialTimeout : Z.
Variable kStallTimeout : Z.
Variable kMinTimeout : Z.
Variable kImmediateTimeout : Z.
Variable scaled_size : Z -> Z.

(** [EncodeData] writes the big-endian size and the payload. *)
Lemma EncodeData_buffers (data : string) (c : TcpConnection) :
  Z.of_nat (String.length data) < 2 ^ 31 ->
  List.length (size_buffer_ c) = 4%nat ->
  EncodeData data c =
    (set_data_buffer_ (bytes_of_string data)
       (set_size_buffer_ (big_endian_4 (Z.of_nat (String.length data))) c),
     []).
Proof.
  intros Hsize Hlen. unfold EncodeData, andthen, update.
  rewrite wrap_DataSize_small by lia.
  destruct (size_buffer_ c) as [| b0 [| b1 [| b2 [| b3 [| ? ?]]]]];
    try discriminate Hlen.
  cbn [foldl]. cbn [insert list_insert]. cbn [app].
  rewrite !low_byte_shiftr by lia.
  change (8 * (3 - Z.of_nat 0)) with 24. change (8 * (3 - Z.of_nat 1)) with 16.
  change (8 * (3 - Z.of_nat 2)) with 8. change (8 * (3 - Z.of_nat 3)) with 0.
  rewrite Z.pow_0_r, Z.div_1_r. reflexivity.
Qed.

(** *** One inbound frame *)

Variable now : Z.
Hypothesis chunk_range : 0 < kMaxTransportChunkSize < 2 ^ 31.
Hypothesis stall_positive : 0 < kStallTimeout.

(** After a completed read the buffer holds the payload up to the bytes
    just read. *)
Lemma fill_data_buffer_prefix bs k c :
  (k <= List.length bs)%nat -> Z.of_nat (List.length bs) < 2 ^ 31 ->
  receiving kMaxTransportChunkSize now bs k c ->
  let m := Z.min kMaxTransportChunkSize (Z.of_nat (List.length bs) - Z.of_nat k) in
  data_buffer_ (fill_data_buffer (take (Z.to_nat m) (drop k bs)) c) =
    take (k + Z.to_nat m) bs.
Proof.
  intros Hk Hn (Hsock & _ & _ & Hsize & Hrecv & Hpre & Hlen) m.
  unfold fill_data_buffer. simpl. rewrite Hrecv, Nat2Z.id.
  rewrite Hpre. rewrite length_take, length_drop.
  rewrite (drop_ge (data_buffer_ c)) by lia.
  rewrite app_nil_r. rewrite take_drop_commute.
  rewrite <- (take_drop k (take (k + Z.to_nat m) bs)) at 2.
  rewrite take_take. f_equal. f_equal. lia. 
Qed.

(** The timer set by [StartReadSize] and [StartReadData] has not expired
    at [now]. *)
Lemma ptime_min_later D :
  now < D -> ptime_le (ptime_min (at_time D) (at_time (now + kStallTimeout)))
                      (at_time now) = false.
Proof.
  intros HD. unfold ptime_min, ptime_le.
  destruct (D <=? now + kStallTimeout) eqn:E; apply Z.leb_gt; lia.
Qed.

(** One completed data read: the last one posts [DispatchMessage] with
    the payload in the buffer, any other asks for the next chunk. *)
Lemma HandleReadData_step bs k c :
  (k <= List.length bs)%nat -> Z.of_nat (List.length bs) < 2 ^ 31 ->
  receiving kMaxTransportChunkSize now bs k c ->
  let n := Z.of_nat (List.length bs) in
  let m := Z.min kMaxTransportChunkSize (n - Z.of_nat k) in
  let c1 := fill_data_buffer (take (Z.to_nat m) (drop k bs)) c in
  (Z.of_nat k + m = n ->
   exists c', HandleReadData kMaxTransportChunkSize kStallTimeout no_error m now c1 =
                (c', [async_wait; post_DispatchMessage]) /\
              data_buffer_ c' = bs) /\
  (Z.of_nat k + m < n ->
   exists c', HandleReadData kMaxTransportChunkSize kStallTimeout no_error m now c1 =
                (c', [async_wait;
                      async_read_data
                        (Z.min kMaxTransportChunkSize (n - (Z.of_nat k + m)))]) /\
              receiving kMaxTransportChunkSize now bs (k + Z.to_nat m) c').
Proof.
  intros Hk Hn Hrecv n m c1.
  assert (Hbuf : data_buffer_ c1 = take (k + Z.to_nat m) bs)
    by exact (fill_data_buffer_prefix bs k c Hk Hn Hrecv).
  destruct Hrecv as (Hsock & (D & Hdead & HD) & Htimer & Hsize & Hrcv & Hpre & Hlen).
  assert (Hsock1 : socket_ c1 = true) by exact Hsock.
  assert (Htimer1 : timer_ c1 = timer_ c) by reflexivity.
  assert (Hsize1 : data_size_ c1 = n) by exact Hsize.
  assert (Hrcv1 : data_received_ c1 = Z.of_nat k) by exact Hrcv.
  assert (Hdead1 : response_deadline_ c1 = at_time D) by exact Hdead.
  assert (Hn' : n = Z.of_nat (List.length bs)) by reflexivity.
  assert (Hm : m = Z.min kMaxTransportChunkSize (n - Z.of_nat k))
    by reflexivity.
  clearbody c1 m n.
  unfold HandleReadData, andthen, CheckTimeout.
  rewrite Hsock1, Htimer1, Htimer. cbn [negb emit]. rewrite Hsock1. cbn [negb].
  unfold StartReadData, andthen, update, emit.
  cbn [data_received_ set_data_received_ data_size_ data_buffer_
       set_data_buffer_ response_deadline_ set_timer_ app].
  rewrite !Hrcv1, !Hsize1, !Hdead1.
  rewrite !(wrap_size_t_DataSize (Z.of_nat k + m)) by lia.
  rewrite (wrap_size_t_DataSize kMaxTransportChunkSize) by lia.
  split; intros Hkm.
  - destruct (Z.eqb_spec (Z.of_nat k + m) n) as [_ | Hne]; [| lia].
    eexists. split; [reflexivity |].
    cbn [data_buffer_ set_timer_ set_data_received_].
    rewrite Hbuf. apply take_ge. lia.
  - destruct (Z.eqb_spec (Z.of_nat k + m) n) as [Heq | _]; [lia |].
    rewrite !(wrap_size_t_DataSize (n - _)) by lia.
    rewrite !(wrap_size_t_DataSize (_ + _)) by lia.
    eexists. split.
    + f_equal. f_equal. f_equal. f_equal. lia.
    + unfold receiving.
      cbn [socket_ response_deadline_ timer_ data_size_ data_received_
           data_buffer_ set_timer_ set_data_buffer_ set_data_received_].
      split_and!.
      * done.
      * by exists D.
      * by apply ptime_min_later.
      * congruence.
      * lia.
      * rewrite Hbuf. rewrite take_resize_le by lia.
        rewrite resize_all_alt; [reflexivity |].
        rewrite length_take. lia.
      * rewrite length_resize. lia.
Qed.

(** With more fuel than bytes left, the read loop ends in
    [DispatchMessage] with the whole payload. *)
Lemma read_data_loop_delivers bs :
  Z.of_nat (List.length bs) < 2 ^ 31 ->
  forall fuel k c,
    (k <= List.length bs)%nat ->
    (List.length bs - k < fuel)%nat ->
    receiving kMaxTransportChunkSize now bs k c ->
    exists c' ev,
      read_data_loop kMaxTransportChunkSize kStallTimeout fuel now (drop k bs)
        (Z.min kMaxTransportChunkSize
               (Z.of_nat (List.length bs) - Z.of_nat k)) c = Some (c', ev) /\
      post_DispatchMessage ∈ ev /\ data_buffer_ c' = bs.
Proof.
  intros Hn fuel. induction fuel as [| fuel IH]; intros k c Hk Hfuel Hrecv;
    [lia |].
  destruct (HandleReadData_step bs k c Hk Hn Hrecv) as [Hlast Hmore].
  cbv zeta in Hlast, Hmore.
  set (m := Z.min kMaxTransportChunkSize
                  (Z.of_nat (List.length bs) - Z.of_nat k)) in *.
  assert (Hm : 0 <= m <= Z.of_nat (List.length bs) - Z.of_nat k)
    by (unfold m; lia).
  cbn [read_data_loop]. rewrite length_drop.
  destruct (Z.ltb_spec (Z.of_nat (List.length bs - k)) m) as [Hshort | _];
    [lia |].
  destruct (Z.eq_dec (Z.of_nat k + m) (Z.of_nat (List.length bs)))
    as [Hdone | Hnot].
  - destruct (Hlast Hdone) as (c' & -> & Hbuf).
    exists c', [async_wait; post_DispatchMessage]. cbn [pending_read_data].
    split_and!; [reflexivity | repeat constructor | exact Hbuf].
  - destruct (Hmore ltac:(lia)) as (c' & -> & Hrecv').
    cbn [pending_read_data]. rewrite drop_drop.
    assert (Hpos : 0 < m) by (unfold m in *; lia).
    destruct (IH (k + Z.to_nat m)%nat c' ltac:(lia) ltac:(lia) Hrecv')
      as (c'' & ev & Hloop & Hin & Hbuf).
    exists c'', ev. split_and!; [| exact Hin | exact Hbuf].
    rewrite <- Hloop. f_equal. lia.
Qed.

(** [HandleReadSize] on the size prefix of a payload starts the first data
    read. *)
Lemma HandleReadSize_step bs c D :
  Z.of_nat (List.length bs) < 2 ^ 31 ->
  socket_ c = true ->
  ptime_le (timer_ c) (at_time now) = false ->
  response_deadline_ c = at_time D -> now < D ->
  size_buffer_ c = big_endian_4 (Z.of_nat (List.length bs)) ->
  exists c',
    HandleReadSize kMaxTransportChunkSize kStallTimeout no_error now c =
      (c', [async_wait;
            async_read_data
              (Z.min kMaxTransportChunkSize
                     (Z.of_nat (List.length bs) - Z.of_nat 0))]) /\
    receiving kMaxTransportChunkSize now bs 0 c'.
Proof.
  intros Hn Hsock Htimer Hdead HD Hsize.
  unfold HandleReadSize, andthen, CheckTimeout.
  rewrite Hsock, Htimer. cbn [negb emit]. rewrite Hsock. cbn [negb].
  rewrite Hsize, read_size_big_endian_4 by lia.
  unfold StartReadData, andthen, update, emit.
  cbn [data_received_ set_data_received_ data_size_ set_data_size_
       data_buffer_ set_data_buffer_ response_deadline_ set_timer_ app].
  rewrite Hdead.
  rewrite (wrap_size_t_DataSize kMaxTransportChunkSize) by lia.
  rewrite Z.add_0_l, !Z.sub_0_r.
  rewrite !(wrap_size_t_DataSize (Z.of_nat _)) by lia.
  rewrite !(wrap_size_t_DataSize (Z.min _ _)) by lia.
  eexists. split.
  - f_equal. f_equal. f_equal. f_equal. lia.
  - unfold receiving.
    cbn [socket_ response_deadline_ timer_ data_size_ data_received_
         data_buffer_ set_timer_ set_data_buffer_ set_data_received_
         set_data_size_].
    split_and!.
    + exact Hsock.
    + by exists D.
    + by apply ptime_min_later.
    + reflexivity.
    + reflexivity.
    + reflexivity.
    + rewrite length_resize. lia.
Qed.

(** A frame whose length fits a [DataSize] is received whole, whatever the
    maximum message size. *)
Lemma receive_frame_delivers (P : string) (receiver : TcpConnection) (fuel : nat) :
  Z.of_nat (String.length P) < 2 ^ 31 ->
  socket_ receiver = true ->
  0 < timeout_for_response_ receiver ->
  (String.length P < fuel)%nat ->
  receive_frame kMaxTransportChunkSize kStallTimeout fuel now (frame_of P)
    receiver = Some P.
Proof.
  intros Hsize Hopen Htimeout Hfuel.
  pose proof (length_bytes_of_string P) as Hlen.
  unfold receive_frame, frame_of.
  unfold StartReadSize, andthen, update, emit.
  cbn [List.length big_endian_4 app Nat.ltb Nat.leb].
  change (take 4 (?a :: ?b :: ?c :: ?d :: ?l)) with [a; b; c; d].
  change (drop 4 (?a :: ?b :: ?c :: ?d :: ?l)) with l.
  fold (big_endian_4 (Z.of_nat (String.length P))).
  rewrite <- Hlen in *.
  match goal with
  | |- context [HandleReadSize _ _ _ _ ?c] =>
    destruct (HandleReadSize_step (bytes_of_string P) c
                (now + timeout_for_response_ receiver))
      as (c1 & -> & Hrecv);
      [lia | exact Hopen | apply ptime_min_later; lia | reflexivity | lia
      | reflexivity |]
  end.
  cbn [pending_read_data].
  destruct (read_data_loop_delivers (bytes_of_string P) ltac:(lia) fuel 0%nat c1
              ltac:(lia) ltac:(lia) Hrecv) as (c2 & ev & Hloop & Hin & Hbuf).
  rewrite drop_0 in Hloop. rewrite Hloop.
  rewrite bool_decide_eq_true_2 by exact Hin.
  rewrite Hbuf. by rewrite string_of_bytes_of_string.
Qed.

(** [StartWrite] hands asio the size buffer followed by the data buffer. *)
Lemma StartWrite_writes (c : TcpConnection) :
  exists ev,
    (StartWrite kMinTimeout scaled_size now c).2 =
      async_write (size_buffer_ c ++ data_buffer_ c) :: ev.
Proof.
  unfold StartWrite, andthen, emit, update.
  match goal with |- context [CheckTimeout ?e ?t ?x] =>
    destruct (CheckTimeout e t x) as [c' ev] end.
  exists ev. reflexivity.
Qed.

(** C5. For a payload [P] no larger than the maximum message size,
    [EncodeData] leaves the four big-endian bytes of [len P] in the size
    buffer and [P] in the data buffer, [StartWrite] writes them in that
    order, the expression of [HandleReadSize] decodes the four bytes back to
    [len P], and a connection that receives the frame hands [P] to
    [DispatchMessage]. *)
Theorem frame_roundtrip
    (P : string) (sender receiver : TcpConnection) (fuel : nat) :
  Z.of_nat (String.length P) <= kMaxTransportMessageSize ->
  kMaxTransportMessageSize < 2 ^ 31 ->
  List.length (size_buffer_ sender) = 4%nat ->
  socket_ receiver = true ->
  0 < timeout_for_response_ receiver ->
  (String.length P < fuel)%nat ->
  let encoded := (EncodeData P sender).1 in
  size_buffer_ encoded = big_endian_4 (Z.of_nat (String.length P)) /\
  data_buffer_ encoded = bytes_of_string P /\
  (exists ev,
     (StartWrite kMinTimeout scaled_size now encoded).2 =
       async_write (frame_of P) :: ev) /\
  read_size (size_buffer_ encoded) = Z.of_nat (String.length P) /\
  receive_frame kMaxTransportChunkSize kStallTimeout fuel now (frame_of P)
    receiver = Some P.
Proof.
  intros Hmax Hrange Hlen Hopen Htimeout Hfuel encoded. subst encoded.
  rewrite EncodeData_buffers by (lia || exact Hlen).
  cbn [fst size_buffer_ data_buffer_ set_data_buffer_ set_size_buffer_].
  split_and!.
  - reflexivity.
  - reflexivity.
  - destruct (StartWrite_writes
                (set_data_buffer_ (bytes_of_string P)
                   (set_size_buffer_
                      (big_endian_4 (Z.of_nat (String.length P))) sender)))
      as (ev & Hev).
    exists ev. exact Hev.
  - apply read_size_big_endian_4. lia.
  - apply receive_frame_delivers; (lia || assumption).
Qed.

(** C6, what the code does. [HandleReadSize] does not look at the maximum
    message size: a frame whose length exceeds it (and fits a [DataSize]) is
    read and handed to [DispatchMessage] like any other. *)
Theorem oversized_frame_dispatched
    (P : string) (receiver : TcpConnection) (fuel : nat) :
  kMaxTransportMessageSize < Z.of_nat (String.length P) < 2 ^ 31 ->
  socket_ receiver = true ->
  0 < timeout_for_response_ receiver ->
  (String.length P < fuel)%nat ->
  read_size (take 4 (frame_of P)) = Z.of_nat (String.length P) /\
  receive_frame kMaxTransportChunkSize kStallTimeout fuel now (frame_of P)
    receiver = Some P.
Proof.
  intros Hsize Hopen Htimeout Hfuel. split.
  - unfold frame_of, big_endian_4. cbn [app take].
    apply read_size_big_endian_4. lia.
  - apply receive_frame_delivers; (lia || assumption).
Qed.

(** The sending side does refuse it. *)
Lemma Send_oversized (data : string) (timeout : Z) :
  kMaxTransportMessageSize < Z.of_nat (String.length data) < 2 ^ 31 ->
  Send kMaxTransportMessageSize kDefaultInitialTimeout data timeout now =
    (None, [on_error kMessageSizeTooLarge]).
Proof.
  intros Hsize. unfold Send. rewrite wrap_DataSize_small by lia.
  destruct (Z.gtb_spec (Z.of_nat (String.length data))
                       kMaxTransportMessageSize); [reflexivity | lia].
Qed.

(** An empty message is within the limit: [Send] encodes it and connects. *)
Lemma Send_empty (timeout : Z) :
  0 <= kMaxTransportMessageSize ->
  exists c ev,
    Send kMaxTransportMessageSize kDefaultInitialTimeout "" timeout now =
      (Some c, ev) /\
    size_buffer_ c = [0; 0; 0; 0] /\ data_buffer_ c = [] /\
    async_connect ∈ ev.
Proof.
  intros Hmax. unfold Send. cbn [String.length Z.of_nat].
  rewrite wrap_DataSize_small by lia.
  destruct (Z.gtb_spec (Z.of_nat 0) kMaxTransportMessageSize) as [Hgt | _];
    [lia |].
  unfold StartSending, andthen.
  rewrite EncodeData_buffers by (simpl; (lia || reflexivity)).
  unfold update, StartConnect, andthen, emit, update.
  do 2 eexists. split; [reflexivity |].
  split_and!; [reflexivity | reflexivity | repeat constructor].
Qed.

(** *** Errors, deadlines and bounds *)

Lemma CloseOnError_closed_with (e : TransportCondition) (c : TcpConnection) :
  CloseOnError e c = closed_with e c.
Proof.
  unfold CloseOnError, DoClose, closed_with, andthen, update, emit, skip.
  destruct c as [t s tm rd sb db ds dr tr]. cbn [transport_ set_socket_].
  by destruct t.
Qed.

(** A read that completes with an error, or after the timer has run out,
    closes the connection and reports [kReceiveFailure] or
    [kReceiveTimeout]: no further read is started and nothing is dispatched,
    even when the bytes just read complete the message. *)
Theorem failed_or_late_read_closes
    (ec : error_code) (length : Z) (c : TcpConnection) :
  socket_ c = true ->
  ec <> no_error \/ ptime_le (timer_ c) (at_time now) = true ->
  let e := match ec with no_error => kReceiveTimeout | _ => kReceiveFailure end in
  HandleReadSize kMaxTransportChunkSize kStallTimeout ec now c =
    closed_with e c /\
  HandleReadData kMaxTransportChunkSize kStallTimeout ec length now c =
    closed_with e c.
Proof.
  intros Hopen Hwhy e. subst e.
  unfold HandleReadSize, HandleReadData.
  destruct ec; try (split; apply CloseOnError_closed_with).
  destruct Hwhy as [? | Hlate]; [done |].
  unfold andthen, CheckTimeout. rewrite Hopen, Hlate.
  cbn [negb update socket_ set_socket_].
  rewrite !CloseOnError_closed_with. unfold closed_with.
  cbn [set_socket_ transport_ socket_ timer_ response_deadline_ size_buffer_
       data_buffer_ data_size_ data_received_ timeout_for_response_].
  by destruct (transport_ c).
Qed.

(** [StartReadData] asks for the bytes that are left, at most one chunk of
    them, sizes the buffer for exactly that read and keeps the bytes
    received so far; the timer is set to the earlier of the response
    deadline and a stall timeout from now. *)
Theorem StartReadData_request (c : TcpConnection) :
  0 <= data_received_ c <= data_size_ c ->
  data_size_ c < 2 ^ 64 ->
  data_received_ c <= Z.of_nat (List.length (data_buffer_ c)) ->
  let n := Z.min kMaxTransportChunkSize (data_size_ c - data_received_ c) in
  exists c',
    StartReadData kMaxTransportChunkSize kStallTimeout now c =
      (c', [async_read_data n]) /\
    0 <= n <= kMaxTransportChunkSize /\
    Z.of_nat (List.length (data_buffer_ c')) = data_received_ c + n /\
    take (Z.to_nat (data_received_ c)) (data_buffer_ c') =
      take (Z.to_nat (data_received_ c)) (data_buffer_ c) /\
    data_received_ c' = data_received_ c /\
    data_size_ c' = data_size_ c /\
    response_deadline_ c' = response_deadline_ c /\
    timer_ c' = ptime_min (response_deadline_ c)
                          (at_time (now + kStallTimeout)).
Proof.
  intros Hrecv Hsize Hbuf n.
  assert (H64 : 2 ^ 31 < 2 ^ 64) by reflexivity.
  assert (Hn : n = Z.min kMaxTransportChunkSize
                     (data_size_ c - data_received_ c)) by reflexivity.
  clearbody n.
  unfold StartReadData, andthen, update, emit.
  cbn [data_received_ data_size_ data_buffer_ response_deadline_
       set_data_buffer_ set_timer_ app].
  rewrite (wrap_size_t_small kMaxTransportChunkSize) by lia.
  rewrite (wrap_size_t_small (data_size_ c - data_received_ c)) by lia.
  rewrite <- Hn. rewrite (wrap_size_t_small (data_received_ c + n)) by lia.
  eexists. split; [f_equal; f_equal; f_equal; lia |].
  cbn [data_buffer_ data_received_ data_size_ response_deadline_ timer_
       set_timer_ set_data_buffer_].
  split_and!; try reflexivity; try lia.
  - rewrite length_resize. lia.
  - rewrite take_resize_le by lia. apply resize_le. lia.
Qed.

(** What [Send] leaves in the connection it creates. *)
Lemma Send_runs (data : string) (timeout : Z) :
  Z.of_nat (String.length data) <= kMaxTransportMessageSize ->
  kMaxTransportMessageSize < 2 ^ 31 ->
  Send kMaxTransportMessageSize kDefaultInitialTimeout data timeout now =
    (Some
       (set_timer_ (at_time (now + kDefaultInitialTimeout))
          (set_timeout_for_response_ timeout
             (set_data_buffer_ (bytes_of_string data)
                (set_size_buffer_
                   (big_endian_4 (Z.of_nat (String.length data)))
                   (TcpConnection_new kDefaultInitialTimeout))))),
     [InsertConnection; async_connect]).
Proof.
  intros Hsize Hmax. unfold Send. rewrite wrap_DataSize_small by lia.
  destruct (Z.gtb_spec (Z.of_nat (String.length data))
                       kMaxTransportMessageSize) as [Hgt | _]; [lia |].
  unfold StartSending, andthen.
  rewrite EncodeData_buffers by (lia || reflexivity).
  reflexivity.
Qed.

(** [Send] creates a connection exactly for a message within the limit:
    a larger one is reported as [kMessageSizeTooLarge] and nothing else
    happens; otherwise the new connection holds the frame of the message and
    the caller's response timeout, and connects. *)
Theorem Send_within_limit_iff (data : string) (timeout : Z) :
  Z.of_nat (String.length data) < 2 ^ 31 ->
  kMaxTransportMessageSize < 2 ^ 31 ->
  let sent := Send kMaxTransportMessageSize kDefaultInitialTimeout data
                timeout now in
  (kMaxTransportMessageSize < Z.of_nat (String.length data) ->
   sent = (None, [on_error kMessageSizeTooLarge])) /\
  (Z.of_nat (String.length data) <= kMaxTransportMessageSize ->
   exists c,
     sent = (Some c, [InsertConnection; async_connect]) /\
     size_buffer_ c ++ data_buffer_ c = frame_of data /\
     timeout_for_response_ c = timeout /\
     socket_ c = false /\
     timer_ c = at_time (now + kDefaultInitialTimeout)).
Proof.
  intros Hsize Hmax sent. subst sent. split; intros Hcmp.
  - unfold Send. rewrite wrap_DataSize_small by lia.
    destruct (Z.gtb_spec (Z.of_nat (String.length data))
                         kMaxTransportMessageSize); [reflexivity | lia].
  - rewrite Send_runs by lia. eexists. split; [reflexivity |].
    split_and!; reflexivity.
Qed.

(** After the connect, [StartWrite] writes the frame of the message; when
    the write completes, a message sent with [kImmediateTimeout] closes the
    connection without reading, and any other starts reading the reply with
    the response deadline at the caller's timeout from then. *)
Theorem outbound_message_flow
    (data : string) (timeout now1 now2 : Z) :
  Z.of_nat (String.length data) <= kMaxTransportMessageSize ->
  kMaxTransportMessageSize < 2 ^ 31 ->
  0 < kMinTimeout ->
  exists c0 c2,
    Send kMaxTransportMessageSize kDefaultInitialTimeout data timeout now =
      (Some c0, [InsertConnection; async_connect]) /\
    HandleConnect kMinTimeout scaled_size no_error now1 (set_socket_ true c0) =
      (c2, [async_write (frame_of data); async_wait]) /\
    (timeout = kImmediateTimeout ->
     HandleWrite kStallTimeout kImmediateTimeout no_error now2 c2 =
       (set_socket_ false c2, [timer_cancel; RemoveConnection])) /\
    (timeout <> kImmediateTimeout ->
     exists c3,
       HandleWrite kStallTimeout kImmediateTimeout no_error now2 c2 =
         (c3, [async_read_size]) /\
       socket_ c3 = true /\
       response_deadline_ c3 = at_time (now2 + timeout)).
Proof.
  intros Hsize Hmax Hmin. rewrite Send_runs by lia.
  eexists. eexists. split; [reflexivity |].
  unfold HandleConnect, StartWrite, CheckTimeout, andthen, emit, update.
  cbn [socket_ set_socket_ set_timer_ timer_ negb data_buffer_ size_buffer_
       set_timeout_for_response_ set_data_buffer_ set_size_buffer_
       TcpConnection_new ptime_le app].
  destruct (Z.leb_spec
              (now1 + Z.max (scaled_size
                               (Z.of_nat (List.length (bytes_of_string data))))
                            kMinTimeout) now1) as [Hle | _]; [lia |].
  split; [reflexivity |].
  unfold HandleWrite, DoClose, StartReadSize, andthen, emit, update, skip.
  cbn [socket_ set_socket_ set_timer_ timer_ negb transport_
       timeout_for_response_ response_deadline_ set_response_deadline_ app].
  change (timeout_for_response_ (set_timeout_for_response_ ?t ?c)) with t.
  split; intros Ht.
  - rewrite (proj2 (Z.eqb_eq _ _) Ht). reflexivity.
  - rewrite (proj2 (Z.eqb_neq _ _) Ht). cbn [negb].
    eexists. split; [reflexivity |]. split; reflexivity.
Qed.

(** [DispatchMessage] answers with what the callback returns when that is
    not empty and within the limit: the buffers then hold the frame of the
    response, which [StartWrite] writes and a peer that is reading receives
    whole.  An empty or oversized response closes the connection instead and
    encodes nothing. *)
Theorem DispatchMessage_reply
    (on_message_received : string -> string * Z)
    (server client : TcpConnection) (response : string) (timeout : Z)
    (fuel : nat) :
  transport_ server = true ->
  List.length (size_buffer_ server) = 4%nat ->
  on_message_received (string_of_bytes (data_buffer_ server)) =
    (response, timeout) ->
  Z.of_nat (String.length response) < 2 ^ 31 ->
  kMaxTransportMessageSize < 2 ^ 31 ->
  socket_ client = true ->
  0 < timeout_for_response_ client ->
  (String.length response < fuel)%nat ->
  let dispatched :=
    DispatchMessage kMaxTransportMessageSize on_message_received server in
  (response = "" \/
   kMaxTransportMessageSize < Z.of_nat (String.length response) ->
   dispatched = (server, [dispatch_DoClose])) /\
  (response <> "" ->
   Z.of_nat (String.length response) <= kMaxTransportMessageSize ->
   exists server',
     dispatched = (server', [dispatch_StartWrite]) /\
     timeout_for_response_ server' = timeout /\
     (exists ev,
        (StartWrite kMinTimeout scaled_size now server').2 =
          async_write (frame_of response) :: ev) /\
     receive_frame kMaxTransportChunkSize kStallTimeout fuel now
       (frame_of response) client = Some response).
Proof.
  intros Halive Hlen Hcb Hsize Hmax Hopen Htimeout Hfuel dispatched.
  subst dispatched. unfold DispatchMessage. rewrite Halive, Hcb.
  rewrite wrap_DataSize_small by lia. split.
  - intros [-> | Hbig]; [reflexivity |].
    destruct (Z.gtb_spec (Z.of_nat (String.length response))
                         kMaxTransportMessageSize) as [_ | Hle]; [| lia].
    by rewrite orb_true_r.
  - intros Hne Hfit.
    rewrite (proj2 (empty_string_false response) Hne).
    destruct (Z.gtb_spec (Z.of_nat (String.length response))
                         kMaxTransportMessageSize) as [Hgt | _]; [lia |].
    cbn [orb]. unfold andthen.
    rewrite EncodeData_buffers by (lia || exact Hlen).
    unfold update, emit. eexists. split; [reflexivity |].
    split; [reflexivity |]. split.
    + unfold StartWrite, andthen, emit, update.
      match goal with |- context [CheckTimeout ?e ?t ?x] =>
        destruct (CheckTimeout e t x) as [c' ev] end.
      exists ev. reflexivity.
    + apply receive_frame_delivers; (lia || assumption).
Qed.

(** The events of a closed connection ask for no read and post no
    dispatch. *)
Lemma closed_with_quiet (e : TransportCondition) (c : TcpConnection) :
  pending_read_data (closed_with e c).2 = None /\
  post_DispatchMessage ∉ (closed_with e c).2.
Proof.
  unfold closed_with. destruct (transport_ c); cbn [snd pending_read_data];
    (split; [reflexivity |]); intros Hin;
    repeat (apply elem_of_cons in Hin as [Hin | Hin]; [discriminate |]);
    by apply elem_of_nil in Hin.
Qed.

(** One completed data read, whatever the state of the socket and of the
    timer: the connection closes, or the message is complete, or the next
    chunk is asked for. *)
Lemma HandleReadData_cases (size : Z) (k : nat) (n : Z) (c : TcpConnection) :
  data_size_ c = size -> data_received_ c = Z.of_nat k ->
  0 <= n -> Z.of_nat k + n <= size -> size < 2 ^ 31 ->
  let r := HandleReadData kMaxTransportChunkSize kStallTimeout no_error n
             now c in
  (pending_read_data r.2 = None /\ post_DispatchMessage ∉ r.2) \/
  (Z.of_nat k + n = size /\ r.2 = [async_wait; post_DispatchMessage] /\
   data_buffer_ r.1 = data_buffer_ c) \/
  (Z.of_nat k + n < size /\
   r.2 = [async_wait;
          async_read_data
            (Z.min kMaxTransportChunkSize (size - (Z.of_nat k + n)))] /\
   data_size_ r.1 = size /\
   data_received_ r.1 = Z.of_nat k + n /\
   data_buffer_ r.1 =
     resize (Z.to_nat (Z.of_nat k + n +
                       Z.min kMaxTransportChunkSize
                             (size - (Z.of_nat k + n))))
            0 (data_buffer_ c)).
Proof.
  intros Hsize Hrecv Hn Hle Hbound r. subst r.
  unfold HandleReadData, andthen, CheckTimeout.
  destruct (socket_ c) eqn:Hsock; cbn [negb].
  2: { unfold skip. rewrite Hsock. cbn [negb].
       rewrite CloseOnError_closed_with.
       pose proof (closed_with_quiet kReceiveTimeout c) as [Hq1 Hq2].
       destruct (closed_with kReceiveTimeout c) as [c2 e2].
       cbn [app snd fst] in *. left. by split. }
  destruct (ptime_le (timer_ c) (at_time now)) eqn:Hlate.
  { unfold update. cbn [socket_ set_socket_ negb].
    rewrite CloseOnError_closed_with.
    pose proof (closed_with_quiet kReceiveTimeout (set_socket_ false c))
      as [Hq1 Hq2].
    destruct (closed_with kReceiveTimeout (set_socket_ false c)) as [c2 e2].
    cbn [app snd fst] in *. left. by split. }
  unfold StartReadData, andthen, update, emit.
  rewrite !Hsock. cbn [negb].
  cbn [data_received_ set_data_received_ data_size_ data_buffer_
       set_data_buffer_ response_deadline_ set_timer_ app].
  rewrite !Hrecv, !Hsize.
  rewrite !(wrap_size_t_DataSize (Z.of_nat k + n)) by lia.
  rewrite (wrap_size_t_DataSize kMaxTransportChunkSize) by lia.
  right.
  destruct (Z.eqb_spec (Z.of_nat k + n) size) as [Heq | Hne].
  - left. cbn [fst snd data_buffer_ set_timer_ set_data_received_].
    by split_and!.
  - right. rewrite !(wrap_size_t_DataSize (size - _)) by lia.
    rewrite !(wrap_size_t_DataSize (_ + _)) by lia.
    cbn [fst snd data_buffer_ data_size_ data_received_ set_timer_
         set_data_buffer_ set_data_received_].
    split_and!; try reflexivity; try lia; try exact Hsize.
    f_equal. f_equal. f_equal. lia.
Qed.

(** The read loop dispatches only once the announced number of bytes has
    arrived, with exactly those bytes in the buffer. *)
Lemma read_data_loop_sound (full : list Z) (size : Z) :
  0 <= size < 2 ^ 31 ->
  forall fuel k c c' ev,
    data_size_ c = size -> data_received_ c = Z.of_nat k ->
    Z.of_nat k <= size ->
    take k (data_buffer_ c) = take k full ->
    Z.of_nat (List.length (data_buffer_ c)) =
      Z.of_nat k + Z.min kMaxTransportChunkSize (size - Z.of_nat k) ->
    (k <= List.length full)%nat ->
    read_data_loop kMaxTransportChunkSize kStallTimeout fuel now
      (drop k full) (Z.min kMaxTransportChunkSize (size - Z.of_nat k)) c =
      Some (c', ev) ->
    post_DispatchMessage ∈ ev ->
    size <= Z.of_nat (List.length full) /\
    data_buffer_ c' = take (Z.to_nat size) full.
Proof.
  intros Hsize fuel. induction fuel as [| fuel IH];
    intros k c c' ev Hds Hdr Hk Hpre Hlen Hkfull Hloop Hpost;
    [discriminate |].
  set (n := Z.min kMaxTransportChunkSize (size - Z.of_nat k)) in *.
  assert (Hn : 0 <= n <= size - Z.of_nat k) by (unfold n; lia).
  cbn [read_data_loop] in Hloop. rewrite length_drop in Hloop.
  destruct (Z.ltb_spec (Z.of_nat (List.length full - k)) n) as [_ | Havail];
    [discriminate |].
  set (c1 := fill_data_buffer (take (Z.to_nat n) (drop k full)) c) in *.
  assert (Hbuf : data_buffer_ c1 = take (k + Z.to_nat n) full).
  { unfold c1, fill_data_buffer. cbn [data_buffer_ set_data_buffer_].
    rewrite Hdr, Nat2Z.id, Hpre, length_take, length_drop.
    rewrite (drop_ge (data_buffer_ c)) by lia.
    rewrite app_nil_r, take_drop_commute.
    rewrite <- (take_drop k (take (k + Z.to_nat n) full)) at 2.
    rewrite take_take. f_equal. f_equal. lia. }
  assert (Hds1 : data_size_ c1 = size) by exact Hds.
  assert (Hdr1 : data_received_ c1 = Z.of_nat k) by exact Hdr.
  clearbody c1.
  pose proof (HandleReadData_cases size k n c1 Hds1 Hdr1 ltac:(lia)
                ltac:(lia) ltac:(lia)) as Hcases.
  cbv zeta in Hcases.
  destruct (HandleReadData kMaxTransportChunkSize kStallTimeout no_error n
              now c1) as [c2 ev2].
  cbn [fst snd] in Hcases.
  destruct Hcases as [[Hnone Hquiet] | [(Hdone & Hev & Hsame) |
                      (Hmore & Hev & Hds2 & Hdr2 & Hbuf2)]].
  - rewrite Hnone in Hloop. injection Hloop as <- <-. contradiction.
  - rewrite Hev in Hloop. cbn [pending_read_data] in Hloop.
    injection Hloop as <- <-. split; [lia |].
    rewrite Hsame, Hbuf. f_equal. lia.
  - rewrite Hev in Hloop. cbn [pending_read_data] in Hloop.
    rewrite drop_drop in Hloop.
    assert (Hpos : 0 < n) by (unfold n in *; lia).
    replace (Z.of_nat k + n) with (Z.of_nat (k + Z.to_nat n)) in * by lia.
    apply (IH (k + Z.to_nat n)%nat c2 c' ev); try assumption; try lia.
    + rewrite Hbuf2, Hbuf.
      rewrite take_resize_le by lia. apply resize_all_alt.
      rewrite length_take. lia.
    + rewrite Hbuf2, length_resize. lia.
Qed.

Lemma read_size_range (size_buffer : list Z) :
  - 2 ^ 31 <= read_size size_buffer < 2 ^ 31.
Proof.
  unfold read_size, wrap_DataSize.
  match goal with |- context [?x mod 2 ^ 32] =>
    pose proof (Z.mod_pos_bound x (2 ^ 32) ltac:(lia)) end.
  lia.
Qed.

(** [HandleReadSize] closes the connection or starts the first data read
    for the size it decoded. *)
Lemma HandleReadSize_cases (c : TcpConnection) :
  0 <= read_size (size_buffer_ c) ->
  let size := read_size (size_buffer_ c) in
  let r := HandleReadSize kMaxTransportChunkSize kStallTimeout no_error now c in
  (pending_read_data r.2 = None) \/
  (r.2 = [async_wait; async_read_data (Z.min kMaxTransportChunkSize size)] /\
   data_size_ r.1 = size /\
   data_received_ r.1 = 0 /\
   data_buffer_ r.1 =
     resize (Z.to_nat (Z.min kMaxTransportChunkSize size)) 0 (data_buffer_ c)).
Proof.
  intros Hpos size r. subst r.
  pose proof (read_size_range (size_buffer_ c)) as Hrange. fold size in Hrange.
  assert (Hsz : read_size (size_buffer_ c) = size) by reflexivity.
  clearbody size.
  unfold HandleReadSize, andthen, CheckTimeout.
  destruct (socket_ c) eqn:Hsock; cbn [negb].
  2: { unfold skip. rewrite Hsock. cbn [negb].
       rewrite CloseOnError_closed_with.
       pose proof (closed_with_quiet kReceiveTimeout c) as [Hq1 Hq2].
       destruct (closed_with kReceiveTimeout c) as [c2 e2].
       cbn [app snd fst] in *. by left. }
  destruct (ptime_le (timer_ c) (at_time now)) eqn:Hlate.
  { unfold update. cbn [socket_ set_socket_ negb].
    rewrite CloseOnError_closed_with.
    pose proof (closed_with_quiet kReceiveTimeout (set_socket_ false c))
      as [Hq1 Hq2].
    destruct (closed_with kReceiveTimeout (set_socket_ false c)) as [c2 e2].
    cbn [app snd fst] in *. by left. }
  unfold StartReadData, andthen, update, emit.
  rewrite !Hsock. cbn [negb].
  cbn [data_received_ set_data_received_ data_size_ set_data_size_
       data_buffer_ set_data_buffer_ response_deadline_ set_timer_ app].
  rewrite Hsz.
  rewrite (wrap_size_t_DataSize kMaxTransportChunkSize) by lia.
  rewrite Z.add_0_l, !Z.sub_0_r.
  rewrite !(wrap_size_t_DataSize size) by lia.
  rewrite !(wrap_size_t_DataSize (Z.min _ _)) by lia.
  right.
  cbn [fst snd data_buffer_ data_size_ data_received_ set_timer_
       set_data_buffer_ set_data_received_ set_data_size_].
  split_and!; try reflexivity.
  f_equal. f_equal. f_equal. lia.
Qed.

(** What [receive_frame] hands to [DispatchMessage] is the payload the size
    prefix announces, and only once all of it has arrived: a frame that is
    cut short is never dispatched. *)
Theorem receive_frame_sound
    (fuel : nat) (wire : list Z) (c : TcpConnection) (message : string) :
  receive_frame kMaxTransportChunkSize kStallTimeout fuel now wire c =
    Some message ->
  0 <= read_size (take 4 wire) ->
  let size := read_size (take 4 wire) in
  4 + size <= Z.of_nat (List.length wire) /\
  message = string_of_bytes (take (Z.to_nat size) (drop 4 wire)).
Proof.
  intros Hrecv Hpos size.
  pose proof (read_size_range (take 4 wire)) as Hrange. fold size in Hrange.
  unfold receive_frame in Hrecv.
  destruct (StartReadSize kStallTimeout now c) as [c0 ev0].
  destruct (Nat.ltb_spec (List.length wire) 4) as [_ | Hlong];
    [discriminate |].
  pose proof (HandleReadSize_cases (set_size_buffer_ (take 4 wire) c0))
    as Hcases.
  cbn [size_buffer_ set_size_buffer_] in Hcases. specialize (Hcases Hpos).
  cbv zeta in Hcases. fold size in Hcases.
  destruct (HandleReadSize kMaxTransportChunkSize kStallTimeout no_error now
              (set_size_buffer_ (take 4 wire) c0)) as [c1 ev1].
  cbn [fst snd] in Hcases.
  destruct Hcases as [Hnone | (Hev & Hds & Hdr & Hbuf)].
  { rewrite Hnone in Hrecv. discriminate. }
  rewrite Hev in Hrecv. cbn [pending_read_data] in Hrecv.
  destruct (read_data_loop _ _ _ _ _ _ _) as [[c2 ev2] |] eqn:Hloop;
    [| discriminate].
  destruct (bool_decide (post_DispatchMessage ∈ ev2)) eqn:Hpost;
    [| discriminate].
  apply bool_decide_eq_true in Hpost. injection Hrecv as <-.
  destruct (read_data_loop_sound (drop 4 wire) size ltac:(lia) fuel 0%nat
              c1 c2 ev2) as [Hall Hbytes]; try assumption; try lia.
  - reflexivity.
  - rewrite Hbuf, length_resize. lia.
  - rewrite Z.sub_0_r. exact Hloop.
  - rewrite length_drop in Hall. split; [lia |]. by rewrite Hbytes.
Qed.

End Connection.

(** ** A server connection with the usual tuneables: chunks of 64 KiB,
    3 s stall timeout, 10 s for a response *)

Lemma frame_roundtrip_witness :
  let receiver :=
    set_socket_ true (TcpConnection_new 10000) in
  let encoded := (EncodeData "ping" (TcpConnection_new 10000)).1 in
  Z.of_nat (String.length "ping") <= 67108864 /\
  size_buffer_ encoded = [0; 0; 0; 4] /\
  data_buffer_ encoded = [112; 105; 110; 103] /\
  read_size (size_buffer_ encoded) = 4 /\
  receive_frame 65536 3000 5 0 (frame_of "ping") receiver = Some "ping".
Proof.
  intros receiver encoded.
  pose proof (frame_roundtrip 67108864 65536 3000 500 (fun n => n / 100) 0
                ltac:(lia) ltac:(lia) "ping" (TcpConnection_new 10000)
                receiver 5%nat
                ltac:(simpl; lia) ltac:(lia) eq_refl eq_refl
                ltac:(simpl; lia) ltac:(simpl; lia)) as T.
  cbv zeta in T. destruct T as (Tsize & Tdata & _ & Tread & Trecv).
  split_and!.
  - simpl. lia.
  - exact Tsize.
  - exact Tdata.
  - exact Tread.
  - exact Trecv.
Defined.

Lemma oversized_frame_dispatched_witness :
  let receiver := set_socket_ true (TcpConnection_new 10000) in
  4 < Z.of_nat (String.length "hello") < 2 ^ 31 /\
  read_size (take 4 (frame_of "hello")) = 5 /\
  receive_frame 65536 3000 6 0 (frame_of "hello") receiver = Some "hello".
Proof.
  intros receiver.
  pose proof (oversized_frame_dispatched 4 65536 3000 0
                ltac:(lia) ltac:(lia) "hello" receiver 6%nat
                ltac:(simpl; lia) eq_refl ltac:(simpl; lia)
                ltac:(simpl; lia)) as T.
  destruct T as (Tread & Trecv).
  split_and!.
  - simpl. lia.
  - simpl. lia.
  - exact Tread.
  - exact Trecv.
Defined.

Lemma failed_or_late_read_closes_witness :
  let c := set_timer_ (at_time 100) (set_socket_ true (TcpConnection_new 10000)) in
  socket_ c = true /\
  ptime_le (timer_ c) (at_time 250) = true /\
  HandleReadSize 65536 3000 no_error 250 c =
    (set_socket_ false c,
     [on_error kReceiveTimeout; timer_cancel; RemoveConnection]) /\
  HandleReadData 65536 3000 operation_aborted 7 250 c =
    (set_socket_ false c,
     [on_error kReceiveFailure; timer_cancel; RemoveConnection]).
Proof.
  intros c. split_and!.
  - reflexivity.
  - reflexivity.
  - exact (proj1 (failed_or_late_read_closes 65536 3000 250 no_error 7 c
                    eq_refl (or_intror eq_refl))).
  - assert (Hne : operation_aborted <> no_error) by discriminate.
    pose proof (failed_or_late_read_closes 65536 3000 250
                    operation_aborted 7 c eq_refl (or_introl Hne)) as T.
    cbv zeta in T. destruct T as [_ T]. exact T.
Defined.

Lemma StartReadData_request_witness :
  let c :=
    set_data_buffer_ [104; 105]
      (set_data_received_ 2
         (set_data_size_ 100000 (set_socket_ true (TcpConnection_new 10000)))) in
  0 <= data_received_ c <= data_size_ c /\
  exists c',
    StartReadData 65536 3000 0 c = (c', [async_read_data 65536]) /\
    Z.of_nat (List.length (data_buffer_ c')) = 65538 /\
    take 2 (data_buffer_ c') = [104; 105].
Proof.
  intros c. split; [simpl; lia |].
  destruct (StartReadData_request 65536 3000 0 ltac:(lia) c
              ltac:(simpl; lia) ltac:(simpl; lia) ltac:(simpl; lia))
    as (c' & Hrun & _ & Hlen & Hkeep & _).
  exists c'. split_and!.
  - exact Hrun.
  - exact Hlen.
  - exact Hkeep.
Defined.

Lemma Send_within_limit_iff_witness :
  Z.of_nat (String.length "hello") < 2 ^ 31 /\
  Send 4 10000 "hello" 0 0 = (None, [on_error kMessageSizeTooLarge]) /\
  exists c,
    Send 1024 10000 "hello" 0 0 = (Some c, [InsertConnection; async_connect]) /\
    size_buffer_ c ++ data_buffer_ c = frame_of "hello".
Proof.
  split_and!.
  - simpl. lia.
  - exact (proj1 (Send_within_limit_iff 4 10000 0 "hello" 0
                    ltac:(simpl; lia) ltac:(lia)) ltac:(simpl; lia)).
  - destruct (proj2 (Send_within_limit_iff 1024 10000 0 "hello" 0
                       ltac:(simpl; lia) ltac:(lia)) ltac:(simpl; lia))
      as (c & Hrun & Hframe & _).
    exists c. split; [exact Hrun | exact Hframe].
Defined.

Lemma outbound_message_flow_witness :
  Z.of_nat (String.length "stop") <= 1024 /\
  exists c0 c2,
    Send 1024 10000 "stop" 0 0 = (Some c0, [InsertConnection; async_connect]) /\
    HandleConnect 500 (fun n => n / 100) no_error 20 (set_socket_ true c0) =
      (c2, [async_write (frame_of "stop"); async_wait]) /\
    HandleWrite 3000 0 no_error 40 c2 =
      (set_socket_ false c2, [timer_cancel; RemoveConnection]).
Proof.
  split; [simpl; lia |].
  destruct (outbound_message_flow 1024 10000 3000 500 0 (fun n => n / 100) 0
              "stop" 0 20 40 ltac:(simpl; lia) ltac:(lia) ltac:(lia))
    as (c0 & c2 & Hsend & Hconnect & Hclose & _).
  exists c0, c2. split_and!.
  - exact Hsend.
  - exact Hconnect.
  - exact (Hclose eq_refl).
Defined.

Lemma DispatchMessage_reply_witness :
  let server :=
    set_data_buffer_ (bytes_of_string "ping")
      (set_socket_ true (TcpConnection_new 10000)) in
  let client := set_socket_ true (TcpConnection_new 10000) in
  let echo := fun request : string => ("re:" +:+ request, 0) in
  transport_ server = true /\
  echo (string_of_bytes (data_buffer_ server)) = ("re:ping", 0) /\
  exists server',
    DispatchMessage 1024 echo server = (server', [dispatch_StartWrite]) /\
    receive_frame 65536 3000 8 0 (frame_of "re:ping") client = Some "re:ping".
Proof.
  intros server client echo.
  split_and!.
  - reflexivity.
  - reflexivity.
  - destruct (proj2 (DispatchMessage_reply 1024 65536 3000 500
                       (fun n => n / 100) 0 ltac:(lia) ltac:(lia)
                       echo server client "re:ping" 0 8%nat
                       eq_refl eq_refl eq_refl ltac:(simpl; lia) ltac:(lia)
                       eq_refl ltac:(simpl; lia) ltac:(simpl; lia))
                ltac:(discriminate) ltac:(simpl; lia))
      as (server' & Hrun & _ & _ & Hrecv).
    exists server'. split; [exact Hrun | exact Hrecv].
Defined.

Lemma receive_frame_sound_witness :
  let client := set_socket_ true (TcpConnection_new 10000) in
  let wire := frame_of "hello" ++ [1; 2; 3] in
  receive_frame 65536 3000 6 0 wire client = Some "hello" /\
  0 <= read_size (take 4 wire) /\
  4 + read_size (take 4 wire) <= Z.of_nat (List.length wire) /\
  "hello" = string_of_bytes (take (Z.to_nat (read_size (take 4 wire)))
                                  (drop 4 wire)).
Proof.
  intros client wire.
  assert (Hrun : receive_frame 65536 3000 6 0 wire client = Some "hello")
    by reflexivity.
  assert (Hpos : 0 <= read_size (take 4 wire)) by (vm_compute; discriminate).
  split; [exact Hrun |]. split; [exact Hpos |].
  exact (receive_frame_sound 65536 3000 0 ltac:(lia) 6%nat wire client
           "hello" Hrun Hpos).
Defined.

End TransportProperties.

(** ** The supervisor's handlers *)

Module VaultManagerProperties.

Import VaultManager.

Section Handlers.

Variable env : Environment.
Variable relock_blocks : bool.
Context {Ping : Type} {pb_ping : Protobuf Ping}.
Context {pb_start_request : Protobuf StartVaultRequest}
        {pb_start_response : Protobuf StartVaultResponse}
        {pb_identity_request : Protobuf VaultIdentityRequest}
        {pb_identity_response : Protobuf VaultIdentityResponse}
        {pb_stop_request : Protobuf StopVaultRequest}
        {pb_stop_response : Protobuf StopVaultResponse}
        {pb_interval_request : Protobuf UpdateIntervalRequest}
        {pb_interval_response : Protobuf UpdateIntervalResponse}
        {pb_config : Protobuf VaultManagerConfig}.

(** Unfolds the operations of the handler monad. *)
Ltac vm_unfold :=
  unfold lock_guard, get_world, set_held, effect, set_vault_infos_,
    set_update_interval_, mbind, VM_bind, mret, VM_ret.

(** A stop request that names a registered vault, run from a state in
    which the handler holds no mutex: it blocks on the relock, or else
    answers with the outcome of [Validate] and stops the vault. *)
Lemma HandleStopVaultRequest_runs (w : World) (request response : string)
    (req : StopVaultRequest) (i : nat) (v : VaultInfo) :
  ParseProtobuf request = Some req ->
  held w = [] ->
  FindFromIdentity (stop_identity req) (vault_infos_ w) = Some (i, v) ->
  HandleStopVaultRequest env relock_blocks request response w =
    if relock_blocks
    then Blocks (mkWorld (vault_infos_ w) (update_interval_ w) (local_port_ w)
                   (config_file_path_ w) [vault_infos_mutex_] (effects w))
    else
      let infos := <[ i := set_requested_to_run false v ]> (vault_infos_ w) in
      Returns
        (WrapMessage env kVaultShutdownResponse
           (SerializeToString
              {| stop_result :=
                   Validate env (stop_data req) (stop_signature req)
                            (public_key (keys v)) |}))
        (mkWorld infos (update_interval_ w) (local_port_ w)
           (config_file_path_ w) []
           (effects w ++
            [StopProcess (process_index v);
             WriteFile (config_file_path_ w)
               (config_bytes env (update_interval_ w) infos);
             notify_all])).
Proof.
  intros Hparse Hheld Hfind.
  unfold HandleStopVaultRequest. rewrite Hparse.
  destruct w as [infos interval port path held' effs]. simpl in Hheld, Hfind.
  subst held'.
  unfold StopVault, WriteConfigFile. vm_unfold.
  destruct relock_blocks; cbn -[FindFromIdentity config_bytes];
    rewrite ?Hfind; cbn -[FindFromIdentity config_bytes].
  - reflexivity.
  - destruct (WriteFile_ok env _ _); cbn -[FindFromIdentity config_bytes];
      rewrite <- !app_assoc; cbn [app];
      by destruct (Validate env _ _ _).
Qed.

(** A stop request for an identity that is not registered: [result =
    false], nothing stopped and nothing written. *)
Lemma HandleStopVaultRequest_unknown (w : World) (request response : string)
    (req : StopVaultRequest) :
  ParseProtobuf request = Some req ->
  held w = [] ->
  FindFromIdentity (stop_identity req) (vault_infos_ w) = None ->
  HandleStopVaultRequest env relock_blocks request response w =
    if relock_blocks
    then Blocks (mkWorld (vault_infos_ w) (update_interval_ w) (local_port_ w)
                   (config_file_path_ w) [vault_infos_mutex_] (effects w))
    else
      Returns
        (WrapMessage env kVaultShutdownResponse
           (SerializeToString {| stop_result := false |}))
        (mkWorld (vault_infos_ w) (update_interval_ w) (local_port_ w)
           (config_file_path_ w) [] (effects w ++ [notify_all])).
Proof.
  intros Hparse Hheld Hfind.
  unfold HandleStopVaultRequest. rewrite Hparse.
  destruct w as [infos interval port path held' effs]. simpl in Hheld, Hfind.
  subst held'.
  unfold StopVault, WriteConfigFile. vm_unfold.
  destruct relock_blocks; cbn -[FindFromIdentity config_bytes];
    rewrite ?Hfind; cbn -[FindFromIdentity config_bytes]; reflexivity.
Qed.


(** C8, what the code does. A message that unwraps to a request tag with a
    payload that does not parse leaves [response] empty in its handler, and
    [HandleReceivedMessage] goes on to [transport_->Send(response,
    peer_port)]: an empty message is sent to the peer. *)
Theorem HandleReceivedMessage_malformed (w : World) (message : string)
    (peer_port : Z) (type : MessageType) (payload : string) :
  UnwrapMessage env message = Some (type, payload) ->
  malformed (Ping := Ping) type payload ->
  HandleReceivedMessage (Ping := Ping) env relock_blocks message peer_port w =
    effect (Send "" peer_port) w.
Proof.
  intros Hunwrap Hbad. unfold HandleReceivedMessage. rewrite Hunwrap.
  destruct type; try contradiction; cbn in Hbad;
    unfold HandlePing, HandleStartVaultRequest, HandleVaultIdentityRequest,
      HandleStopVaultRequest, HandleUpdateIntervalRequest;
    rewrite Hbad; reflexivity.
Qed.

(** A message that does not unwrap, or carries a tag that is not a
    request's, returns before [Send]. *)
Lemma HandleReceivedMessage_not_unwrapped (w : World) (message : string)
    (peer_port : Z) :
  UnwrapMessage env message = None ->
  HandleReceivedMessage (Ping := Ping) env relock_blocks message peer_port w = Returns tt w.
Proof. intros Hunwrap. unfold HandleReceivedMessage. by rewrite Hunwrap. Qed.

Lemma HandleReceivedMessage_unknown_type (w : World) (message : string)
    (peer_port : Z) (type : MessageType) (payload : string) :
  UnwrapMessage env message = Some (type, payload) ->
  type ∈ [kStartVaultResponse; kVaultIdentityResponse;
          kVaultShutdownResponse; kUpdateIntervalResponse] ->
  HandleReceivedMessage (Ping := Ping) env relock_blocks message peer_port w = Returns tt w.
Proof.
  intros Hunwrap Htype. unfold HandleReceivedMessage. rewrite Hunwrap.
  destruct type; try reflexivity; exfalso;
    repeat (apply elem_of_cons in Htype as [Htype | Htype];
            [discriminate |]);
    by apply elem_of_nil in Htype.
Qed.

(** C9, as the code has it. After spawning the child the handler appends
    the new record and writes the config file at once, then waits up to 3
    seconds for [vault_requested]; the client receives [result = true] when
    the vault announces itself within the wait and [result = false] when it
    does not.  The config file is written before the wait, whatever its
    outcome. *)
Theorem HandleStartVaultRequest_persists_then_waits (w : World) (request response : string)
    (req : StartVaultRequest) :
  let dir := parent_path env (config_file_path_ w) in
  let id := short_id env (identity (ParseKeys env (start_keys req))) in
  let bootstrap := path_join dir ("bootstrap-" +:+ id +:+ ".dat") in
  let global := path_join dir "bootstrap-global.dat" in
  let arguments :=
    vault_arguments env (path_join dir id) 0 (bootstrap_endpoint req) in
  let index := AddProcess_index env arguments (local_port_ w) in
  let infos := vault_infos_ w ++ [new_vault_info env w req index] in
  ParseProtobuf request = Some req ->
  held w = [] ->
  create_directories_ok env dir = true ->
  exists_file env bootstrap = true \/ copy_file_ok env global bootstrap = true ->
  SetExecutablePath env (path_join dir (vault_executable env)) = true ->
  index <> kInvalidIndex env ->
  exists w',
    HandleStartVaultRequest env relock_blocks request response w =
      Returns
        (WrapMessage env kStartVaultResponse
           (SerializeToString
              {| start_result := announces_within env 3 index |})) w' /\
    effects w' =
      effects w ++
      [create_directories dir] ++
      (if exists_file env bootstrap then [] else [copy_file global bootstrap]) ++
      [AddProcess arguments (local_port_ w);
       StartProcess index;
       WriteFile (config_file_path_ w)
         (config_bytes env (update_interval_ w) infos);
       wait_for 3 index].
Proof.
  cbv zeta. intros Hparse Hheld Hdirs Hboot Hexe Hindex.
  unfold HandleStartVaultRequest. rewrite Hparse.
  destruct w as [infos0 interval port path held' effs].
  cbn [held vault_infos_ update_interval_ local_port_ config_file_path_
       effects] in *.
  subst held'.
  unfold HandleBootstrapFile, AddVaultToProcesses, WriteConfigFile,
    wait_for_vault_requested, new_vault_info.
  unfold lock_guard, get_world, set_held, effect, set_vault_infos_,
    mbind, VM_bind, mret, VM_ret.
  cbn -[config_bytes vault_arguments path_join].
  rewrite Hdirs. cbn -[config_bytes vault_arguments path_join].
  assert (Hcopied :
    exists_file env
      (path_join (parent_path env path)
         ("bootstrap-" +:+
          short_id env (identity (ParseKeys env (start_keys req))) +:+
          ".dat")) = false ->
    copy_file_ok env (path_join (parent_path env path) "bootstrap-global.dat")
      (path_join (parent_path env path)
         ("bootstrap-" +:+
          short_id env (identity (ParseKeys env (start_keys req))) +:+
          ".dat")) = true)
    by (intros Hex; destruct Hboot as [Hboot | Hboot]; congruence).
  clear Hboot.
  destruct (exists_file env _) eqn:Hex;
    cbn -[config_bytes vault_arguments path_join];
    rewrite ?Hcopied by reflexivity;
    cbn -[config_bytes vault_arguments path_join];
    rewrite Hexe; cbn -[config_bytes vault_arguments path_join];
    (destruct (Z.eqb_spec
                 (AddProcess_index env
                    (vault_arguments env
                       (path_join (parent_path env path)
                          (short_id env
                             (identity (ParseKeys env (start_keys req)))))
                       0 (bootstrap_endpoint req)) port)
                 (kInvalidIndex env)) as [Heq | _]; [contradiction |]);
    cbn -[config_bytes vault_arguments path_join];
    destruct (WriteFile_ok env _ _);
    cbn -[config_bytes vault_arguments path_join];
    destruct (announces_within env _ _);
    cbn -[config_bytes vault_arguments path_join];
    eexists; (split; [reflexivity |]);
    cbn [effects]; rewrite <- !app_assoc; reflexivity.
Qed.

(** C7, what the code does. A stop request that names a registered vault
    and fails validation gets [result = false], and [StopVault] is called all
    the same: the process is stopped, [requested_to_run] cleared and the
    config file rewritten.  Where relocking [vault_infos_mutex_] blocks, the
    handler never gets that far and no response is produced at all. *)
Theorem HandleStopVaultRequest_bad_signature
    (w : World) (request response : string) (req : StopVaultRequest)
    (i : nat) (v : VaultInfo) :
  ParseProtobuf request = Some req ->
  held w = [] ->
  FindFromIdentity (stop_identity req) (vault_infos_ w) = Some (i, v) ->
  Validate env (stop_data req) (stop_signature req) (public_key (keys v))
    = false ->
  (relock_blocks = true ->
   exists w', HandleStopVaultRequest env relock_blocks request response w =
                Blocks w' /\
              effects w' = effects w) /\
  (relock_blocks = false ->
   exists w', HandleStopVaultRequest env relock_blocks request response w =
                Returns
                  (WrapMessage env kVaultShutdownResponse
                     (SerializeToString {| stop_result := false |})) w' /\
              vault_infos_ w' =
                <[ i := set_requested_to_run false v ]> (vault_infos_ w) /\
              effects w' =
                effects w ++
                [StopProcess (process_index v);
                 WriteFile (config_file_path_ w)
                   (config_bytes env (update_interval_ w)
                      (<[ i := set_requested_to_run false v ]>
                         (vault_infos_ w)));
                 notify_all]).
Proof.
  intros Hparse Hheld Hfind Hbad.
  rewrite (HandleStopVaultRequest_runs w request response req i v
             Hparse Hheld Hfind).
  rewrite Hbad. split; intros ->; eexists; split_and!; reflexivity.
Qed.

(** ** What the handlers keep, and the rest of the manager *)

(** Effects other than [Send] leave [sent] as it is. *)
Ltac sent_same :=
  unfold sent; cbn [effects]; rewrite ?omap_app; cbn [omap];
  rewrite ?app_nil_r; reflexivity.

Lemma registration_insert (l : list VaultInfo) (i : nat) (v v' : VaultInfo) :
  l !! i = Some v -> registration v' = registration v ->
  map registration (<[ i := v' ]> l) = map registration l.
Proof.
  intros Hl Hr. rewrite list_fmap_insert, Hr.
  apply list_insert_id. rewrite list_lookup_fmap, Hl. reflexivity.
Qed.

Lemma registration_mark (l : list VaultInfo) (index : Z) :
  map registration
    (map (fun v => if (process_index v =? index)%Z
                   then set_vault_requested true v else v) l) =
  map registration l.
Proof.
  rewrite map_map. apply map_ext. intros v.
  destruct (process_index v =? index)%Z; reflexivity.
Qed.

(** An update-interval request never blocks. Without a new interval it
    reports the current one; with one between five minutes and seven days
    it sets it, re-arms the update timer and reports it; with one outside
    these bounds it reports 0 and leaves the manager as it was. *)
Theorem HandleUpdateIntervalRequest_bounds (w : World) (request response : string)
    (req : UpdateIntervalRequest) :
  ParseProtobuf request = Some req ->
  held w = [] ->
  HandleUpdateIntervalRequest env relock_blocks request response w =
    let wrap i :=
      WrapMessage env kUpdateIntervalResponse
        (SerializeToString {| update_interval := i |}) in
    match new_update_interval req with
    | None => Returns (wrap (update_interval_ w)) w
    | Some n =>
      if ((n <? kMinUpdateInterval) || (n >? kMaxUpdateInterval))%Z
      then Returns (wrap 0%Z) w
      else Returns (wrap n)
             (mkWorld (vault_infos_ w) n (local_port_ w)
                (config_file_path_ w) []
                (effects w ++
                 [update_timer_expires_from_now n; update_timer_async_wait]))
    end.
Proof.
  intros Hparse Hheld.
  unfold HandleUpdateIntervalRequest. rewrite Hparse.
  destruct w as [infos interval port path held' effs]. simpl in Hheld.
  subst held'.
  destruct (new_update_interval req) as [n |].
  - unfold SetUpdateInterval, GetUpdateInterval. vm_unfold.
    destruct ((n <? kMinUpdateInterval)%Z || (n >? kMaxUpdateInterval)%Z);
      cbn; rewrite <- ?app_assoc; reflexivity.
  - unfold GetUpdateInterval. vm_unfold. cbn. reflexivity.
Qed.


(** An identity request is answered from the first record with the index
    it names: with the record's account name and serialised keys, marking
    the record [vault_requested] and notifying its waiter; when no record
    has the index, or the keys do not serialise, with two empty fields and
    nothing changed. *)
Theorem HandleVaultIdentityRequest_answers (w : World) (request response : string)
    (req : VaultIdentityRequest) :
  ParseProtobuf request = Some req ->
  held w = [] ->
  HandleVaultIdentityRequest env relock_blocks request response w =
    let wrap r :=
      WrapMessage env kVaultIdentityResponse (SerializeToString r) in
    match list_find (fun v => process_index v = request_process_index req)
                    (vault_infos_ w) with
    | None => Returns (wrap (mkVaultIdentityResponse "" "")) w
    | Some (i, v) =>
      match SerialiseKeys env (keys v) with
      | None => Returns (wrap (mkVaultIdentityResponse "" "")) w
      | Some serialised_keys =>
        Returns (wrap (mkVaultIdentityResponse (account_name v) serialised_keys))
          (mkWorld (<[ i := set_vault_requested true v ]> (vault_infos_ w))
             (update_interval_ w) (local_port_ w) (config_file_path_ w) []
             (effects w ++ [notify_one (process_index v)]))
      end
    end.
Proof.
  intros Hparse Hheld.
  unfold HandleVaultIdentityRequest. rewrite Hparse.
  destruct w as [infos interval port path held' effs]. simpl in Hheld.
  subst held'. vm_unfold. cbn -[list_find].
  destruct (list_find _ infos) as [[i v] |]; cbn -[list_find];
    [destruct (SerialiseKeys env (keys v)) |]; reflexivity.
Qed.


Lemma list_find_lookup {A} (P : A -> Prop) `{forall x, Decision (P x)}
    (l : list A) (i : nat) (x : A) :
  list_find P l = Some (i, x) -> l !! i = Some x.
Proof. intros Hfind. by apply list_find_Some in Hfind as (? & _). Qed.

(** Runs a handler on a world that holds no mutex, through every branch. *)
Ltac run_handler :=
  vm_unfold;
  cbn -[config_bytes vault_arguments path_join list_find FindFromIdentity
        Z.ltb Z.gtb kMinUpdateInterval kMaxUpdateInterval];
  repeat (case_match; simplify_eq;
          cbn -[config_bytes vault_arguments path_join list_find
                FindFromIdentity Z.ltb Z.gtb kMinUpdateInterval
                kMaxUpdateInterval] in * ).

Ltac steady_leaf :=
  unfold steady, sent;
  cbn [held effects vault_infos_ update_interval_ local_port_
       config_file_path_];
  rewrite ?omap_app; cbn [omap]; rewrite ?app_nil_r;
  split_and!;
  first
    [ done
    | lia
    | by erewrite registration_insert
        by (first [eapply list_find_lookup; eassumption | reflexivity])
    | rewrite ?registration_mark, ?map_app; by apply prefix_app_r ].

Lemma HandlePing_steady w request response reply w' :
  HandlePing (Ping := Ping) env request response w = Returns reply w' ->
  w' = w.
Proof.
  unfold HandlePing. destruct (ParseProtobuf request); by intros [= _ <-].
Qed.

Lemma HandleUpdateIntervalRequest_steady w request response reply w' :
  held w = [] ->
  HandleUpdateIntervalRequest env relock_blocks request response w =
    Returns reply w' ->
  steady w w'.
Proof.
  intros Hheld.
  destruct w as [infos interval port path held' effs]. simpl in Hheld.
  subst held'.
  unfold HandleUpdateIntervalRequest, SetUpdateInterval, GetUpdateInterval.
  run_handler; intros [= _ <-]; try steady_leaf.
Qed.

Lemma HandleVaultIdentityRequest_steady w request response reply w' :
  held w = [] ->
  HandleVaultIdentityRequest env relock_blocks request response w =
    Returns reply w' ->
  steady w w'.
Proof.
  intros Hheld.
  destruct w as [infos interval port path held' effs]. simpl in Hheld.
  subst held'.
  unfold HandleVaultIdentityRequest.
  run_handler; intros [= _ <-]; steady_leaf.
Qed.

Lemma HandleStopVaultRequest_steady w request response reply w' :
  held w = [] ->
  HandleStopVaultRequest env relock_blocks request response w =
    Returns reply w' ->
  steady w w'.
Proof.
  intros Hheld.
  destruct w as [infos interval port path held' effs]. simpl in Hheld.
  subst held'.
  unfold HandleStopVaultRequest, StopVault, WriteConfigFile.
  run_handler; intros [= _ <-]; steady_leaf.
Qed.

Lemma HandleStartVaultRequest_steady w request response reply w' :
  held w = [] ->
  HandleStartVaultRequest env relock_blocks request response w =
    Returns reply w' ->
  steady w w'.
Proof.
  intros Hheld.
  destruct w as [infos interval port path held' effs]. simpl in Hheld.
  subst held'.
  unfold HandleStartVaultRequest, HandleBootstrapFile, AddVaultToProcesses,
    WriteConfigFile, wait_for_vault_requested.
  run_handler; intros [= _ <-]; steady_leaf.
Qed.


Lemma HandleReceivedMessage_steady (w w' : World) (message : string)
    (peer_port : Z) :
  held w = [] ->
  HandleReceivedMessage (Ping := Ping) env relock_blocks message peer_port w =
    Returns tt w' ->
  exists w1 replies,
    steady w w1 /\
    w' = mkWorld (vault_infos_ w1) (update_interval_ w1) (local_port_ w1)
           (config_file_path_ w1) (held w1)
           (effects w1 ++ map (fun r => Send r peer_port) replies) /\
    match UnwrapMessage env message with
    | Some (type, _) =>
      if is_request type then exists r, replies = [r] else replies = []
    | None => replies = []
    end.
Proof.
  intros Hheld.
  assert (Hsame : steady w w).
  { unfold steady. split_and!; done. }
  assert (Hnone : w' = w -> exists w1 replies,
    steady w w1 /\
    w' = mkWorld (vault_infos_ w1) (update_interval_ w1) (local_port_ w1)
           (config_file_path_ w1) (held w1)
           (effects w1 ++ map (fun r => Send r peer_port) replies) /\
    replies = @nil string).
  { intros ->. exists w, []. split_and!; try done.
    destruct w; cbn. by rewrite app_nil_r. }
  unfold HandleReceivedMessage.
  destruct (UnwrapMessage env message) as [[type payload] |];
    [| intros [= <-]; by apply Hnone].
  assert (Hsome : forall handler : VM string,
    (forall reply w1, handler w = Returns reply w1 -> steady w w1) ->
    (response' ← handler; effect (Send response' peer_port)) w =
      Returns tt w' ->
    exists w1 replies,
      steady w w1 /\
      w' = mkWorld (vault_infos_ w1) (update_interval_ w1) (local_port_ w1)
             (config_file_path_ w1) (held w1)
             (effects w1 ++ map (fun r => Send r peer_port) replies) /\
      exists r, replies = [r]).
  { intros handler Hhandler. unfold mbind, VM_bind, effect.
    destruct (handler w) as [reply w1 |] eqn:Hrun; [| discriminate].
    intros [= <-]. exists w1, [reply]. split_and!; eauto. }
  destruct type; cbn [is_request];
    try (intros [= <-]; by apply Hnone);
    apply Hsome; intros reply w1 Hrun.
  - by apply HandlePing_steady in Hrun as ->.
  - by eapply HandleStartVaultRequest_steady.
  - by eapply HandleVaultIdentityRequest_steady.
  - by eapply HandleStopVaultRequest_steady.
  - by eapply HandleUpdateIntervalRequest_steady.
Qed.

(** Every handled request is answered with exactly one message, sent to the
    port it came from; a message that does not unwrap, or whose tag is not
    a request's, is answered with none. *)
Theorem one_reply_per_request (w w' : World) (message : string)
    (peer_port : Z) :
  held w = [] ->
  HandleReceivedMessage (Ping := Ping) env relock_blocks message peer_port w =
    Returns tt w' ->
  match UnwrapMessage env message with
  | Some (kPing, _) | Some (kStartVaultRequest, _)
  | Some (kVaultIdentityRequest, _) | Some (kStopVaultRequest, _)
  | Some (kUpdateIntervalRequest, _) =>
    exists reply, sent w' = sent w ++ [(reply, peer_port)]
  | _ => sent w' = sent w
  end.
Proof.
  intros Hheld Hrun.
  destruct (HandleReceivedMessage_steady w w' message peer_port Hheld Hrun)
    as (w1 & replies & (_ & Hsent & _) & -> & Hreplies).
  unfold sent in *. cbn [effects]. rewrite omap_app, Hsent.
  destruct (UnwrapMessage env message) as [[[] payload] |];
    cbn [is_request] in Hreplies;
    lazymatch type of Hreplies with
    | ex _ => destruct Hreplies as [r ->]; by exists r
    | _ => subst replies; cbn; by rewrite app_nil_r
    end.
Qed.

(** No message takes the update interval out of its bounds of five minutes
    and seven days. *)
Theorem update_interval_stays_in_bounds (w w' : World) (message : string)
    (peer_port : Z) :
  held w = [] ->
  HandleReceivedMessage (Ping := Ping) env relock_blocks message peer_port w =
    Returns tt w' ->
  (kMinUpdateInterval <= update_interval_ w <= kMaxUpdateInterval)%Z ->
  (kMinUpdateInterval <= update_interval_ w' <= kMaxUpdateInterval)%Z.
Proof.
  intros Hheld Hrun.
  destruct (HandleReceivedMessage_steady w w' message peer_port Hheld Hrun)
    as (w1 & replies & (_ & _ & _ & _ & Hinterval & _) & -> & _).
  exact Hinterval.
Qed.

(** No message makes the manager forget a vault or change what one is
    registered with: the records keep their order, index, account, keys,
    chunk store and ports, and new ones are added at the end. *)
Theorem registrations_kept (w w' : World) (message : string)
    (peer_port : Z) :
  held w = [] ->
  HandleReceivedMessage (Ping := Ping) env relock_blocks message peer_port w =
    Returns tt w' ->
  map registration (vault_infos_ w) `prefix_of`
    map registration (vault_infos_ w').
Proof.
  intros Hheld Hrun.
  destruct (HandleReceivedMessage_steady w w' message peer_port Hheld Hrun)
    as (w1 & replies & (_ & _ & _ & _ & _ & Hprefix) & -> & _).
  exact Hprefix.
Qed.

(** A handler that returns has released the mutexes it took, and leaves the
    listening port and the path of the config file as they were. *)
Theorem handlers_release_mutexes (w w' : World) (message : string)
    (peer_port : Z) :
  held w = [] ->
  HandleReceivedMessage (Ping := Ping) env relock_blocks message peer_port w =
    Returns tt w' ->
  held w' = [] /\
  local_port_ w' = local_port_ w /\
  config_file_path_ w' = config_file_path_ w.
Proof.
  intros Hheld Hrun.
  destruct (HandleReceivedMessage_steady w w' message peer_port Hheld Hrun)
    as (w1 & replies & (Hheld' & _ & Hport & Hpath & _) & -> & _).
  done.
Qed.

(** A start request that fails before the vault is spawned (the bootstrap
    file cannot be set up, the executable is not found, or the process
    manager gives no index) is answered with [result = false]; no record is
    added, no process started and nothing written. *)
Theorem HandleStartVaultRequest_not_spawned (w : World)
    (request response : string) (req : StartVaultRequest) :
  let dir := parent_path env (config_file_path_ w) in
  let id := short_id env (identity (ParseKeys env (start_keys req))) in
  let bootstrap := path_join dir ("bootstrap-" +:+ id +:+ ".dat") in
  let global := path_join dir "bootstrap-global.dat" in
  let arguments :=
    vault_arguments env (path_join dir id) 0 (bootstrap_endpoint req) in
  ParseProtobuf request = Some req ->
  create_directories_ok env dir = false \/
  (exists_file env bootstrap = false /\
   copy_file_ok env global bootstrap = false) \/
  SetExecutablePath env (path_join dir (vault_executable env)) = false \/
  AddProcess_index env arguments (local_port_ w) = kInvalidIndex env ->
  exists w',
    HandleStartVaultRequest env relock_blocks request response w =
      Returns
        (WrapMessage env kStartVaultResponse
           (SerializeToString {| start_result := false |})) w' /\
    vault_infos_ w' = vault_infos_ w /\
    held w' = held w /\
    forall e, e ∈ effects w' ->
      e ∈ effects w \/
      match e with
      | create_directories _ | copy_file _ _ | AddProcess _ _ => True
      | _ => False
      end.
Proof.
  cbv zeta. intros Hparse Hfail.
  unfold HandleStartVaultRequest. rewrite Hparse.
  destruct w as [infos interval port path held' effs].
  cbn [held vault_infos_ update_interval_ local_port_ config_file_path_
       effects] in *.
  unfold HandleBootstrapFile, AddVaultToProcesses.
  vm_unfold.
  cbn -[config_bytes vault_arguments path_join].
  assert (Hleaf : forall es,
    Forall (fun e => match e with
                     | create_directories _ | copy_file _ _ | AddProcess _ _ =>
                       True
                     | _ => False
                     end) es ->
    forall e, e ∈ effs ++ es ->
      e ∈ effs \/
      match e with
      | create_directories _ | copy_file _ _ | AddProcess _ _ => True
      | _ => False
      end).
  { intros es Hes e [He | He]%elem_of_app; [by left | right].
    by eapply Forall_forall in Hes. }
  repeat (case_match; simplify_eq;
          cbn -[config_bytes vault_arguments path_join] in * );
    repeat match goal with
           | H : negb _ = true |- _ => apply negb_true_iff in H
           | H : negb _ = false |- _ => apply negb_false_iff in H
           | H : (_ =? _)%Z = true |- _ => apply Z.eqb_eq in H
           | H : (_ =? _)%Z = false |- _ => apply Z.eqb_neq in H
           end;
    first
      [ by (exfalso; destruct Hfail as [? | [[? ?] | [? | ?]]]; congruence)
      | eexists; split_and!;
        [ reflexivity | reflexivity | reflexivity
        | cbn [effects]; rewrite <- ?app_assoc; apply Hleaf;
          repeat constructor ] ].
Qed.


(** A start request that gets as far as spawning the vault registers the
    record of [new_vault_info] at the end of the list. *)
Lemma HandleStartVaultRequest_registers (w : World)
    (request response : string) (req : StartVaultRequest) :
  let dir := parent_path env (config_file_path_ w) in
  let id := short_id env (identity (ParseKeys env (start_keys req))) in
  let bootstrap := path_join dir ("bootstrap-" +:+ id +:+ ".dat") in
  let global := path_join dir "bootstrap-global.dat" in
  let arguments :=
    vault_arguments env (path_join dir id) 0 (bootstrap_endpoint req) in
  let index := AddProcess_index env arguments (local_port_ w) in
  let infos := vault_infos_ w ++ [new_vault_info env w req index] in
  ParseProtobuf request = Some req ->
  held w = [] ->
  create_directories_ok env dir = true ->
  exists_file env bootstrap = true \/ copy_file_ok env global bootstrap = true ->
  SetExecutablePath env (path_join dir (vault_executable env)) = true ->
  index <> kInvalidIndex env ->
  exists reply w',
    HandleStartVaultRequest env relock_blocks request response w =
      Returns reply w' /\
    held w' = [] /\
    vault_infos_ w' =
      if announces_within env 3 index
      then map (fun v => if (process_index v =? index)%Z
                         then set_vault_requested true v else v) infos
      else infos.
Proof.
  cbv zeta. intros Hparse Hheld Hdirs Hboot Hexe Hindex.
  unfold HandleStartVaultRequest. rewrite Hparse.
  destruct w as [infos0 interval port path held' effs].
  cbn [held vault_infos_ update_interval_ local_port_ config_file_path_
       effects] in *.
  subst held'.
  unfold HandleBootstrapFile, AddVaultToProcesses, WriteConfigFile,
    wait_for_vault_requested, new_vault_info.
  vm_unfold.
  cbn -[config_bytes vault_arguments path_join].
  repeat (case_match; simplify_eq;
          cbn -[config_bytes vault_arguments path_join] in * );
    repeat match goal with
           | H : negb _ = true |- _ => apply negb_true_iff in H
           | H : negb _ = false |- _ => apply negb_false_iff in H
           | H : (_ =? _)%Z = true |- _ => apply Z.eqb_eq in H
           | H : (_ =? _)%Z = false |- _ => apply Z.eqb_neq in H
           end;
    first
      [ by (exfalso; destruct Hboot; congruence)
      | eexists _, _; split_and!; reflexivity ].
Qed.

(** The handshake of a start. An identity request that names the index of
    a vault just started, handled once the start request has been, is
    answered with the account name and the keys the client gave in its
    start request; the record is marked [vault_requested] and its waiter
    notified. *)
Theorem start_then_identity_handshake (w : World)
    (request identity_request : string) (req : StartVaultRequest)
    (serialised_keys : string) :
  let dir := parent_path env (config_file_path_ w) in
  let id := short_id env (identity (ParseKeys env (start_keys req))) in
  let bootstrap := path_join dir ("bootstrap-" +:+ id +:+ ".dat") in
  let global := path_join dir "bootstrap-global.dat" in
  let arguments :=
    vault_arguments env (path_join dir id) 0 (bootstrap_endpoint req) in
  let index := AddProcess_index env arguments (local_port_ w) in
  ParseProtobuf request = Some req ->
  held w = [] ->
  create_directories_ok env dir = true ->
  exists_file env bootstrap = true \/ copy_file_ok env global bootstrap = true ->
  SetExecutablePath env (path_join dir (vault_executable env)) = true ->
  index <> kInvalidIndex env ->
  Forall (fun v => process_index v <> index) (vault_infos_ w) ->
  ParseProtobuf identity_request =
    Some {| request_process_index := index |} ->
  SerialiseKeys env (ParseKeys env (start_keys req)) = Some serialised_keys ->
  exists reply w1 w2,
    HandleStartVaultRequest env relock_blocks request "" w =
      Returns reply w1 /\
    HandleVaultIdentityRequest env relock_blocks identity_request "" w1 =
      Returns
        (WrapMessage env kVaultIdentityResponse
           (SerializeToString
              {| response_account_name := start_account_name req;
                 response_keys := serialised_keys |})) w2 /\
    vault_infos_ w2 !! List.length (vault_infos_ w) =
      Some (set_vault_requested true (new_vault_info env w req index)) /\
    effects w2 = effects w1 ++ [notify_one index].
Proof.
  cbv zeta.
  intros Hparse Hheld Hdirs Hboot Hexe Hindex Hfresh Hparse' Hkeys.
  destruct (HandleStartVaultRequest_registers w request "" req
              Hparse Hheld Hdirs Hboot Hexe Hindex)
    as (reply & w1 & Hstart & Hheld1 & Hinfos1).
  cbv zeta in Hinfos1.
  set (index := AddProcess_index env _ _) in *.
  set (new := new_vault_info env w req index) in *.
  set (mark := fun v => if (process_index v =? index)%Z
                        then set_vault_requested true v else v) in *.
  assert (Hfind : exists v,
    list_find (fun v => process_index v = index) (vault_infos_ w1) =
      Some (List.length (vault_infos_ w), v) /\
    set_vault_requested true v = set_vault_requested true new /\
    List.length (vault_infos_ w) < List.length (vault_infos_ w1)).
  { assert (Hnone : list_find (fun v => process_index v = index)
                      (vault_infos_ w) = None).
    { apply list_find_None. exact Hfresh. }
    assert (Hplain : list_find (fun v => process_index v = index)
                       (vault_infos_ w ++ [new]) =
                     Some (List.length (vault_infos_ w), new)).
    { apply list_find_app_Some. right. split_and!; [lia | done |].
      rewrite Nat.sub_diag. cbn. rewrite decide_True by reflexivity.
      reflexivity. }
    rewrite Hinfos1. destruct (announces_within env 3 index).
    - exists (mark new). split_and!.
      + change (map mark ?l) with (mark <$> l). rewrite list_find_fmap.
        erewrite list_find_ext, Hplain; [reflexivity |].
        intros v. unfold compose, mark.
        by destruct (process_index v =? index)%Z.
      + unfold mark. by destruct (process_index new =? index)%Z.
      + rewrite length_map, length_app. cbn. lia.
    - exists new. split_and!; [done | done |].
      rewrite length_app. cbn. lia. }
  destruct Hfind as (v & Hfind & Hv & Hlen).
  assert (Hacc : account_name v = start_account_name req /\
                 keys v = ParseKeys env (start_keys req) /\
                 process_index v = index).
  { apply list_find_Some in Hfind as (_ & Hidx & _).
    apply (f_equal account_name) in Hv as Ha.
    apply (f_equal keys) in Hv as Hk. by split_and!. }
  destruct Hacc as (Ha & Hk & Hi).
  destruct w1 as [infos1 interval1 port1 path1 held1 effs1].
  cbn [held vault_infos_ effects] in *. subst held1.
  eexists reply, _, _. split; [exact Hstart |].
  unfold HandleVaultIdentityRequest. rewrite Hparse'.
  vm_unfold. cbn -[list_find]. rewrite Hfind. cbn -[list_find].
  rewrite Hk, Hkeys. cbn -[list_find]. rewrite Ha, Hi.
  split_and!; [reflexivity | | reflexivity].
  cbn [vault_infos_]. rewrite list_lookup_insert_eq by exact Hlen.
  by rewrite Hv.
Qed.

Variable ReadFile : string -> option string.
Variable kConfigFileName : string.

(** The loop of [ReadConfigFile]: the records of the entries the process
    manager takes are appended in order, and those marked
    [requested_to_run] are started. *)
Lemma read_vault_infos_runs (entries : list pb_VaultInfo) (w : World) :
  SetExecutablePath env
    (path_join (parent_path env (config_file_path_ w))
               (vault_executable env)) = true ->
  exists w',
    read_vault_infos env entries w = Returns tt w' /\
    vault_infos_ w' = vault_infos_ w ++ omap (restored env w) entries /\
    update_interval_ w' = update_interval_ w /\
    local_port_ w' = local_port_ w /\
    config_file_path_ w' = config_file_path_ w /\
    held w' = held w /\
    started w' =
      started w ++
      map process_index
        (List.filter requested_to_run (omap (restored env w) entries)).
Proof.
  revert w. induction entries as [| pb rest IH]; intros w Hexe.
  - eexists. split; [reflexivity |]. cbn. rewrite !app_nil_r. done.
  - cbn [read_vault_infos]. unfold AddVaultToProcesses. vm_unfold.
    rewrite Hexe. cbn [negb].
    set (vault_info := FromProtobuf env pb VaultInfo_new).
    set (index := AddProcess_index env _ _).
    assert (Hrestored : restored env w pb =
              if (index =? kInvalidIndex env)%Z then None
              else Some (set_process_index index vault_info))
      by reflexivity.
    cbn [omap list_omap]. rewrite Hrestored.
    destruct (index =? kInvalidIndex env)%Z.
    + match goal with
      | |- context [read_vault_infos env rest ?w1] =>
        destruct (IH w1) as (w' & Hrun & Hinfos & ? & ? & ? & ? & Hstarted);
          [exact Hexe |]
      end.
      exists w'. split; [exact Hrun |].
      rewrite Hinfos, Hstarted. unfold started. cbn [effects vault_infos_].
      rewrite omap_app. cbn [omap list_omap]. rewrite app_nil_r.
      split_and!; done.
    + destruct (requested_to_run vault_info) eqn:Hrun'.
      * match goal with
        | |- context [read_vault_infos env rest ?w1] =>
          destruct (IH w1) as (w' & Hrun & Hinfos & ? & ? & ? & ? & Hstarted);
            [exact Hexe |]
        end.
        exists w'. split; [exact Hrun |].
        rewrite Hinfos, Hstarted. unfold started.
        cbn [effects vault_infos_ List.filter requested_to_run
             set_process_index map process_index].
        rewrite Hrun'. cbn [map process_index set_process_index].
        rewrite !omap_app. cbn [omap list_omap]. rewrite app_nil_r, <- !app_assoc.
        split_and!; done.
      * match goal with
        | |- context [read_vault_infos env rest ?w1] =>
          destruct (IH w1) as (w' & Hrun & Hinfos & ? & ? & ? & ? & Hstarted);
            [exact Hexe |]
        end.
        exists w'. split; [exact Hrun |].
        rewrite Hinfos, Hstarted. unfold started.
        cbn [effects vault_infos_ List.filter requested_to_run
             set_process_index].
        rewrite Hrun'.
        rewrite !omap_app. cbn [omap list_omap]. rewrite app_nil_r, <- !app_assoc.
        split_and!; done.
Qed.


(** [ReadConfigFile] on a readable file that parses: the interval of the
    file is taken as it is, the records of the entries the process manager
    takes are appended in the order of the file, and exactly those of them
    marked [requested_to_run] are started. *)
Theorem ReadConfigFile_restores (w : World) (content : string)
    (config : VaultManagerConfig) :
  ReadFile (config_file_path_ w) = Some content ->
  (String.length content =? 1)%nat && InTestMode kConfigFileName w = false ->
  ParseProtobuf content = Some config ->
  SetExecutablePath env
    (path_join (parent_path env (config_file_path_ w))
               (vault_executable env)) = true ->
  let restored_infos := omap (restored env w) (config_vault_info config) in
  exists w',
    ReadConfigFile env ReadFile kConfigFileName w = Returns true w' /\
    update_interval_ w' = config_update_interval config /\
    vault_infos_ w' = vault_infos_ w ++ restored_infos /\
    started w' =
      started w ++
      map process_index (List.filter requested_to_run restored_infos).
Proof.
  intros Hread Hsize Hparse Hexe. cbv zeta.
  unfold ReadConfigFile. vm_unfold. rewrite Hread, Hsize, Hparse.
  destruct (read_vault_infos_runs (config_vault_info config)
              (mkWorld (vault_infos_ w) (config_update_interval config)
                 (local_port_ w) (config_file_path_ w) (held w) (effects w))
              Hexe)
    as (w' & Hrun & Hinfos & Hinterval & _ & _ & _ & Hstarted).
  rewrite Hrun. exists w'. split_and!; done.
Qed.

(** [ReadConfigFile] always returns; it returns [false] exactly when the
    file cannot be read or (outside the one-byte file of the test mode)
    does not parse, and then the manager is as it was; so it is on the
    one-byte file of the test mode. *)
Theorem ReadConfigFile_rejects (w : World) :
  exists result w',
    ReadConfigFile env ReadFile kConfigFileName w = Returns result w' /\
    (result = false <->
     match ReadFile (config_file_path_ w) with
     | None => True
     | Some content =>
       (String.length content =? 1)%nat && InTestMode kConfigFileName w =
         false /\
       ParseProtobuf (T := VaultManagerConfig) content = None
     end) /\
    (result = false -> w' = w) /\
    (forall content,
       ReadFile (config_file_path_ w) = Some content ->
       (String.length content =? 1)%nat && InTestMode kConfigFileName w =
         true ->
       result = true /\ w' = w).
Proof.
  unfold ReadConfigFile. vm_unfold.
  destruct (ReadFile (config_file_path_ w)) as [content |].
  2:{ eexists _, _. split; [reflexivity |]. split; [| split]; done. }
  destruct ((String.length content =? 1)%nat && InTestMode kConfigFileName w)
    eqn:Hsize.
  { eexists _, _. split; [reflexivity |]. split; [| split].
    - split; [done | intros [? _]; done].
    - done.
    - intros ? [= <-] _. done. }
  destruct (ParseProtobuf content) as [config |] eqn:Hparse.
  2:{ eexists _, _. split; [reflexivity |]. split; [| split].
      - done.
      - done.
      - intros ? [= <-]. congruence. }
  destruct (read_vault_infos env (config_vault_info config) _)
    as [[] w' | w'] eqn:Hrun.
  - eexists _, _. split; [reflexivity |]. split; [| split].
    + split; [done | intros [_ ?]; done].
    + done.
    + intros ? [= <-]. congruence.
  - exfalso. revert Hrun. generalize (config_vault_info config).
    intros entries.
    match goal with |- read_vault_infos env entries ?w0 = _ -> _ =>
      generalize w0 end.
    induction entries as [| pb rest IH]; intros w0; [done |].
    cbn [read_vault_infos]. unfold AddVaultToProcesses. vm_unfold.
    repeat (case_match; simplify_eq); try done; eauto.
Qed.

(** What [WriteConfigFile] writes, [ReadConfigFile] reads back. On the
    bytes written for an interval and a list of records (with a codec that
    reads back what it writes, and vaults the process manager takes) it
    sets that interval and appends records with the same account names,
    keys, chunk stores and [requested_to_run] flags, in the same order. *)
Theorem config_file_round_trip (w : World) (interval : Z)
    (infos : list VaultInfo) :
  let content := config_bytes env interval infos in
  ReadFile (config_file_path_ w) = Some content ->
  (String.length content =? 1)%nat && InTestMode kConfigFileName w = false ->
  ParseProtobuf content =
    Some {| config_update_interval := interval;
            config_vault_info := map (ToProtobuf env) infos |} ->
  Forall (fun v =>
            ParseKeys env (default "" (SerialiseKeys env (keys v))) = keys v)
         infos ->
  SetExecutablePath env
    (path_join (parent_path env (config_file_path_ w))
               (vault_executable env)) = true ->
  Forall (fun v =>
            AddProcess_index env
              (vault_arguments env (chunkstore_path v)
                 (chunkstore_capacity v) "")
              (local_port_ w) <> kInvalidIndex env)
         infos ->
  exists w',
    ReadConfigFile env ReadFile kConfigFileName w = Returns true w' /\
    update_interval_ w' = interval /\
    map persisted (vault_infos_ w') =
      map persisted (vault_infos_ w) ++ map persisted infos.
Proof.
  cbv zeta. intros Hread Hsize Hparse Hkeys Hexe Hindex.
  unfold ReadConfigFile. vm_unfold. rewrite Hread, Hsize, Hparse.
  cbn [config_update_interval config_vault_info].
  destruct (read_vault_infos_runs (map (ToProtobuf env) infos)
              (mkWorld (vault_infos_ w) interval
                 (local_port_ w) (config_file_path_ w) (held w) (effects w))
              Hexe)
    as (w' & Hrun & Hinfos & Hinterval & _ & _ & _ & _).
  rewrite Hrun. exists w'. split_and!; [done | done |].
  rewrite Hinfos, map_app. cbn [vault_infos_]. f_equal.
  clear -Hkeys Hindex.
  induction infos as [| v rest IH]; [done |].
  apply Forall_cons in Hkeys as [Hk Hkeys].
  apply Forall_cons in Hindex as [Hi Hindex].
  cbn [map omap list_omap]. unfold restored at 1.
  cbn [FromProtobuf ToProtobuf chunkstore_path chunkstore_capacity
       pb_chunkstore_path pb_chunkstore_capacity local_port_].
  apply Z.eqb_neq in Hi. rewrite Hi. cbn [map]. rewrite IH by done.
  f_equal. unfold persisted. cbn. by rewrite Hk.
Qed.

(** ** Listening and versions *)

Variable StartListening_ok : Z -> bool.
Variable kMaxPort : Z.

Lemma listen_first_free (fuel : nat) (port : Z) :
  (0 <= port <= kMaxPort)%Z -> (kMaxPort < 2 ^ 16 - 1)%Z ->
  (kMaxPort - port < Z.of_nat fuel)%Z ->
  exists p,
    listen StartListening_ok kMaxPort fuel port = Some p /\
    (port <= p <= kMaxPort + 1)%Z /\
    (p <= kMaxPort -> StartListening_ok p = true)%Z /\
    forall q, (port <= q < p)%Z -> StartListening_ok q = false.
Proof.
  revert port. induction fuel as [| fuel IH]; intros port Hport Hmax Hfuel;
    [lia |].
  cbn [listen].
  destruct (StartListening_ok port) eqn:Hok.
  { exists port. split_and!; [done | lia | lia | done | lia]. }
  assert (Hnext : next_port port = (port + 1)%Z).
  { unfold next_port. apply Z.mod_small. lia. }
  rewrite Hnext.
  destruct (Z.gtb_spec (port + 1) kMaxPort) as [Hgt | Hle].
  - exists (port + 1)%Z. split_and!; [done | lia | lia | lia |].
    intros q Hq. by replace q with port by lia.
  - destruct (IH (port + 1)%Z) as (p & Hrun & Hp & Hfree & Hbusy);
      [lia | lia | lia |].
    exists p. split_and!; [done | lia | lia | done |].
    intros q Hq. destruct (decide (q = port)) as [-> | Hne]; [done |].
    apply Hbusy. lia.
Qed.

(** [ListenForMessages] ends on the first port from [local_port_] on which
    the transport starts listening, having been refused on every port
    before it, or one past [kMaxPort] when every port of the range refuses;
    it changes nothing else. *)
Theorem ListenForMessages_first_free (fuel : nat) (w : World) :
  (0 <= local_port_ w <= kMaxPort)%Z -> (kMaxPort < 2 ^ 16 - 1)%Z ->
  (kMaxPort - local_port_ w < Z.of_nat fuel)%Z ->
  exists w',
    ListenForMessages StartListening_ok kMaxPort fuel w = Some w' /\
    (local_port_ w <= local_port_ w' <= kMaxPort + 1)%Z /\
    (local_port_ w' <= kMaxPort ->
     StartListening_ok (local_port_ w') = true)%Z /\
    (forall q, (local_port_ w <= q < local_port_ w')%Z ->
               StartListening_ok q = false) /\
    vault_infos_ w' = vault_infos_ w /\
    update_interval_ w' = update_interval_ w /\
    config_file_path_ w' = config_file_path_ w /\
    effects w' = effects w.
Proof.
  intros Hport Hmax Hfuel.
  destruct (listen_first_free fuel (local_port_ w) Hport Hmax Hfuel)
    as (p & Hrun & Hp & Hfree & Hbusy).
  unfold ListenForMessages. rewrite Hrun. cbn.
  eexists. split; [reflexivity |]. cbn. split_and!; first [done | lia].
Qed.

Context {PlatformType : Type}
        {PlatformType_eq_dec : EqDecision PlatformType}.
Variable TokeniseFileName : string -> option (string * PlatformType * Z).
Variable kThisPlatform : PlatformType.
Variable kInvalidVersion : Z.
Variable GenerateFileName : string -> PlatformType -> string -> string.
Variable directory_stems : string -> option (list string).

Lemma latest_step_cases (application : string) (latest_version : Z)
    (latest_file file_name : string) :
  (latest_step TokeniseFileName kThisPlatform application
     (latest_version, latest_file) file_name =
     (latest_version, latest_file) /\
   forall v, TokeniseFileName file_name =
               Some (application, kThisPlatform, v) ->
             (v <= latest_version)%Z) \/
  (exists v,
     latest_step TokeniseFileName kThisPlatform application
       (latest_version, latest_file) file_name = (v, file_name) /\
     TokeniseFileName file_name = Some (application, kThisPlatform, v) /\
     (latest_version < v)%Z).
Proof.
  unfold latest_step.
  destruct (TokeniseFileName file_name) as [[[app platform] version] |];
    [| by left].
  cbn [fst].
  destruct (String.eqb_spec app application) as [-> | Happ]; cbn [andb];
    [| left; split; [done | congruence]].
  destruct (decide (platform = kThisPlatform)) as [-> | Hplat].
  2:{ rewrite bool_decide_eq_false_2 by done. cbn [andb].
      left; split; [done | congruence]. }
  rewrite bool_decide_eq_true_2 by done. cbn [andb].
  destruct (Z.gtb_spec version latest_version) as [Hgt | Hle].
  - right. exists version. split_and!; [done | done | lia].
  - left. split; [done |]. intros v [= <-]. done.
Qed.

Lemma latest_step_fold (application : string) (names : list string)
    (latest_version : Z) (latest_file : string) :
  let result :=
    fold_left (latest_step TokeniseFileName kThisPlatform application) names
              (latest_version, latest_file) in
  (latest_version <= result.1)%Z /\
  (forall n v, n ∈ names ->
     TokeniseFileName n = Some (application, kThisPlatform, v) ->
     (v <= result.1)%Z) /\
  (result = (latest_version, latest_file) \/
   (latest_version < result.1)%Z /\
   result.2 ∈ names /\
   TokeniseFileName result.2 =
     Some (application, kThisPlatform, result.1)).
Proof.
  cbv zeta. revert latest_version latest_file.
  induction names as [| n rest IH]; intros lv lf.
  { cbn. split_and!; [lia | | by left]. intros ? ? ?%elem_of_nil. done. }
  cbn [fold_left].
  destruct (latest_step_cases application lv lf n)
    as [[-> Hn] | (version & -> & Hn & Hgt)].
  - destruct (IH lv lf) as (Hle & Hmax & Hres).
    split; [done |]. split.
    + intros n' v [-> | Hin]%elem_of_cons Hn'.
      * specialize (Hn v Hn'). lia.
      * by apply (Hmax n').
    + destruct Hres as [-> | (? & ? & ?)]; [by left | right].
      split; [done |]. split; [by right | done].
  - destruct (IH version n) as (Hle & Hmax & Hres).
    split; [lia |]. split.
    + intros n' v [-> | Hin]%elem_of_cons Hn'.
      * rewrite Hn in Hn'. injection Hn' as <-. done.
      * by apply (Hmax n').
    + right. destruct Hres as [-> | (? & ? & ?)].
      * cbn. split; [lia |]. split; [by left | done].
      * split; [lia |]. split; [by right | done].
Qed.

(** [FindLatestLocalVersion] names a file of the directory that stands for
    the application on this platform with the greatest version there, a
    valid one; when the directory holds no such file, or cannot be listed,
    it names the file of version 0.00.00. *)
Theorem FindLatestLocalVersion_greatest (w : World) (application : string) :
  let latest :=
    FindLatestLocalVersion env TokeniseFileName kThisPlatform
      kInvalidVersion GenerateFileName directory_stems w application in
  let default :=
    GenerateFileName application kThisPlatform "0.00.00" in
  match directory_stems (parent_path env (config_file_path_ w)) with
  | None => latest = default
  | Some names =>
    TokeniseFileName "" = None ->
    (exists version,
       latest ∈ names /\
       TokeniseFileName latest =
         Some (application, kThisPlatform, version) /\
       (kInvalidVersion < version)%Z /\
       forall n v, n ∈ names ->
         TokeniseFileName n = Some (application, kThisPlatform, v) ->
         (v <= version)%Z) \/
    (latest = default /\
     forall n v, n ∈ names ->
       TokeniseFileName n = Some (application, kThisPlatform, v) ->
       (v <= kInvalidVersion)%Z)
  end.
Proof.
  cbv zeta. unfold FindLatestLocalVersion.
  destruct (directory_stems _) as [names |]; [| reflexivity].
  intros Hempty.
  pose proof (latest_step_fold application names kInvalidVersion "")
    as (Hle & Hmax & Hres).
  cbv zeta in Hle, Hmax, Hres.
  destruct (fold_left _ names _) as [version file] eqn:Hfold.
  cbn [fst snd] in *.
  destruct Hres as [[= -> ->] | (Hgt & Hin & Htok)].
  - right. cbn. split; [reflexivity | exact Hmax].
  - left. destruct file as [| c file]; [congruence |].
    cbn [empty_string]. exists version. split_and!; done.
Qed.

End Handlers.

(** ** The handlers on a manager that runs one vault *)

Abbreviation stop_vault relock :=
  (HandleStopVaultRequest (Fixture.environment false) relock
     (pb_stop_request := Fixture.StopVaultRequest_pb)
     (pb_stop_response := Fixture.StopVaultResponse_pb)
     (pb_config := Fixture.VaultManagerConfig_pb)).

Abbreviation start_vault announces :=
  (HandleStartVaultRequest (Fixture.environment announces) true
     (pb_start_request := Fixture.StartVaultRequest_pb)
     (pb_start_response := Fixture.StartVaultResponse_pb)
     (pb_config := Fixture.VaultManagerConfig_pb)).

Abbreviation received_message :=
  (HandleReceivedMessage (Fixture.environment false) true
     (pb_ping := Fixture.Ping_pb)
     (pb_start_request := Fixture.StartVaultRequest_pb)
     (pb_start_response := Fixture.StartVaultResponse_pb)
     (pb_identity_request := Fixture.VaultIdentityRequest_pb)
     (pb_identity_response := Fixture.VaultIdentityResponse_pb)
     (pb_stop_request := Fixture.StopVaultRequest_pb)
     (pb_stop_response := Fixture.StopVaultResponse_pb)
     (pb_interval_request := Fixture.UpdateIntervalRequest_pb)
     (pb_interval_response := Fixture.UpdateIntervalResponse_pb)
     (pb_config := Fixture.VaultManagerConfig_pb)).

Abbreviation config_of infos :=
  (config_bytes (Fixture.environment false)
     (pb_config := Fixture.VaultManagerConfig_pb) 86400 infos).

Lemma HandleStopVaultRequest_bad_signature_witness :
  let env := Fixture.environment false in
  let request := Fixture.put_all ["id1"; "stop"; "forged"] in
  let stopped := set_requested_to_run false Fixture.vault_one in
  ParseProtobuf (pb := Fixture.StopVaultRequest_pb) request =
    Some (mkStopVaultRequest "id1" "stop" "forged") /\
  held Fixture.manager = [] /\
  FindFromIdentity "id1" (vault_infos_ Fixture.manager) =
    Some (0%nat, Fixture.vault_one) /\
  Validate env "stop" "forged" "pk1" = false /\
  (exists w', stop_vault true request "" Fixture.manager = Blocks w' /\
              effects w' = []) /\
  (exists w', stop_vault false request "" Fixture.manager =
                Returns (WrapMessage env kVaultShutdownResponse "0") w' /\
              vault_infos_ w' = [stopped] /\
              effects w' =
                [StopProcess 1;
                 WriteFile "/var/vm/config" (config_of [stopped]);
                 notify_all]).
Proof.
  intros env request stopped.
  pose (run := fun relock =>
    HandleStopVaultRequest_bad_signature env relock
      (pb_stop_request := Fixture.StopVaultRequest_pb)
      (pb_stop_response := Fixture.StopVaultResponse_pb)
      (pb_config := Fixture.VaultManagerConfig_pb)
      Fixture.manager request "" (mkStopVaultRequest "id1" "stop" "forged")
      0%nat Fixture.vault_one eq_refl eq_refl eq_refl eq_refl).
  split_and!.
  - reflexivity.
  - reflexivity.
  - reflexivity.
  - reflexivity.
  - exact (proj1 (run true) eq_refl).
  - exact (proj2 (run false) eq_refl).
Defined.

Lemma HandleReceivedMessage_malformed_witness :
  let env := Fixture.environment false in
  UnwrapMessage env "1junk" = Some (kPing, "junk") /\
  malformed (pb_ping := Fixture.Ping_pb)
    (pb_start_request := Fixture.StartVaultRequest_pb)
    (pb_identity_request := Fixture.VaultIdentityRequest_pb)
    (pb_stop_request := Fixture.StopVaultRequest_pb)
    (pb_interval_request := Fixture.UpdateIntervalRequest_pb)
    kPing "junk" /\
  received_message "1junk" 4242 Fixture.manager =
    Returns tt
      (mkWorld [Fixture.vault_one] 86400 5483 "/var/vm/config" []
         [Send "" 4242]).
Proof.
  intros env. split_and!.
  - reflexivity.
  - reflexivity.
  - exact (HandleReceivedMessage_malformed env true
           (pb_ping := Fixture.Ping_pb)
           (pb_start_request := Fixture.StartVaultRequest_pb)
           (pb_start_response := Fixture.StartVaultResponse_pb)
           (pb_identity_request := Fixture.VaultIdentityRequest_pb)
           (pb_identity_response := Fixture.VaultIdentityResponse_pb)
           (pb_stop_request := Fixture.StopVaultRequest_pb)
           (pb_stop_response := Fixture.StopVaultResponse_pb)
           (pb_interval_request := Fixture.UpdateIntervalRequest_pb)
           (pb_interval_response := Fixture.UpdateIntervalResponse_pb)
           (pb_config := Fixture.VaultManagerConfig_pb)
           Fixture.manager "1junk" 4242 kPing "junk" eq_refl eq_refl).
Defined.

Lemma HandleStartVaultRequest_persists_then_waits_witness :
  let env := Fixture.environment true in
  let keys' := Fixture.put_all ["id2"; "pk2"; "sk2"] in
  let req := mkStartVaultRequest "bob" keys' "" in
  let request := Fixture.put_all ["bob"; keys'; ""] in
  let arguments :=
    ["--chunk_path"; "/var/vm/id2"; "--chunk_capacity"; "0"; "--start"] in
  let vault_two :=
    mkVaultInfo 7 "bob" (mkKeys "id2" "pk2" "sk2") "/var/vm/id2" 0 0 0
      false false in
  ParseProtobuf (pb := Fixture.StartVaultRequest_pb) request = Some req /\
  held Fixture.manager = [] /\
  create_directories_ok env "/var/vm" = true /\
  exists_file env "/var/vm/bootstrap-id2.dat" = true /\
  SetExecutablePath env "/var/vm/vault" = true /\
  AddProcess_index env arguments 5483 <> kInvalidIndex env /\
  exists w',
    start_vault true request "" Fixture.manager =
      Returns (WrapMessage env kStartVaultResponse "1") w' /\
    effects w' =
      [create_directories "/var/vm";
       AddProcess arguments 5483;
       StartProcess 7;
       WriteFile "/var/vm/config" (config_of [Fixture.vault_one; vault_two]);
       wait_for 3 7].
Proof.
  intros env keys' req request arguments vault_two.
  split_and!.
  - reflexivity.
  - reflexivity.
  - reflexivity.
  - reflexivity.
  - reflexivity.
  - discriminate.
  - exact (HandleStartVaultRequest_persists_then_waits env true
             (pb_start_request := Fixture.StartVaultRequest_pb)
             (pb_start_response := Fixture.StartVaultResponse_pb)
             (pb_config := Fixture.VaultManagerConfig_pb)
             Fixture.manager request "" req eq_refl eq_refl eq_refl
             (or_introl eq_refl) eq_refl ltac:(discriminate)).
Defined.

(** C9, as stated, at a vault that never announces itself: the client gets
    [result = false], and the config file has been written with the new
    record all the same. *)
Lemma start_vault_persisted_unannounced_counterexample :
  let env := Fixture.environment false in
  let keys' := Fixture.put_all ["id2"; "pk2"; "sk2"] in
  let request := Fixture.put_all ["bob"; keys'; ""] in
  let vault_two :=
    mkVaultInfo 7 "bob" (mkKeys "id2" "pk2" "sk2") "/var/vm/id2" 0 0 0
      false false in
  announces_within env 3 7 = false /\
  exists w',
    start_vault false request "" Fixture.manager =
      Returns
        (WrapMessage env kStartVaultResponse
           (SerializeToString (Protobuf := Fixture.StartVaultResponse_pb)
              {| start_result := false |})) w' /\
    vault_infos_ w' = [Fixture.vault_one; vault_two] /\
    WriteFile "/var/vm/config" (config_of [Fixture.vault_one; vault_two])
      ∈ effects w'.
Proof.
  intros env keys' request vault_two. split; [reflexivity |].
  eexists. split_and!.
  - vm_compute. reflexivity.
  - reflexivity.
  - cbn [effects]. repeat constructor.
Qed.

(** ** The rest of the manager on the fixture *)

Abbreviation update_interval_request :=
  (HandleUpdateIntervalRequest (Fixture.environment false) true
     (pb_interval_request := Fixture.UpdateIntervalRequest_pb)
     (pb_interval_response := Fixture.UpdateIntervalResponse_pb)).

Abbreviation identity_request relock :=
  (HandleVaultIdentityRequest (Fixture.environment false) relock
     (pb_identity_request := Fixture.VaultIdentityRequest_pb)
     (pb_identity_response := Fixture.VaultIdentityResponse_pb)).

Abbreviation read_config :=
  (ReadConfigFile (Fixture.environment false)
     (pb_config := Fixture.VaultManagerConfig_pb) Fixture.ReadFile "config").

Lemma HandleUpdateIntervalRequest_bounds_witness :
  let env := Fixture.environment false in
  let request := Fixture.put_number 600 in
  ParseProtobuf (pb := Fixture.UpdateIntervalRequest_pb) request =
    Some (mkUpdateIntervalRequest (Some 600%Z)) /\
  held Fixture.manager = [] /\
  update_interval_request request "" Fixture.manager =
    Returns (WrapMessage env kUpdateIntervalResponse (Fixture.put_number 600))
      (mkWorld [Fixture.vault_one] 600 5483 "/var/vm/config" []
         [update_timer_expires_from_now 600; update_timer_async_wait]).
Proof.
  intros env request. split_and!.
  - reflexivity.
  - reflexivity.
  - exact (HandleUpdateIntervalRequest_bounds env true
             (pb_interval_request := Fixture.UpdateIntervalRequest_pb)
             (pb_interval_response := Fixture.UpdateIntervalResponse_pb)
             Fixture.manager request ""
             (mkUpdateIntervalRequest (Some 600%Z)) eq_refl eq_refl).
Defined.

Lemma HandleVaultIdentityRequest_answers_witness :
  let env := Fixture.environment false in
  let request := Fixture.put_number 1 in
  ParseProtobuf (pb := Fixture.VaultIdentityRequest_pb) request =
    Some (mkVaultIdentityRequest 1%Z) /\
  held Fixture.manager = [] /\
  identity_request true request "" Fixture.manager =
    Returns
      (WrapMessage env kVaultIdentityResponse
         (SerializeToString (Protobuf := Fixture.VaultIdentityResponse_pb)
            (mkVaultIdentityResponse "ann"
               (Fixture.put_all ["id1"; "pk1"; "sk1"]))))
      (mkWorld [Fixture.vault_one] 86400 5483 "/var/vm/config" []
         [notify_one 1]).
Proof.
  intros env request. split_and!.
  - reflexivity.
  - reflexivity.
  - exact (HandleVaultIdentityRequest_answers env true
             (pb_identity_request := Fixture.VaultIdentityRequest_pb)
             (pb_identity_response := Fixture.VaultIdentityResponse_pb)
             Fixture.manager request "" (mkVaultIdentityRequest 1%Z)
             eq_refl eq_refl).
Defined.

Lemma HandleStopVaultRequest_unknown_witness :
  let env := Fixture.environment false in
  let request := Fixture.put_all ["id9"; "stop"; "pk9/stop"] in
  ParseProtobuf (pb := Fixture.StopVaultRequest_pb) request =
    Some (mkStopVaultRequest "id9" "stop" "pk9/stop") /\
  held Fixture.manager = [] /\
  FindFromIdentity "id9" (vault_infos_ Fixture.manager) = None /\
  stop_vault false request "" Fixture.manager =
    Returns (WrapMessage env kVaultShutdownResponse "0")
      (mkWorld [Fixture.vault_one] 86400 5483 "/var/vm/config" []
         [notify_all]).
Proof.
  intros env request. split_and!.
  - reflexivity.
  - reflexivity.
  - reflexivity.
  - exact (HandleStopVaultRequest_unknown env false
             (pb_stop_request := Fixture.StopVaultRequest_pb)
             (pb_stop_response := Fixture.StopVaultResponse_pb)
             (pb_config := Fixture.VaultManagerConfig_pb)
             Fixture.manager request ""
             (mkStopVaultRequest "id9" "stop" "pk9/stop")
             eq_refl eq_refl eq_refl).
Defined.

Lemma one_reply_per_request_witness :
  let env := Fixture.environment false in
  let message := String "1" (Fixture.put "hello") in
  held Fixture.manager = [] /\
  exists w',
    received_message message 4242 Fixture.manager = Returns tt w' /\
    exists reply, sent w' = sent Fixture.manager ++ [(reply, 4242%Z)].
Proof.
  intros env message. split; [reflexivity |].
  eexists. split; [vm_compute; reflexivity |].
  refine (one_reply_per_request env true
           (pb_ping := Fixture.Ping_pb)
           (pb_start_request := Fixture.StartVaultRequest_pb)
           (pb_start_response := Fixture.StartVaultResponse_pb)
           (pb_identity_request := Fixture.VaultIdentityRequest_pb)
           (pb_identity_response := Fixture.VaultIdentityResponse_pb)
           (pb_stop_request := Fixture.StopVaultRequest_pb)
           (pb_stop_response := Fixture.StopVaultResponse_pb)
           (pb_interval_request := Fixture.UpdateIntervalRequest_pb)
           (pb_interval_response := Fixture.UpdateIntervalResponse_pb)
           (pb_config := Fixture.VaultManagerConfig_pb)
           Fixture.manager _ message 4242 eq_refl _).
  vm_compute. reflexivity.
Defined.

Lemma update_interval_stays_in_bounds_witness :
  let env := Fixture.environment false in
  let message := String "8" (Fixture.put_number 5) in
  held Fixture.manager = [] /\
  (kMinUpdateInterval <= update_interval_ Fixture.manager
   <= kMaxUpdateInterval)%Z /\
  exists w',
    received_message message 4242 Fixture.manager = Returns tt w' /\
    (kMinUpdateInterval <= update_interval_ w' <= kMaxUpdateInterval)%Z.
Proof.
  intros env message.
  assert (Hbounds : (kMinUpdateInterval <= update_interval_ Fixture.manager
                     <= kMaxUpdateInterval)%Z) by (vm_compute; split; discriminate).
  split; [reflexivity |]. split; [exact Hbounds |].
  eexists. split; [vm_compute; reflexivity |].
  refine (update_interval_stays_in_bounds env true
           (pb_ping := Fixture.Ping_pb)
           (pb_start_request := Fixture.StartVaultRequest_pb)
           (pb_start_response := Fixture.StartVaultResponse_pb)
           (pb_identity_request := Fixture.VaultIdentityRequest_pb)
           (pb_identity_response := Fixture.VaultIdentityResponse_pb)
           (pb_stop_request := Fixture.StopVaultRequest_pb)
           (pb_stop_response := Fixture.StopVaultResponse_pb)
           (pb_interval_request := Fixture.UpdateIntervalRequest_pb)
           (pb_interval_response := Fixture.UpdateIntervalResponse_pb)
           (pb_config := Fixture.VaultManagerConfig_pb)
           Fixture.manager _ message 4242 eq_refl _ Hbounds).
  vm_compute. reflexivity.
Defined.

Lemma registrations_kept_witness :
  let env := Fixture.environment false in
  let message := String "4" (Fixture.put_number 1) in
  held Fixture.manager = [] /\
  exists w',
    received_message message 4242 Fixture.manager = Returns tt w' /\
    map registration (vault_infos_ Fixture.manager) `prefix_of`
      map registration (vault_infos_ w').
Proof.
  intros env message. split; [reflexivity |].
  eexists. split; [vm_compute; reflexivity |].
  refine (registrations_kept env true
           (pb_ping := Fixture.Ping_pb)
           (pb_start_request := Fixture.StartVaultRequest_pb)
           (pb_start_response := Fixture.StartVaultResponse_pb)
           (pb_identity_request := Fixture.VaultIdentityRequest_pb)
           (pb_identity_response := Fixture.VaultIdentityResponse_pb)
           (pb_stop_request := Fixture.StopVaultRequest_pb)
           (pb_stop_response := Fixture.StopVaultResponse_pb)
           (pb_interval_request := Fixture.UpdateIntervalRequest_pb)
           (pb_interval_response := Fixture.UpdateIntervalResponse_pb)
           (pb_config := Fixture.VaultManagerConfig_pb)
           Fixture.manager _ message 4242 eq_refl _).
  vm_compute. reflexivity.
Defined.

Lemma handlers_release_mutexes_witness :
  let env := Fixture.environment false in
  let keys' := Fixture.put_all ["id2"; "pk2"; "sk2"] in
  let message := String "2" (Fixture.put_all ["bob"; keys'; ""]) in
  held Fixture.manager = [] /\
  exists w',
    received_message message 4242 Fixture.manager = Returns tt w' /\
    held w' = [] /\
    local_port_ w' = local_port_ Fixture.manager /\
    config_file_path_ w' = config_file_path_ Fixture.manager.
Proof.
  intros env keys' message. split; [reflexivity |].
  eexists. split; [vm_compute; reflexivity |].
  refine (handlers_release_mutexes env true
           (pb_ping := Fixture.Ping_pb)
           (pb_start_request := Fixture.StartVaultRequest_pb)
           (pb_start_response := Fixture.StartVaultResponse_pb)
           (pb_identity_request := Fixture.VaultIdentityRequest_pb)
           (pb_identity_response := Fixture.VaultIdentityResponse_pb)
           (pb_stop_request := Fixture.StopVaultRequest_pb)
           (pb_stop_response := Fixture.StopVaultResponse_pb)
           (pb_interval_request := Fixture.UpdateIntervalRequest_pb)
           (pb_interval_response := Fixture.UpdateIntervalResponse_pb)
           (pb_config := Fixture.VaultManagerConfig_pb)
           Fixture.manager _ message 4242 eq_refl _).
  vm_compute. reflexivity.
Defined.

Lemma HandleStartVaultRequest_not_spawned_witness :
  let env := Fixture.environment_without_executable in
  let keys' := Fixture.put_all ["id2"; "pk2"; "sk2"] in
  let req := mkStartVaultRequest "bob" keys' "" in
  let request := Fixture.put_all ["bob"; keys'; ""] in
  ParseProtobuf (pb := Fixture.StartVaultRequest_pb) request = Some req /\
  SetExecutablePath env "/var/vm/vault" = false /\
  exists w',
    HandleStartVaultRequest env true
      (pb_start_request := Fixture.StartVaultRequest_pb)
      (pb_start_response := Fixture.StartVaultResponse_pb)
      (pb_config := Fixture.VaultManagerConfig_pb)
      request "" Fixture.manager =
      Returns (WrapMessage env kStartVaultResponse "0") w' /\
    vault_infos_ w' = vault_infos_ Fixture.manager /\
    held w' = held Fixture.manager /\
    forall e, e ∈ effects w' ->
      e ∈ effects Fixture.manager \/
      match e with
      | create_directories _ | copy_file _ _ | AddProcess _ _ => True
      | _ => False
      end.
Proof.
  intros env keys' req request. split_and!.
  - reflexivity.
  - reflexivity.
  - exact (HandleStartVaultRequest_not_spawned env true
             (pb_start_request := Fixture.StartVaultRequest_pb)
             (pb_start_response := Fixture.StartVaultResponse_pb)
             (pb_config := Fixture.VaultManagerConfig_pb)
             Fixture.manager request "" req eq_refl
             (or_intror (or_intror (or_introl eq_refl)))).
Defined.

Lemma start_then_identity_handshake_witness :
  let env := Fixture.environment false in
  let keys' := Fixture.put_all ["id2"; "pk2"; "sk2"] in
  let req := mkStartVaultRequest "bob" keys' "" in
  let request := Fixture.put_all ["bob"; keys'; ""] in
  let arguments :=
    ["--chunk_path"; "/var/vm/id2"; "--chunk_capacity"; "0"; "--start"] in
  ParseProtobuf (pb := Fixture.StartVaultRequest_pb) request = Some req /\
  held Fixture.manager = [] /\
  create_directories_ok env "/var/vm" = true /\
  exists_file env "/var/vm/bootstrap-id2.dat" = true /\
  SetExecutablePath env "/var/vm/vault" = true /\
  AddProcess_index env arguments 5483 = 7%Z /\
  7%Z <> kInvalidIndex env /\
  Forall (fun v => process_index v <> 7%Z) (vault_infos_ Fixture.manager) /\
  ParseProtobuf (pb := Fixture.VaultIdentityRequest_pb)
    (Fixture.put_number 7) = Some (mkVaultIdentityRequest 7%Z) /\
  SerialiseKeys env (mkKeys "id2" "pk2" "sk2") = Some keys' /\
  exists reply w1 w2,
    HandleStartVaultRequest env true
      (pb_start_request := Fixture.StartVaultRequest_pb)
      (pb_start_response := Fixture.StartVaultResponse_pb)
      (pb_config := Fixture.VaultManagerConfig_pb)
      request "" Fixture.manager = Returns reply w1 /\
    identity_request true (Fixture.put_number 7) "" w1 =
      Returns
        (WrapMessage env kVaultIdentityResponse
           (SerializeToString (Protobuf := Fixture.VaultIdentityResponse_pb)
              (mkVaultIdentityResponse "bob" keys'))) w2 /\
    vault_infos_ w2 !! 1%nat =
      Some (mkVaultInfo 7 "bob" (mkKeys "id2" "pk2" "sk2") "/var/vm/id2"
              0 0 0 false true) /\
    effects w2 = effects w1 ++ [notify_one 7].
Proof.
  intros env keys' req request arguments.
  assert (Hfresh : Forall (fun v => process_index v <> 7%Z)
                          (vault_infos_ Fixture.manager)).
  { constructor; [discriminate | constructor]. }
  assert (Hindex : 7%Z <> kInvalidIndex env) by discriminate.
  split_and!.
  - reflexivity.
  - reflexivity.
  - reflexivity.
  - reflexivity.
  - reflexivity.
  - reflexivity.
  - exact Hindex.
  - exact Hfresh.
  - reflexivity.
  - reflexivity.
  - exact (start_then_identity_handshake env true
             (pb_start_request := Fixture.StartVaultRequest_pb)
             (pb_start_response := Fixture.StartVaultResponse_pb)
             (pb_identity_request := Fixture.VaultIdentityRequest_pb)
             (pb_identity_response := Fixture.VaultIdentityResponse_pb)
             (pb_config := Fixture.VaultManagerConfig_pb)
             Fixture.manager request (Fixture.put_number 7) req keys'
             eq_refl eq_refl eq_refl (or_introl eq_refl) eq_refl Hindex
             Hfresh eq_refl eq_refl).
Defined.

Lemma ReadConfigFile_restores_witness :
  let env := Fixture.environment false in
  let config :=
    mkVaultManagerConfig 600
      [mk_pb_VaultInfo "ann" (Fixture.put_all ["id1"; "pk1"; "sk1"])
         "/var/vm/id1" 0 true] in
  Fixture.ReadFile "/var/vm/config" = Some Fixture.written_config /\
  (String.length Fixture.written_config =? 1)%nat &&
    InTestMode "config" Fixture.fresh_manager = false /\
  ParseProtobuf (pb := Fixture.VaultManagerConfig_pb)
    Fixture.written_config = Some config /\
  SetExecutablePath env "/var/vm/vault" = true /\
  exists w',
    read_config Fixture.fresh_manager = Returns true w' /\
    update_interval_ w' = 600%Z /\
    vault_infos_ w' =
      [mkVaultInfo 7 "ann" (mkKeys "id1" "pk1" "sk1") "/var/vm/id1"
         0 0 0 true false] /\
    started w' = [7%Z].
Proof.
  intros env config. split_and!.
  - reflexivity.
  - reflexivity.
  - reflexivity.
  - reflexivity.
  - exact (ReadConfigFile_restores env
             (pb_config := Fixture.VaultManagerConfig_pb)
             Fixture.ReadFile "config" Fixture.fresh_manager
             Fixture.written_config config eq_refl eq_refl eq_refl eq_refl).
Defined.

Lemma config_file_round_trip_witness :
  let env := Fixture.environment false in
  let content :=
    config_bytes env (pb_config := Fixture.VaultManagerConfig_pb)
      600 [Fixture.vault_one] in
  Fixture.ReadFile "/var/vm/config" = Some content /\
  (String.length content =? 1)%nat &&
    InTestMode "config" Fixture.fresh_manager = false /\
  ParseProtobuf (pb := Fixture.VaultManagerConfig_pb) content =
    Some (mkVaultManagerConfig 600 [ToProtobuf env Fixture.vault_one]) /\
  ParseKeys env (Fixture.put_all ["id1"; "pk1"; "sk1"]) =
    mkKeys "id1" "pk1" "sk1" /\
  SetExecutablePath env "/var/vm/vault" = true /\
  AddProcess_index env
    ["--chunk_path"; "/var/vm/id1"; "--chunk_capacity"; "0"; "--start"]
    5483 <> kInvalidIndex env /\
  exists w',
    read_config Fixture.fresh_manager = Returns true w' /\
    update_interval_ w' = 600%Z /\
    map persisted (vault_infos_ w') = [persisted Fixture.vault_one].
Proof.
  intros env content.
  assert (Hindex : AddProcess_index env
            ["--chunk_path"; "/var/vm/id1"; "--chunk_capacity"; "0";
             "--start"] 5483 <> kInvalidIndex env) by discriminate.
  assert (Hkeys : Forall (fun v =>
            ParseKeys env (default "" (SerialiseKeys env (keys v))) = keys v)
                         [Fixture.vault_one]).
  { constructor; [reflexivity | constructor]. }
  assert (Hindexes : Forall (fun v =>
            AddProcess_index env
              (vault_arguments env (chunkstore_path v)
                 (chunkstore_capacity v) "")
              (local_port_ Fixture.fresh_manager) <> kInvalidIndex env)
                            [Fixture.vault_one]).
  { constructor; [exact Hindex | constructor]. }
  split_and!.
  - reflexivity.
  - reflexivity.
  - reflexivity.
  - reflexivity.
  - reflexivity.
  - exact Hindex.
  - exact (config_file_round_trip env
             (pb_config := Fixture.VaultManagerConfig_pb)
             Fixture.ReadFile "config" Fixture.fresh_manager 600
             [Fixture.vault_one] eq_refl eq_refl eq_refl Hkeys eq_refl
             Hindexes).
Defined.

Lemma ListenForMessages_first_free_witness :
  (0 <= local_port_ Fixture.manager <= 5490)%Z /\
  (5490 < 2 ^ 16 - 1)%Z /\
  (5490 - local_port_ Fixture.manager < Z.of_nat 8)%Z /\
  exists w',
    ListenForMessages Fixture.StartListening_ok 5490 8 Fixture.manager =
      Some w' /\
    (local_port_ Fixture.manager <= local_port_ w' <= 5490 + 1)%Z /\
    (local_port_ w' <= 5490 ->
     Fixture.StartListening_ok (local_port_ w') = true)%Z /\
    (forall q, (local_port_ Fixture.manager <= q < local_port_ w')%Z ->
               Fixture.StartListening_ok q = false) /\
    vault_infos_ w' = vault_infos_ Fixture.manager /\
    update_interval_ w' = update_interval_ Fixture.manager /\
    config_file_path_ w' = config_file_path_ Fixture.manager /\
    effects w' = effects Fixture.manager.
Proof.
  assert (Hport : (0 <= local_port_ Fixture.manager <= 5490)%Z)
    by (simpl; lia).
  assert (Hmax : (5490 < 2 ^ 16 - 1)%Z) by lia.
  assert (Hfuel : (5490 - local_port_ Fixture.manager < Z.of_nat 8)%Z)
    by (simpl; lia).
  split; [exact Hport |]. split; [exact Hmax |]. split; [exact Hfuel |].
  exact (ListenForMessages_first_free Fixture.StartListening_ok 5490 8
           Fixture.manager Hport Hmax Hfuel).
Defined.

Lemma FindLatestLocalVersion_greatest_witness :
  let env := Fixture.environment false in
  let latest :=
    FindLatestLocalVersion env Fixture.TokeniseFileName true 0
      Fixture.GenerateFileName Fixture.directory_stems Fixture.manager
      "vault" in
  let names :=
    ["vault_this_2"; "notes"; "vault_other_9"; "vault_this_1";
     "client_this_5"] in
  Fixture.TokeniseFileName "" = None /\
  latest = "vault_this_2" /\
  ((exists version,
      latest ∈ names /\
      Fixture.TokeniseFileName latest = Some ("vault", true, version) /\
      (0 < version)%Z /\
      forall n v, n ∈ names ->
        Fixture.TokeniseFileName n = Some ("vault", true, v) ->
        (v <= version)%Z) \/
   (latest = Fixture.GenerateFileName "vault" true "0.00.00" /\
    forall n v, n ∈ names ->
      Fixture.TokeniseFileName n = Some ("vault", true, v) ->
      (v <= 0)%Z)).
Proof.
  intros env latest names. split; [reflexivity |]. split; [reflexivity |].
  exact (FindLatestLocalVersion_greatest env Fixture.TokeniseFileName true 0
           Fixture.GenerateFileName Fixture.directory_stems Fixture.manager
           "vault" eq_refl).
Defined.

End VaultManagerProperties.
